(** * ML Builder: the step wizard (the StepWizard component)

    A shallow embedding of the wizard component: its data model, its state
    handlers, the request it submits and the views it renders, with the
    JavaScript built-ins those rely on. *)

From Stdlib Require Import ZArith QArith Qround Qabs List String Ascii Bool Lia.
From Stdlib Require Import DecimalString.
From Stdlib Require Import Lqa Qpower Sorted Permutation.
Import ListNotations.
Local Open Scope string_scope.
Local Open Scope list_scope.
Local Open Scope Z_scope.

(** String concatenation, JavaScript's [+] on strings. *)
Infix "+++" := String.append (right associativity, at level 60).

(** ** JavaScript numbers

    A Number is an IEEE-754 binary64 value.  A finite one is carried by its
    exact rational value, kept in lowest terms; the two zeros are not told
    apart (none of the operations below distinguishes them, apart from the
    sign [toFixed] would print for a negative zero). *)
Module JS.

Inductive Number : Type :=
| NaN
| Infinity
| NegInfinity
| Fin (q : Q).

Definition fin (q : Q) : Number := Fin (Qred q).

Definition of_Z (z : Z) : Number := Fin (z # 1).

(** [2 ^ p] for any integer [p]. *)
Definition pow2 (p : Z) : Q :=
  if 0 <=? p then (2 ^ p) # 1 else 1 # Z.to_pos (2 ^ (- p)).

(** [10 ^ p] for any integer [p]. *)
Definition pow10 (p : Z) : Q :=
  if 0 <=? p then (10 ^ p) # 1 else 1 # Z.to_pos (10 ^ (- p)).

(** The largest [e] with [2 ^ e <= q], for [q > 0]. *)
Definition floor_log2 (q : Q) : Z :=
  let d := Z.log2 (Qnum q) - Z.log2 (Zpos (Qden q)) in
  if Qle_bool (pow2 d) q then d else d - 1.

(** The largest [e] with [10 ^ e <= q], for [q > 0]: the estimate from the
    binary logarithm is off by one at most. *)
Definition floor_log10 (q : Q) : Z :=
  let t := (floor_log2 q * 30103) / 100000 in
  if Qle_bool (pow10 (t + 1)) q then t + 1
  else if Qle_bool (pow10 t) q then t
  else t - 1.

(** Nearest integer, ties to the even one. *)
Definition round_half_even (q : Q) : Z :=
  let f := Qfloor q in
  match (q - (f # 1) ?= 1 # 2)%Q with
  | Lt => f
  | Gt => f + 1
  | Eq => if Z.even f then f else f + 1
  end.

(** Nearest integer, ties upwards. *)
Definition round_half_up (q : Q) : Z := Qfloor (q + (1 # 2)).

(** Rounding of a positive real to binary64: 53 significant bits, least
    exponent -1074, overflow to infinity from 2^1024 on. *)
Definition round64_pos (q : Q) : Number :=
  let p := Z.max (floor_log2 q - 52) (-1074) in
  let m := round_half_even (q / pow2 p) in
  let v := ((m # 1) * pow2 p)%Q in
  if Qle_bool (pow2 1024) v then Infinity else fin v.

(** The Number value for a real number. *)
Definition round64 (q : Q) : Number :=
  match Qnum q with
  | Z0 => Fin 0
  | Zpos _ => round64_pos q
  | Zneg _ =>
      match round64_pos (Qopp q) with
      | Fin v => fin (Qopp v)
      | Infinity => NegInfinity
      | other => other
      end
  end.

(** *** Comparison and the Math functions *)

(** [x < y]; false whenever an operand is NaN. *)
Definition lt (x y : Number) : bool :=
  match x, y with
  | NaN, _ | _, NaN => false
  | _, NegInfinity => false
  | NegInfinity, _ => true
  | Infinity, _ => false
  | _, Infinity => true
  | Fin a, Fin b => negb (Qle_bool b a)
  end.

(** [x >= y]; false whenever an operand is NaN. *)
Definition ge (x y : Number) : bool :=
  match x, y with
  | NaN, _ | _, NaN => false
  | _, NegInfinity => true
  | NegInfinity, _ => false
  | Infinity, _ => true
  | _, Infinity => false
  | Fin a, Fin b => Qle_bool b a
  end.

(** [x > y]. *)
Definition gt (x y : Number) : bool := lt y x.

(** [x === y] on numbers. *)
Definition eqb (x y : Number) : bool :=
  match x, y with
  | Infinity, Infinity | NegInfinity, NegInfinity => true
  | Fin a, Fin b => Qeq_bool a b
  | _, _ => false
  end.

Definition abs (x : Number) : Number :=
  match x with
  | NaN => NaN
  | Infinity | NegInfinity => Infinity
  | Fin q => Fin (Qabs q)
  end.

(** One step of [Math.max]: NaN is absorbing. *)
Definition max2 (x y : Number) : Number :=
  match x, y with
  | NaN, _ | _, NaN => NaN
  | _, _ => if lt x y then y else x
  end.

(** [Math.max] of the arguments [xs], which is [-Infinity] for none. *)
Definition max (xs : list Number) : Number := fold_left max2 xs NegInfinity.

(** *** Strings

    A string is its sequence of UTF-8 bytes. *)

Definition chars (s : string) : list ascii := list_ascii_of_string s.
Definition text (cs : list ascii) : string := string_of_list_ascii cs.

Definition zeros (n : Z) : string := text (repeat "0"%char (Z.to_nat n)).

(** Decimal digits of a non-negative integer. *)
Definition digits_of (z : Z) : string := NilZero.string_of_uint (N.to_uint (Z.to_N z)).

Definition strlen (s : string) : Z := Z.of_nat (String.length s).

(** [s.substring(0, n)] and [s.substring(n)], for [0 <= n]. *)
Definition take (n : Z) (s : string) : string :=
  text (firstn (Z.to_nat n) (chars s)).
Definition drop (n : Z) (s : string) : string :=
  text (skipn (Z.to_nat n) (chars s)).

(** [s.replace(c, '')] for a one-character pattern: the first occurrence
    only is removed. *)
Fixpoint remove_first (c : ascii) (s : string) : string :=
  match s with
  | EmptyString => EmptyString
  | String a r => if Ascii.eqb a c then r else String a (remove_first c r)
  end.

Definition byte (c : ascii) : Z := Z.of_nat (nat_of_ascii c).

Definition digit_value (c : ascii) : option Z :=
  let n := byte c in
  if (48 <=? n) && (n <=? 57) then Some (n - 48) else None.

Definition is_digit (c : ascii) : bool :=
  match digit_value c with Some _ => true | None => false end.

(** Value of a digit of radix up to 16, when [c] is one. *)
Definition hex_value (c : ascii) : option Z :=
  let n := byte c in
  if (48 <=? n) && (n <=? 57) then Some (n - 48)
  else if (97 <=? n) && (n <=? 102) then Some (n - 87)
  else if (65 <=? n) && (n <=? 70) then Some (n - 55)
  else None.

(** The longest prefix of decimal digits, and what follows it. *)
Fixpoint span_digits (cs : list ascii) : list ascii * list ascii :=
  match cs with
  | c :: r =>
      if is_digit c
      then let (ds, rest) := span_digits r in (c :: ds, rest)
      else ([], cs)
  | [] => ([], [])
  end.

(** Value of a digit sequence in the given radix; [None] when a character
    is no digit of that radix. *)
Definition radix_value (radix : Z) (cs : list ascii) : option Z :=
  fold_left
    (fun acc c =>
       match acc, hex_value c with
       | Some v, Some d => if d <? radix then Some (v * radix + d) else None
       | _, _ => None
       end)
    cs (Some 0).

Definition digits_value (cs : list ascii) : Z :=
  match radix_value 10 cs with Some v => v | None => 0 end.

(** One-byte members of StrWhiteSpaceChar: TAB, LF, VT, FF, CR, SP. *)
Definition is_space (c : ascii) : bool :=
  let n := byte c in ((9 <=? n) && (n <=? 13)) || (n =? 32).

(** Drops leading white space and line terminators, the multi-byte ones
    included: U+00A0, U+1680, U+2000..U+200A, U+2028, U+2029, U+202F,
    U+205F, U+3000 and U+FEFF. *)
Fixpoint skip_space (cs : list ascii) : list ascii :=
  match cs with
  | [] => []
  | c1 :: r1 =>
      if is_space c1 then skip_space r1
      else
        match r1 with
        | c2 :: r2 =>
            if (byte c1 =? 194) && (byte c2 =? 160) then skip_space r2
            else
              match r2 with
              | c3 :: r3 =>
                  let b1 := byte c1 in
                  let b2 := byte c2 in
                  let b3 := byte c3 in
                  if ((b1 =? 225) && (b2 =? 154) && (b3 =? 128))
                     || ((b1 =? 226) && (b2 =? 128)
                         && (((128 <=? b3) && (b3 <=? 138))
                             || (b3 =? 168) || (b3 =? 169) || (b3 =? 175)))
                     || ((b1 =? 226) && (b2 =? 129) && (b3 =? 159))
                     || ((b1 =? 227) && (b2 =? 128) && (b3 =? 128))
                     || ((b1 =? 239) && (b2 =? 187) && (b3 =? 191))
                  then skip_space r3
                  else cs
              | [] => cs
              end
        | [] => cs
        end
  end.

Definition all_space (cs : list ascii) : bool :=
  match skip_space cs with [] => true | _ :: _ => false end.

(** Drops trailing white space. *)
Fixpoint drop_trailing_space (cs : list ascii) : list ascii :=
  match cs with
  | [] => []
  | c :: r => if all_space cs then [] else c :: drop_trailing_space r
  end.

Definition trim (cs : list ascii) : list ascii :=
  drop_trailing_space (skip_space cs).

(** Whether [cs] starts with the characters of [p]; the rest if so. *)
Fixpoint strip_prefix (p cs : list ascii) : option (list ascii) :=
  match p, cs with
  | [], _ => Some cs
  | a :: p', c :: cs' => if Ascii.eqb a c then strip_prefix p' cs' else None
  | _ :: _, [] => None
  end.

(** A real number or an infinity read from a literal, before rounding. *)
Inductive Literal : Type :=
| LitInfinity (negative : bool)
| LitReal (q : Q).

Definition strip_sign (cs : list ascii) : bool * list ascii :=
  match cs with
  | "-"%char :: r => (true, r)
  | "+"%char :: r => (false, r)
  | _ => (false, cs)
  end.

(** ExponentPart: [e] or [E], an optional sign, one digit at least.
    Returns the exponent and what follows; no exponent leaves [cs] as is. *)
Definition exponent_part (cs : list ascii) : Z * list ascii :=
  match cs with
  | c :: r =>
      if Ascii.eqb c "e" || Ascii.eqb c "E" then
        let (neg, r') := strip_sign r in
        match span_digits r' with
        | ([], _) => (0, cs)
        | (ds, rest) =>
            ((if neg : bool then - digits_value ds else digits_value ds), rest)
        end
      else (0, cs)
  | [] => (0, cs)
  end.

(** The longest prefix of [cs] that is a StrDecimalLiteral, with what
    follows it; [None] when no prefix is one. *)
Definition decimal_prefix (cs : list ascii) : option (Literal * list ascii) :=
  let (neg, body) := strip_sign cs in
  match strip_prefix (chars "Infinity") body with
  | Some rest => Some (LitInfinity neg, rest)
  | None =>
      let (ip, r1) := span_digits body in
      let '(fp, r2, dotted) :=
        match r1 with
        | "."%char :: r =>
            let (fp, r') := span_digits r in
            match ip, fp with
            | [], [] => ([], r1, false)
            | _, _ => (fp, r', true)
            end
        | _ => ([], r1, false)
        end in
      match ip, dotted with
      | [], false => None
      | _, _ =>
          let (ex, rest) := exponent_part r2 in
          let frac := Z.of_nat (List.length fp) in
          let mant := digits_value (ip ++ fp) in
          let q := ((mant # 1) * pow10 (ex - frac))%Q in
          Some (LitReal (if neg : bool then Qopp q else q), rest)
      end
  end.

Definition number_of_literal (l : Literal) : Number :=
  match l with
  | LitInfinity false => Infinity
  | LitInfinity true => NegInfinity
  | LitReal q => round64 q
  end.

(** [parseFloat(s)]. *)
Definition parseFloat (s : string) : Number :=
  match decimal_prefix (skip_space (chars s)) with
  | Some (l, _) => number_of_literal l
  | None => NaN
  end.

(** StringToNumber: the whole trimmed string must be a numeric literal;
    the empty string is 0. *)
Definition string_to_number (s : string) : Number :=
  let cs := trim (chars s) in
  match cs with
  | [] => Fin 0
  | "0"%char :: x :: ds =>
      let radix :=
        if Ascii.eqb x "x" || Ascii.eqb x "X" then Some 16
        else if Ascii.eqb x "o" || Ascii.eqb x "O" then Some 8
        else if Ascii.eqb x "b" || Ascii.eqb x "B" then Some 2
        else None in
      match radix with
      | Some r =>
          match ds, radix_value r ds with
          | _ :: _, Some v => round64 (v # 1)
          | _, _ => NaN
          end
      | None =>
          match decimal_prefix cs with
          | Some (l, []) => number_of_literal l
          | _ => NaN
          end
      end
  | _ =>
      match decimal_prefix cs with
      | Some (l, []) => number_of_literal l
      | _ => NaN
      end
  end.

(** A numeric literal of the source text. *)
Definition lit (s : string) : Number := string_to_number s.

(** *** Number to string *)

(** The [k]-digit integers [s] nearest to [x / 10 ^ (n - k)], below and
    above, with [s * 10 ^ (n - k)] rounding to the double [x]. *)
Definition digit_candidates (x : Q) (n k : Z) : list Z :=
  let lo := Qfloor (x / pow10 (n - k)) in
  filter
    (fun s =>
       (10 ^ (k - 1) <=? s) && (s <? 10 ^ k)
       && eqb (round64 ((s # 1) * pow10 (n - k))) (Fin x))
    [lo; lo + 1].

(** Of two candidates the one nearer to [x], the even one at a tie. *)
Definition nearer (x : Q) (e : Z) (s1 s2 : Z) : Z :=
  let d1 := Qabs ((s1 # 1) * pow10 e - x) in
  let d2 := Qabs ((s2 # 1) * pow10 e - x) in
  match (d1 ?= d2)%Q with
  | Lt => s1
  | Gt => s2
  | Eq => if Z.even s1 then s1 else s2
  end.

(** The shortest digits [(n, k, s)] of a positive double [x]: [k] digits
    [s] with [s * 10 ^ (n - k)] reading back as [x], [k] least.  The search
    stops at 17 digits, which identify any double. *)
Fixpoint shortest_from (fuel : nat) (x : Q) (n0 k : Z) : Z * Z * Z :=
  match fuel with
  | O => (n0, 17, round_half_even (x / pow10 (n0 - 17)))
  | S fuel' =>
      match digit_candidates x n0 k, digit_candidates x (n0 + 1) k with
      | s :: more, _ =>
          (n0, k, fold_left (nearer x (n0 - k)) more s)
      | [], s :: more =>
          (n0 + 1, k, fold_left (nearer x (n0 + 1 - k)) more s)
      | [], [] => shortest_from fuel' x n0 (k + 1)
      end
  end.

Definition shortest (x : Q) : Z * Z * Z :=
  shortest_from 17 x (floor_log10 x + 1) 1.

(** Number::toString for a positive finite value. *)
Definition positive_to_string (x : Q) : string :=
  let '(n, k, s) := shortest x in
  let ds := digits_of s in
  if (k <=? n) && (n <=? 21) then ds +++ zeros (n - k)
  else if (0 <? n) && (n <=? 21) then take n ds +++ "." +++ drop n ds
  else if (-6 <? n) && (n <=? 0) then "0." +++ zeros (- n) +++ ds
  else
    let e := n - 1 in
    let ex := (if 0 <=? e then "+" else "-") +++ digits_of (Z.abs e) in
    if k =? 1 then ds +++ "e" +++ ex
    else take 1 ds +++ "." +++ drop 1 ds +++ "e" +++ ex.

(** Number::toString, radix 10. *)
Definition to_string (x : Number) : string :=
  match x with
  | NaN => "NaN"
  | Infinity => "Infinity"
  | NegInfinity => "-Infinity"
  | Fin q =>
      match Qnum q with
      | Z0 => "0"
      | Zpos _ => positive_to_string q
      | Zneg _ => "-" +++ positive_to_string (Qopp q)
      end
  end.

(** [x.toFixed(f)] for [0 <= f <= 100]. *)
Definition toFixed (f : Z) (x : Number) : string :=
  match x with
  | Fin q =>
      if Qle_bool (pow10 21) (Qabs q) then to_string x
      else
        let sign := if Qle_bool 0 q then "" else "-" in
        let n := round_half_up (Qabs q * pow10 f) in
        let m := digits_of n in
        let m := if strlen m <=? f then zeros (f + 1 - strlen m) +++ m else m in
        let k := strlen m in
        if f =? 0 then sign +++ m
        else sign +++ take (k - f) m +++ "." +++ drop (k - f) m
  | _ => to_string x
  end.

(** *** Exceptions

    An evaluation either gives a value or throws.  What is thrown here is
    a TypeError (a property of [null] or [undefined], a call of what is no
    function, an object without a primitive value) or React's refusal of an
    object as a child; either one fails the whole render, and the two are
    not told apart. *)
Inductive Result (A : Type) : Type :=
| Ok (a : A)
| Throw.
Arguments Ok {A} a.
Arguments Throw {A}.

Definition bind {A B} (r : Result A) (k : A -> Result B) : Result B :=
  match r with
  | Ok a => k a
  | Throw => Throw
  end.

Notation "'let*' x ':=' r 'in' k" := (bind r (fun x => k))
  (at level 10, x name, r at level 100, k at level 200).

(** [xs.map(f)] when [f] may throw: elements in order, the first exception
    ends it. *)
Fixpoint traverse {A B} (f : A -> Result B) (xs : list A) : Result (list B) :=
  match xs with
  | [] => Ok []
  | x :: r =>
      let* y := f x in
      let* ys := traverse f r in
      Ok (y :: ys)
  end.

(** [xs.map((x, i) => f(x, i))], indices from [i]. *)
Fixpoint traverse_indexed {A B} (f : nat -> A -> Result B) (i : nat)
    (xs : list A) : Result (list B) :=
  match xs with
  | [] => Ok []
  | x :: r =>
      let* y := f i x in
      let* ys := traverse_indexed f (S i) r in
      Ok (y :: ys)
  end.

(** *** Values of type [any]

    What [JSON.parse] can produce, and [undefined].  An object is the list
    of its own properties in enumeration order, no key twice: the keys that
    are array indices first, in ascending order, then the other keys in the
    order they were added.  [assign] and [object_of] keep it so. *)
#[local] Set Warnings "-register-all".
Inductive Value : Type :=
| Undefined
| Null
| Bool (b : bool)
| Num (n : Number)
| Str (s : string)
| Arr (items : list Value)
| Obj (fields : list (string * Value)).

Definition Object : Type := list (string * Value).

(** [o[key]] on an object's own properties. *)
Fixpoint lookup (key : string) (o : Object) : Value :=
  match o with
  | [] => Undefined
  | (k, v) :: r => if String.eqb k key then v else lookup key r
  end.

Fixpoint has_own (key : string) (o : Object) : bool :=
  match o with
  | [] => false
  | (k, _) :: r => String.eqb k key || has_own key r
  end.

(** An array index: the canonical decimal string of an integer from 0 to
    2^32 - 2 ("7" is one; "07", "-1", "1.5" and "4294967295" are not). *)
Definition array_index (key : string) : option Z :=
  match chars key with
  | [] => None
  | cs =>
      if forallb is_digit cs then
        let n := digits_value cs in
        if String.eqb (digits_of n) key && (n <=? 4294967294) then Some n
        else None
      else None
  end.

(** A new value for an own key: the key keeps its place. *)
Fixpoint overwrite (key : string) (v : Value) (o : Object) : Object :=
  match o with
  | [] => []
  | (k, w) :: r =>
      if String.eqb k key then (k, v) :: r else (k, w) :: overwrite key v r
  end.

(** A new key that is the array index [n]: it goes after the smaller array
    indices, before every other key. *)
Fixpoint insert_index (n : Z) (key : string) (v : Value) (o : Object)
  : Object :=
  match o with
  | [] => [(key, v)]
  | (k, w) :: r =>
      match array_index k with
      | Some m =>
          if m <? n then (k, w) :: insert_index n key v r else (key, v) :: o
      | None => (key, v) :: o
      end
  end.

(** [{ ...o, [key]: v }]: an own key keeps its place; a new key goes among
    the array indices if it is one, and last if it is not. *)
Definition assign (key : string) (v : Value) (o : Object) : Object :=
  if has_own key o then overwrite key v o
  else
    match array_index key with
    | Some n => insert_index n key v o
    | None => o ++ [(key, v)]
    end.

(** The object of a JSON text [{"k1": v1, ...}], or of an object literal,
    with the members given in their order: a name that comes again gets the
    later value and keeps its place. *)
Definition object_of (members : list (string * Value)) : Object :=
  fold_left (fun o member => assign (fst member) (snd member) o) members [].

Definition keys (o : Object) : list string := map fst o.
Definition values (o : Object) : list Value := map snd o.

(** ToBoolean. *)
Definition truthy (v : Value) : bool :=
  match v with
  | Undefined | Null => false
  | Bool b => b
  | Num NaN => false
  | Num (Fin q) => negb (Qeq_bool q 0)
  | Num _ => true
  | Str s => negb (String.eqb s "")
  | Arr _ | Obj _ => true
  end.

(** [v.name] for a [name] that no prototype defines: an own property of an
    object, [undefined] on any other value, an exception on [null] and
    [undefined]. *)
Definition prop (name : string) (v : Value) : Result Value :=
  match v with
  | Undefined | Null => Throw
  | Obj o => Ok (lookup name o)
  | _ => Ok Undefined
  end.

Fixpoint join (sep : string) (parts : list string) : string :=
  match parts with
  | [] => ""
  | [p] => p
  | p :: r => p +++ sep +++ join sep r
  end.

(** ToString.  An array joins its elements with commas, [null] and
    [undefined] elements as empty strings.  A parsed object inherits
    [Object.prototype.toString]; an own [toString] property, which is never
    a function, leaves it without a primitive value. *)
Fixpoint to_str (v : Value) : Result string :=
  match v with
  | Undefined => Ok "undefined"
  | Null => Ok "null"
  | Bool true => Ok "true"
  | Bool false => Ok "false"
  | Num n => Ok (to_string n)
  | Str s => Ok s
  | Arr items =>
      let* parts :=
        (fix elements (l : list Value) : Result (list string) :=
           match l with
           | [] => Ok []
           | (Undefined | Null) :: r =>
               let* ps := elements r in Ok ("" :: ps)
           | e :: r =>
               let* p := to_str e in
               let* ps := elements r in
               Ok (p :: ps)
           end) items in
      Ok (join "," parts)
  | Obj o => if has_own "toString" o then Throw
             else Ok "[object Object]"
  end.

(** ToNumber. *)
Definition to_number (v : Value) : Result Number :=
  match v with
  | Undefined => Ok NaN
  | Null => Ok (Fin 0)
  | Bool true => Ok (Fin 1)
  | Bool false => Ok (Fin 0)
  | Num n => Ok n
  | Str s => Ok (string_to_number s)
  | Arr _ | Obj _ => let* s := to_str v in Ok (string_to_number s)
  end.

(** The text nodes React makes of a child [{v}]: none for [null],
    [undefined], a boolean or the empty string, one for a number or a
    string, those of its elements for an array; an object is refused. *)
Fixpoint react_child (v : Value) : Result (list string) :=
  match v with
  | Undefined | Null | Bool _ => Ok []
  | Num n => Ok [to_string n]
  | Str s => Ok (if String.eqb s "" then [] else [s])
  | Arr items =>
      (fix children (l : list Value) : Result (list string) :=
         match l with
         | [] => Ok []
         | e :: r =>
             let* t := react_child e in
             let* ts := children r in
             Ok (t ++ ts)
         end) items
  | Obj _ => Throw
  end.

End JS.

Import JS.

(** ** Types (StepWizard.tsx, lines 8-35) *)

Inductive PreprocessingType : Type :=
| standard_scaler
| min_max_scaler
| drop_nulls.

Inductive ModelType : Type :=
| logistic_regression
| decision_tree_classifier.

(** [type StepType = PreprocessingType | 'train_test_split' | ModelType]. *)
Inductive StepType : Type :=
| OfPreprocessing (t : PreprocessingType)
| train_test_split
| OfModel (t : ModelType).

(** The string a step type is on the wire. *)
Definition tag (t : StepType) : string :=
  match t with
  | OfPreprocessing standard_scaler => "standard_scaler"
  | OfPreprocessing min_max_scaler => "min_max_scaler"
  | OfPreprocessing drop_nulls => "drop_nulls"
  | train_test_split => "train_test_split"
  | OfModel logistic_regression => "logistic_regression"
  | OfModel decision_tree_classifier => "decision_tree_classifier"
  end.

Definition all_step_types : list StepType :=
  [ OfPreprocessing standard_scaler; OfPreprocessing min_max_scaler;
    OfPreprocessing drop_nulls; train_test_split;
    OfModel logistic_regression; OfModel decision_tree_classifier ].

(** The three kinds of step the union is built from. *)
Inductive Kind : Type :=
| PreprocessingKind
| SplitKind
| ModelKind.

Definition kind (t : StepType) : Kind :=
  match t with
  | OfPreprocessing _ => PreprocessingKind
  | train_test_split => SplitKind
  | OfModel _ => ModelKind
  end.

Record PipelineStep : Type := {
  id : string;
  type : StepType;
  params : Object
}.

Record PipelineResult : Type := {
  success : bool;
  message : string;
  metrics : Object;
  logs : list string;
  model_path : option string
}.

Module Distributions.
Record t : Type := {
  target_column : string;
  data : list (string * Number)
}.
End Distributions.

Module Correlations.
Record t : Type := {
  labels : list string;
  data : list (list Number)
}.
End Correlations.

Module ScatterPoint.
Record t : Type := {
  x : Number;
  y : Number;
  class : string
}.
End ScatterPoint.

Record DatasetMetadata : Type := {
  filename : string;
  rows : Number;
  columns : Number;
  column_names : list string;
  preview : list Object;
  distributions : option Distributions.t;
  correlations : option Correlations.t;
  scatter_data : option (list ScatterPoint.t)
}.

(** ** Constants (lines 38-83) *)

(** [category: 'preprocessing' | 'model']. *)
Inductive Category : Type :=
| preprocessing
| model.

Record Template : Type := {
  label : string;
  category : Category;
  defaultParams : Object;
  description : string
}.

Definition STEP_TEMPLATES (t : StepType) : Template :=
  match t with
  | OfPreprocessing standard_scaler =>
      {| label := "Standard Scaler";
         category := preprocessing;
         defaultParams := [];
         description := "Standardizes features by removing the mean and scaling to unit variance. Useful when features have different units (e.g. Age vs Salary)." |}
  | OfPreprocessing min_max_scaler =>
      {| label := "Min Max Scaler";
         category := preprocessing;
         defaultParams := [("feature_range", Str "0,1")];
         description := "Scales features to a given range (usually 0 to 1). Keeps the relationship between values but fits them in a box." |}
  | OfPreprocessing drop_nulls =>
      {| label := "Drop Missing Values";
         category := preprocessing;
         defaultParams := [("axis", Num (lit "0"))];
         description := "Removes rows or columns that have 'NaN' or empty values, so the model doesn't crash." |}
  | train_test_split =>
      {| label := "Train/Test Split";
         category := preprocessing;
         defaultParams := [("test_size", Num (lit "0.2"))];
         description := "Splits data into a 'Study Guide' (Train) and an 'Exam' (Test) to check if the model actually learned." |}
  | OfModel logistic_regression =>
      {| label := "Logistic Regression";
         category := model;
         defaultParams := [("C", Num (lit "1.0"))];
         description := "A fast, simple model that draws a line (or plane) to separate classes. Great for simple Yes/No questions." |}
  | OfModel decision_tree_classifier =>
      {| label := "Decision Tree Classifier";
         category := model;
         defaultParams := [("max_depth", Num (lit "5"))];
         description := "Builds a flowchart-like structure (e.g. 'If Petal > 2...') to make decisions. Good for capturing complex rules." |}
  end.

Record WizardStep : Type := {
  number : Z;       (* the entry's [id] *)
  title : string
}.

Definition WIZARD_STEPS : list WizardStep :=
  [ {| number := 1; title := "Data Source" |};
    {| number := 2; title := "Preprocessing" |};
    {| number := 3; title := "Train/Test Split" |};
    {| number := 4; title := "Model Selection" |};
    {| number := 5; title := "Results" |} ].

(** ** ResultExplanation (lines 85-107) *)

Module Explanation.
Record t : Type := {
  grade : string;
  color : string;
  message : string;
  heading : string      (* the h3: grade, "Model" and the accuracy *)
}.
End Explanation.

Definition accVal (accuracy : string) : Number :=
  parseFloat (remove_first "%" accuracy).

Definition ResultExplanation (accuracy : string) : Explanation.t :=
  let accVal := accVal accuracy in
  let '(grade, color, message) :=
    if ge accVal (lit "90") then
      ("Excellent", "#28a745",
       "Your model correctly identifies the class " +++ to_string accVal
         +++ "% of the time! It has learned the patterns very well.")
    else if ge accVal (lit "70") then
      ("Good", "#ffc107",
       "Your model is doing a decent job (correct " +++ to_string accVal
         +++ " times out of 100). It makes some mistakes but is generally reliable.")
    else
      ("Needs Improvement", "#dc3545",
       "The model is struggling to find patterns. Try adding more data or using a different model.")
  in
  {| Explanation.grade := grade;
     Explanation.color := color;
     Explanation.message := message;
     Explanation.heading := grade +++ " Model (" +++ accuracy +++ ")" |}.

(** ** The component's state (lines 126-134) *)

Record State : Type := {
  currentStep : Z;
  preprocessingSteps : list PipelineStep;
  testSize : Number;
  selectedModel : option PipelineStep;
  isRunning : bool;
  results : option PipelineResult;
  datasetMetadata : option DatasetMetadata;
  uploadError : option string;
  isUploading : bool
}.

(** The [useState] initial values. *)
Definition initial : State :=
  {| currentStep := 1;
     preprocessingSteps := [];
     testSize := lit "0.2";
     selectedModel := None;
     isRunning := false;
     results := None;
     datasetMetadata := None;
     uploadError := None;
     isUploading := false |}.

(** The state setters. *)
Definition setCurrentStep (v : Z) (s : State) : State :=
  {| currentStep := v;
     preprocessingSteps := preprocessingSteps s;
     testSize := testSize s;
     selectedModel := selectedModel s;
     isRunning := isRunning s;
     results := results s;
     datasetMetadata := datasetMetadata s;
     uploadError := uploadError s;
     isUploading := isUploading s |}.

Definition setPreprocessingSteps (v : list PipelineStep) (s : State) : State :=
  {| currentStep := currentStep s;
     preprocessingSteps := v;
     testSize := testSize s;
     selectedModel := selectedModel s;
     isRunning := isRunning s;
     results := results s;
     datasetMetadata := datasetMetadata s;
     uploadError := uploadError s;
     isUploading := isUploading s |}.

Definition setTestSize (v : Number) (s : State) : State :=
  {| currentStep := currentStep s;
     preprocessingSteps := preprocessingSteps s;
     testSize := v;
     selectedModel := selectedModel s;
     isRunning := isRunning s;
     results := results s;
     datasetMetadata := datasetMetadata s;
     uploadError := uploadError s;
     isUploading := isUploading s |}.

Definition setSelectedModel (v : option PipelineStep) (s : State) : State :=
  {| currentStep := currentStep s;
     preprocessingSteps := preprocessingSteps s;
     testSize := testSize s;
     selectedModel := v;
     isRunning := isRunning s;
     results := results s;
     datasetMetadata := datasetMetadata s;
     uploadError := uploadError s;
     isUploading := isUploading s |}.

Definition setIsRunning (v : bool) (s : State) : State :=
  {| currentStep := currentStep s;
     preprocessingSteps := preprocessingSteps s;
     testSize := testSize s;
     selectedModel := selectedModel s;
     isRunning := v;
     results := results s;
     datasetMetadata := datasetMetadata s;
     uploadError := uploadError s;
     isUploading := isUploading s |}.

Definition setResults (v : option PipelineResult) (s : State) : State :=
  {| currentStep := currentStep s;
     preprocessingSteps := preprocessingSteps s;
     testSize := testSize s;
     selectedModel := selectedModel s;
     isRunning := isRunning s;
     results := v;
     datasetMetadata := datasetMetadata s;
     uploadError := uploadError s;
     isUploading := isUploading s |}.

Definition setDatasetMetadata (v : option DatasetMetadata) (s : State) : State :=
  {| currentStep := currentStep s;
     preprocessingSteps := preprocessingSteps s;
     testSize := testSize s;
     selectedModel := selectedModel s;
     isRunning := isRunning s;
     results := results s;
     datasetMetadata := v;
     uploadError := uploadError s;
     isUploading := isUploading s |}.

Definition setUploadError (v : option string) (s : State) : State :=
  {| currentStep := currentStep s;
     preprocessingSteps := preprocessingSteps s;
     testSize := testSize s;
     selectedModel := selectedModel s;
     isRunning := isRunning s;
     results := results s;
     datasetMetadata := datasetMetadata s;
     uploadError := v;
     isUploading := isUploading s |}.

Definition setIsUploading (v : bool) (s : State) : State :=
  {| currentStep := currentStep s;
     preprocessingSteps := preprocessingSteps s;
     testSize := testSize s;
     selectedModel := selectedModel s;
     isRunning := isRunning s;
     results := results s;
     datasetMetadata := datasetMetadata s;
     uploadError := uploadError s;
     isUploading := v |}.

(** ** Handlers (lines 138-182) *)

(** [handleNext] past its [await]: the step the click saw decides. *)
Definition advance (seen : Z) (s : State) : State :=
  if seen <? Z.of_nat (List.length WIZARD_STEPS)
  then setCurrentStep (seen + 1) s
  else s.

Definition handleBack (s : State) : State :=
  if 1 <? currentStep s then setCurrentStep (currentStep s - 1) s else s.

(** The step's [id] is [Math.random().toString(36).substr(2, 9)], here
    whatever string the call gave. *)
Definition addPreprocessingStep (t : PreprocessingType) (random_id : string)
    (s : State) : State :=
  setPreprocessingSteps
    (preprocessingSteps s ++
     [ {| id := random_id;
          type := OfPreprocessing t;
          params := defaultParams (STEP_TEMPLATES (OfPreprocessing t)) |} ])
    s.

Definition removePreprocessingStep (i : string) (s : State) : State :=
  setPreprocessingSteps
    (filter (fun st => negb (String.eqb (id st) i)) (preprocessingSteps s)) s.

Definition updatePreprocessingParam (i param : string) (value : Value)
    (s : State) : State :=
  setPreprocessingSteps
    (map (fun st =>
            if String.eqb (id st) i
            then {| id := id st; type := type st;
                    params := assign param value (params st) |}
            else st)
         (preprocessingSteps s))
    s.

Definition selectModel (t : ModelType) (s : State) : State :=
  setSelectedModel
    (Some {| id := "model-step";
             type := OfModel t;
             params := defaultParams (STEP_TEMPLATES (OfModel t)) |})
    s.

Definition updateModelParam (param : string) (value : Value) (s : State)
  : State :=
  match selectedModel s with
  | Some m =>
      setSelectedModel
        (Some {| id := id m; type := type m;
                 params := assign param value (params m) |})
        s
  | None => s
  end.

(** The body of the POST to /api/pipeline/run, before [JSON.stringify]. *)
Record RunRequest : Type := {
  datasetName : string;
  steps : list PipelineStep
}.

Definition splitStep (s : State) : PipelineStep :=
  {| id := "split";
     type := train_test_split;
     params := [("test_size", Num (testSize s))] |}.

Definition fullSteps (s : State) (selected : PipelineStep)
  : list PipelineStep :=
  preprocessingSteps s ++ [splitStep s; selected].

(** [datasetMetadata?.filename || 'Unknown']. *)
Definition requestName (s : State) : string :=
  match datasetMetadata s with
  | Some md => if String.eqb (filename md) "" then "Unknown" else filename md
  | None => "Unknown"
  end.

(** [runPipeline] up to its [fetch]: nothing without a selected model,
    else the running flag, the cleared results and the request. *)
Definition runPipeline_start (s : State) : State * option RunRequest :=
  match selectedModel s with
  | None => (s, None)
  | Some selected =>
      (setResults None (setIsRunning true s),
       Some {| datasetName := requestName s;
               steps := fullSteps s selected |})
  end.

(** How the [fetch] and the reading of its body can end. *)
Inductive Outcome (A : Type) : Type :=
| Rejected (error_message : string)       (* [fetch] rejects *)
| Responded (ok : bool) (status : Z)
            (body : string + A).          (* [res.json()]: the message of
                                             its rejection, or the value *)
Arguments Rejected {A} error_message.
Arguments Responded {A} ok status body.

Definition failure (error_message : string) : PipelineResult :=
  {| success := false;
     message := "Failed to execute pipeline";
     metrics := [];
     logs := ["Error: " +++ error_message];
     model_path := None |}.

(** The [try] block: the parsed response, or the message of the error
    thrown ([fetch] rejecting, a status that is not ok, [res.json()]
    rejecting).  The body parsed is taken to be of the type the state
    declares, [PipelineResult | null]: [None] is a body of [null]. *)
Definition attempt (o : Outcome (option PipelineResult))
  : string + option PipelineResult :=
  match o with
  | Rejected m => inl m
  | Responded ok status body =>
      if negb ok then inl ("Server status: " +++ to_string (of_Z status))
      else body
  end.

(** What [runPipeline] stores once the request has ended: the body of the
    response as it is, or the [catch] block's own result. *)
Definition runPipeline_result (o : Outcome (option PipelineResult))
  : option PipelineResult :=
  match attempt o with
  | inr body => body
  | inl m => Some (failure m)
  end.

(** [runPipeline] from the end of the request on. *)
Definition runPipeline_finish (o : Outcome (option PipelineResult))
    (s : State) : State :=
  setIsRunning false (setResults (runPipeline_result o) s).

(** [handleFileChange] once a file is chosen, up to its [fetch]. *)
Definition handleFileChange_start (s : State) : State :=
  setUploadError None (setIsUploading true s).

(** [handleFileChange] from the end of the upload on: the metadata, or the
    message of the error caught. *)
Definition handleFileChange_finish (r : string + DatasetMetadata) (s : State)
  : State :=
  setIsUploading false
    match r with
    | inr md => setDatasetMetadata (Some md) s
    | inl m => setDatasetMetadata None (setUploadError (Some m) s)
    end.

(** The Change button of step 1. *)
Definition changeDataset (s : State) : State :=
  setSelectedModel None
    (setPreprocessingSteps [] (setDatasetMetadata None s)).

(** ** The component in time

    Besides its state the running component has the [handleNext] calls that
    wait for their request: each still holds the step its click saw. *)
Record World : Type := {
  ui : State;
  waiting : list Z
}.

Inductive Event : Type :=
| ClickNext
| ClickBack
| ClickStartOver
| ClickAdd (t : PreprocessingType) (random_id : string)
| ClickRemove (i : string)
| UpdatePreprocessingParam (i param : string) (value : Value)
| ClickModel (t : ModelType)
| UpdateModelParam (param : string) (value : Value)
| Slide (value : string)
| ClickChange
| ChooseFile
| UploadEnds (r : string + DatasetMetadata)
| RunEnds (k : nat) (o : Outcome (option PipelineResult)).

Definition start : World := {| ui := initial; waiting := [] |}.

(** Removes the [k]-th element. *)
Fixpoint remove_nth {A} (k : nat) (l : list A) : list A :=
  match k, l with
  | _, [] => []
  | O, _ :: r => r
  | S k', a :: r => a :: remove_nth k' r
  end.

(** [handleNext] up to its [await]: on step 4 it runs the pipeline and, if
    a request went out, waits for it; otherwise it goes on at once. *)
Definition handleNext_start (w : World) : World * list RunRequest :=
  let s := ui w in
  let seen := currentStep s in
  if seen =? 4 then
    match runPipeline_start s with
    | (s', Some request) =>
        ({| ui := s'; waiting := waiting w ++ [seen] |}, [request])
    | (s', None) => ({| ui := advance seen s'; waiting := waiting w |}, [])
    end
  else ({| ui := advance seen s; waiting := waiting w |}, []).

(** The [k]-th waiting [handleNext] resumes with the end of its request. *)
Definition handleNext_resume (k : nat) (o : Outcome (option PipelineResult))
    (w : World) : World :=
  match nth_error (waiting w) k with
  | Some seen =>
      {| ui := advance seen (runPipeline_finish o (ui w));
         waiting := remove_nth k (waiting w) |}
  | None => w
  end.

Definition on_ui (f : State -> State) (w : World) : World * list RunRequest :=
  ({| ui := f (ui w); waiting := waiting w |}, []).

(** What an event does, and the requests it sends. *)
Definition dispatch (w : World) (e : Event) : World * list RunRequest :=
  match e with
  | ClickNext => handleNext_start w
  | ClickBack => on_ui handleBack w
  | ClickStartOver => on_ui (setCurrentStep 1) w
  | ClickAdd t random_id => on_ui (addPreprocessingStep t random_id) w
  | ClickRemove i => on_ui (removePreprocessingStep i) w
  | UpdatePreprocessingParam i param value =>
      on_ui (updatePreprocessingParam i param value) w
  | ClickModel t => on_ui (selectModel t) w
  | UpdateModelParam param value => on_ui (updateModelParam param value) w
  | Slide value => on_ui (setTestSize (parseFloat value)) w
  | ClickChange => on_ui changeDataset w
  | ChooseFile => on_ui handleFileChange_start w
  | UploadEnds r => on_ui (handleFileChange_finish r) w
  | RunEnds k o => (handleNext_resume k o w, [])
  end.

(** A sequence of events from a world on: the world reached and every
    request sent, in order. *)
Fixpoint run (w : World) (events : list Event) : World * list RunRequest :=
  match events with
  | [] => (w, [])
  | e :: more =>
      let (w1, sent1) := dispatch w e in
      let (w2, sent2) := run w1 more in
      (w2, sent1 ++ sent2)
  end.

(** The wizard controls (lines 452-456). *)
Record Controls : Type := {
  back_disabled : bool;
  next_button : option (bool * string);    (* disabled, caption *)
  start_over_button : bool
}.

Definition is_some {A} (o : option A) : bool :=
  match o with Some _ => true | None => false end.

Definition controls (s : State) : Controls :=
  let c := currentStep s in
  {| back_disabled := (c =? 1) || isRunning s;
     next_button :=
       if c <? 5 then
         Some (isRunning s
               || ((c =? 1) && negb (is_some (datasetMetadata s)))
               || ((c =? 4) && negb (is_some (selectedModel s))),
               if c =? 4 then "Run Training" else "Next")
       else None;
     start_over_button := c =? 5 |}.

(** ** Step 1: the data preview table (lines 219-241) *)

Record Table : Type := {
  header : list string;            (* the th cells *)
  body : list (list string)        (* the td cells, row by row *)
}.

(** [val?.toString() ?? '']. *)
Definition cell (val : Value) : Result string :=
  match val with
  | Undefined | Null => Ok ""
  | _ => to_str val
  end.

(** [preview && preview.length > 0 && <table>]: no table for no row.  The
    header is [Object.keys] of the first row and each body row
    [Object.values] of its row: the keys, and the values, as the object
    enumerates them. *)
Definition previewTable (md : DatasetMetadata) : Result (option Table) :=
  match preview md with
  | [] => Ok None
  | first :: _ =>
      let* body := traverse (fun row => traverse cell (values row))
                            (preview md) in
      Ok (Some {| header := keys first; body := body |})
  end.

(** ** Step 1: the correlation heatmap (lines 269-288) *)

Record HeatCell : Type := {
  shade : Number;       (* the opacity, [Math.abs(val)] *)
  white : bool;         (* white text, [Math.abs(val) > 0.5] *)
  shown : string        (* [val.toFixed(1)] *)
}.

Inductive Heatmap : Type :=
| TooManyFeatures                               (* "Too many features." *)
| Grid (grid_columns : nat) (cells : list HeatCell).

Definition heatCell (val : Number) : HeatCell :=
  {| shade := JS.abs val;
     white := gt (JS.abs val) (lit "0.5");
     shown := toFixed 1 val |}.

(** [correlations && ...]: the section, when the metadata has the field. *)
Definition correlationHeatmap (md : DatasetMetadata) : option Heatmap :=
  match correlations md with
  | None => None
  | Some c =>
      let n := List.length (Correlations.labels c) in
      Some (if (8 <? n)%nat then TooManyFeatures
            else Grid n (map heatCell (List.concat (Correlations.data c))))
  end.

(** ** Step 5: the results (lines 383-449) *)

(** [v && <section>]: the section when [v] is truthy, else what React
    makes of [v] itself as a child (nothing, or the text of a 0 or NaN). *)
Inductive Guarded (A : Type) : Type :=
| Rendered (section : A)
| Skipped (residue : list string).
Arguments Rendered {A} section.
Arguments Skipped {A} residue.

Definition is_rendered {A} (g : Guarded A) : bool :=
  match g with Rendered _ => true | Skipped _ => false end.

Definition guarded {A} (v : Value) (section : Result A) : Result (Guarded A) :=
  if truthy v then
    let* sec := section in Ok (Rendered sec)
  else
    let* residue := react_child v in Ok (Skipped residue).

Record FeatureBar : Type := {
  feature : list string;    (* [{feat.feature}] *)
  importance : Number;      (* the bar is importance / maxVal * 100 % wide *)
  maxVal : Number;
  value_shown : string      (* [feat.importance.toFixed(3)] *)
}.

Record MatrixCell : Type := {
  content : list string;    (* [{val}] *)
  diagonal : bool           (* [rIdx === cIdx] *)
}.

Record Success : Type := {
  explanation : Guarded Explanation.t;
  accuracy_card : list string;
  train_samples_card : list string;
  test_samples_card : list string;
  feature_importance : Guarded (list FeatureBar);
  confusion_matrix : Guarded (list (list MatrixCell));
  download_button : bool
}.

Inductive Results : Type :=
| Training                                          (* the spinner *)
| NoResults
| Succeeded (sections : Success) (log_lines : list string)
| Failed (error_message : string) (log_lines : list string).

(** [<ResultExplanation accuracy={v} />]: [replace] is a method of strings
    alone. *)
Definition explanationOf (v : Value) : Result Explanation.t :=
  match v with
  | Str accuracy => Ok (ResultExplanation accuracy)
  | _ => Throw
  end.

(** [f(...xs)]: the elements of [xs] become the arguments of one call.  An
    engine takes so many arguments and throws a RangeError at more; the
    bound, [limit], is the engine's own and the language sets none. *)
Definition spread {A} (limit : N) (xs : list A) : Result (list A) :=
  if (N.of_nat (List.length xs) <=? limit)%N then Ok xs else Throw.

(** [Math.max(...all.map((f) => f.importance))]. *)
Definition maxImportance (limit : N) (all : list Value) : Result Number :=
  let* importances := traverse (prop "importance") all in
  let* args := spread limit importances in
  let* numbers := traverse to_number args in
  Ok (JS.max numbers).

(** One bar of the chart; [all] is the whole list. *)
Definition featureBar (limit : N) (all : list Value) (feat : Value)
  : Result FeatureBar :=
  let* maxVal := maxImportance limit all in
  let* name := prop "feature" feat in
  let* imp := prop "importance" feat in
  let* shown_name := react_child name in
  match imp with
  | Num n =>
      Ok {| feature := shown_name;
            importance := n;
            maxVal := maxVal;
            value_shown := toFixed 3 n |}
  | _ => Throw               (* [toFixed] is a method of numbers alone *)
  end.

(** [feature_importance.slice(0, 10).map(...)]: an array has both methods,
    a string the first only, other values neither. *)
Definition featureBars (limit : N) (v : Value) : Result (list FeatureBar) :=
  match v with
  | Arr all => traverse (featureBar limit all) (firstn 10 all)
  | _ => Throw
  end.

(** [confusion_matrix.map((row, rIdx) => row.map((val, cIdx) => ...))]. *)
Definition matrixCells (v : Value) : Result (list (list MatrixCell)) :=
  match v with
  | Arr rows_ =>
      traverse_indexed
        (fun rIdx row =>
           match row with
           | Arr vals =>
               traverse_indexed
                 (fun cIdx val =>
                    let* c := react_child val in
                    Ok {| content := c; diagonal := (rIdx =? cIdx)%nat |})
                 0%nat vals
           | _ => Throw
           end)
        0%nat rows_
  | _ => Throw
  end.

Definition successView (limit : N) (r : PipelineResult) : Result Success :=
  let m := metrics r in
  let* explanation :=
    guarded (lookup "Accuracy" m) (explanationOf (lookup "Accuracy" m)) in
  let* accuracy := react_child (lookup "Accuracy" m) in
  let* train := react_child (lookup "train_samples" m) in
  let* test := react_child (lookup "test_samples" m) in
  let* bars :=
    guarded (lookup "feature_importance" m)
            (featureBars limit (lookup "feature_importance" m)) in
  let* matrix :=
    guarded (lookup "confusion_matrix" m)
            (matrixCells (lookup "confusion_matrix" m)) in
  Ok {| explanation := explanation;
        accuracy_card := accuracy;
        train_samples_card := train;
        test_samples_card := test;
        feature_importance := bars;
        confusion_matrix := matrix;
        download_button :=
          match model_path r with
          | Some path => negb (String.eqb path "")
          | None => false
          end |}.

(** The content of step 5, in an engine that takes [limit] arguments. *)
Definition resultsView (limit : N) (s : State) : Result Results :=
  if isRunning s then Ok Training
  else
    match results s with
    | None => Ok NoResults
    | Some r =>
        if success r then
          let* sections := successView limit r in
          Ok (Succeeded sections (logs r))
        else Ok (Failed (message r) (logs r))
    end.

(** What the step content shows of the results: step 5 alone has them. *)
Definition stepContent (limit : N) (s : State) : Result (option Results) :=
  if currentStep s =? 5 then
    let* v := resultsView limit s in Ok (Some v)
  else Ok None.

(** ** More of the component *)

(** *** Arithmetic on numbers

    The result of an operation on finite numbers is the exact result
    rounded to binary64; a zero is taken to be the positive one. *)

Definition num_neg (x : Number) : Number :=
  match x with
  | NaN => NaN
  | Infinity => NegInfinity
  | NegInfinity => Infinity
  | Fin q => fin (Qopp q)
  end.

(** [x + y]. *)
Definition num_add (x y : Number) : Number :=
  match x, y with
  | NaN, _ | _, NaN => NaN
  | Infinity, NegInfinity | NegInfinity, Infinity => NaN
  | Infinity, _ | _, Infinity => Infinity
  | NegInfinity, _ | _, NegInfinity => NegInfinity
  | Fin a, Fin b => round64 (Qred (a + b))
  end.

(** [x - y]. *)
Definition num_sub (x y : Number) : Number := num_add x (num_neg y).

(** The sign of a number that is not NaN: [true] for a negative one. *)
Definition negative (x : Number) : bool :=
  match x with
  | NegInfinity => true
  | Fin q => negb (Qle_bool 0 q)
  | _ => false
  end.

Definition is_zero (x : Number) : bool :=
  match x with
  | Fin q => Qeq_bool q 0
  | _ => false
  end.

Definition signed_infinity (neg : bool) : Number :=
  if neg then NegInfinity else Infinity.

(** [x * y]. *)
Definition num_mul (x y : Number) : Number :=
  match x, y with
  | NaN, _ | _, NaN => NaN
  | Fin a, Fin b => round64 (Qred (a * b))
  | _, _ =>
      if is_zero x || is_zero y then NaN
      else signed_infinity (xorb (negative x) (negative y))
  end.

(** [x / y]. *)
Definition num_div (x y : Number) : Number :=
  match x, y with
  | NaN, _ | _, NaN => NaN
  | (Infinity | NegInfinity), (Infinity | NegInfinity) => NaN
  | (Infinity | NegInfinity), Fin _ =>
      signed_infinity (xorb (negative x) (negative y))
  | Fin _, (Infinity | NegInfinity) => Fin 0
  | Fin a, Fin b =>
      if Qeq_bool b 0 then
        if Qeq_bool a 0 then NaN else signed_infinity (negative x)
      else round64 (Qred (a / b))
  end.

(** One step of [Math.min]. *)
Definition min2 (x y : Number) : Number :=
  match x, y with
  | NaN, _ | _, NaN => NaN
  | _, _ => if lt y x then y else x
  end.

(** [Math.min] of the arguments [xs], which is [Infinity] for none. *)
Definition math_min (xs : list Number) : Number := fold_left min2 xs Infinity.

(** [Math.round(x)]: the nearest integer, a tie upwards. *)
Definition math_round (x : Number) : Number :=
  match x with
  | Fin q => of_Z (round_half_up q)
  | _ => x
  end.

(** ToInt32. *)
Definition toInt32 (x : Number) : Z :=
  match x with
  | Fin q =>
      let m := (Z.quot (Qnum q) (Zpos (Qden q))) mod 2 ^ 32 in
      if 2 ^ 31 <=? m then m - 2 ^ 32 else m
  | _ => 0
  end.

(** [x << k] for [0 <= k < 32]. *)
Definition shl (x : Number) (k : Z) : Number :=
  of_Z (toInt32 (of_Z (toInt32 x * 2 ^ k))).

(** *** Strings, again *)

Definition hex_digit (d : Z) : ascii :=
  ascii_of_nat (Z.to_nat (if d <? 10 then 48 + d else 87 + d)).

Fixpoint hex_from (fuel : nat) (n : Z) (acc : string) : string :=
  match fuel with
  | O => acc
  | S fuel' =>
      let acc' := String (hex_digit (n mod 16)) acc in
      if n <? 16 then acc' else hex_from fuel' (n / 16) acc'
  end.

(** [n.toString(16)] for an integer [n >= 0]. *)
Definition to_hex (n : Z) : string :=
  hex_from (S (Z.to_nat (Z.log2 n))) n "".

Definition upper (c : ascii) : ascii :=
  let n := byte c in
  if (97 <=? n) && (n <=? 122) then ascii_of_nat (Z.to_nat (n - 32)) else c.

(** [s.toUpperCase()] for a string of ASCII characters. *)
Definition toUpperCase (s : string) : string := text (map upper (chars s)).

Definition continuation (b : Z) : bool := (128 <=? b) && (b <=? 191).

(** The UTF-16 code units of a code point. *)
Definition utf16 (cp : Z) : list Z :=
  if cp <? 65536 then [cp]
  else [55296 + (cp - 65536) / 1024; 56320 + (cp - 65536) mod 1024].

(** The code units of a string given by its UTF-8 bytes; what is no
    well-formed sequence gives U+FFFD, as in the decoding of a response. *)
Fixpoint code_units (cs : list ascii) : list Z :=
  match cs with
  | [] => []
  | c1 :: r1 =>
      let b1 := byte c1 in
      if b1 <? 128 then b1 :: code_units r1
      else if (194 <=? b1) && (b1 <=? 223) then
        match r1 with
        | c2 :: r2 =>
            if continuation (byte c2)
            then ((b1 - 192) * 64 + (byte c2 - 128)) :: code_units r2
            else 65533 :: code_units r1
        | [] => [65533]
        end
      else if (224 <=? b1) && (b1 <=? 239) then
        match r1 with
        | c2 :: r2 =>
            let b2 := byte c2 in
            if ((if b1 =? 224 then 160 else 128) <=? b2)
               && (b2 <=? (if b1 =? 237 then 159 else 191))
            then
              match r2 with
              | c3 :: r3 =>
                  if continuation (byte c3)
                  then ((b1 - 224) * 4096 + (b2 - 128) * 64
                        + (byte c3 - 128)) :: code_units r3
                  else 65533 :: code_units r2
              | [] => [65533]
              end
            else 65533 :: code_units r1
        | [] => [65533]
        end
      else if (240 <=? b1) && (b1 <=? 244) then
        match r1 with
        | c2 :: r2 =>
            let b2 := byte c2 in
            if ((if b1 =? 240 then 144 else 128) <=? b2)
               && (b2 <=? (if b1 =? 244 then 143 else 191))
            then
              match r2 with
              | c3 :: r3 =>
                  if continuation (byte c3) then
                    match r3 with
                    | c4 :: r4 =>
                        if continuation (byte c4)
                        then utf16 ((b1 - 240) * 262144 + (b2 - 128) * 4096
                                    + (byte c3 - 128) * 64 + (byte c4 - 128))
                             ++ code_units r4
                        else 65533 :: code_units r3
                    | [] => [65533]
                    end
                  else 65533 :: code_units r2
              | [] => [65533]
              end
            else 65533 :: code_units r1
        | [] => [65533]
        end
      else 65533 :: code_units r1
  end.

(** *** getColor (lines 301-306), on the code units of [str] *)

Definition getColor_units (str : list Z) : string :=
  let hash :=
    fold_left
      (fun hash c => num_add (of_Z c) (num_sub (shl hash 5) hash))
      str (of_Z 0) in
  (* [hash & 0x00FFFFFF], an integer from 0 to 0xFFFFFF *)
  let masked := Z.land (toInt32 hash) 16777215 in
  let c := toUpperCase (to_hex masked) in
  "#" +++ take (6 - strlen c) "00000" +++ c.

Definition getColor (str : string) : string :=
  getColor_units (code_units (chars str)).

(** *** Step 1: the target distribution (lines 246-267) *)

Record DistributionBar : Type := {
  class_label : string;
  bar_width : Number;          (* per cent: count / max * 100 *)
  class_count : Number
}.

(** The bars drawn, one for each entry of the distribution in its order,
    when the calls of [Math.max] return: the counts are spread into them
    (see [spread]). *)
Definition distributionBars (d : Distributions.t) : list DistributionBar :=
  map (fun entry =>
         let max := JS.max (map snd (Distributions.data d)) in
         {| class_label := fst entry;
            bar_width := num_mul (num_div (snd entry) max) (lit "100");
            class_count := snd entry |})
      (Distributions.data d).

(** *** Step 1: the scatter plot (lines 291-316) *)

Record Dot : Type := {
  dot_left : Number;           (* per cent *)
  dot_bottom : Number;         (* per cent *)
  dot_background : string;
  dot_title : string
}.

(** The dots drawn, one for each point in its order, when the calls of
    [Math.min] and [Math.max] return: the coordinates are spread into them
    (see [spread]). *)
Definition scatterDots (points : list ScatterPoint.t) : list Dot :=
  let xVals := map ScatterPoint.x points in
  let yVals := map ScatterPoint.y points in
  let minX := math_min xVals in
  let maxX := JS.max xVals in
  let minY := math_min yVals in
  let maxY := JS.max yVals in
  map (fun p =>
         {| dot_left :=
              num_mul (num_div (num_sub (ScatterPoint.x p) minX)
                               (num_sub maxX minX)) (lit "95");
            dot_bottom :=
              num_mul (num_div (num_sub (ScatterPoint.y p) minY)
                               (num_sub maxY minY)) (lit "95");
            dot_background := getColor (ScatterPoint.class p);
            dot_title := "Class: " +++ ScatterPoint.class p |})
      points.

(** [scatter_data && scatter_data.length > 0 && ...]. *)
Definition scatterPlot (md : DatasetMetadata) : option (list Dot) :=
  match scatter_data md with
  | Some (p :: more) => Some (scatterDots (p :: more))
  | _ => None
  end.

(** *** Step 3: the shares shown (lines 352-353) *)

(** [Math.round((1 - testSize) * 100)] and [Math.round(testSize * 100)]. *)
Definition shares (s : State) : Number * Number :=
  (math_round (num_mul (num_sub (lit "1") (testSize s)) (lit "100")),
   math_round (num_mul (testSize s) (lit "100"))).

(** *** Step 5: the width of a feature bar (line 411) *)

(** [(feat.importance / maxVal) * 100], per cent. *)
Definition barWidth (b : FeatureBar) : Number :=
  num_mul (num_div (importance b) (maxVal b)) (lit "100").

(** *** The step indicator (lines 186-193) *)

Record IndicatorItem : Type := {
  badge : Z;
  caption : string;
  active : bool;           (* [currentStep === step.id] *)
  completed : bool         (* [currentStep > step.id] *)
}.

Definition stepIndicator (s : State) : list IndicatorItem :=
  map (fun step =>
         {| badge := number step;
            caption := title step;
            active := currentStep s =? number step;
            completed := number step <? currentStep s |})
      WIZARD_STEPS.

(** *** downloadModel (lines 5 and 182) *)

(** [process.env.NEXT_PUBLIC_API_URL || '']. *)
Definition API_BASE (NEXT_PUBLIC_API_URL : option string) : string :=
  match NEXT_PUBLIC_API_URL with
  | Some url => url
  | None => ""
  end.

(** The address [downloadModel] opens, if it opens one. *)
Definition downloadModel (base : string) (s : State) : option string :=
  match results s with
  | Some r =>
      match model_path r with
      | Some path =>
          if String.eqb path "" then None
          else Some (base +++ "/api/download/" +++ path)
      | None => None
      end
  | None => None
  end.

(** *** What the rendered wizard lets happen

    The events the elements on screen can raise in a world with [uploads]
    uploads under way.  The two parameter updates have no element. *)
Definition offered (uploads : nat) (w : World) (e : Event) : bool :=
  let s := ui w in
  let c := currentStep s in
  match e with
  | ClickNext =>
      match next_button (controls s) with
      | Some (disabled, _) => negb disabled
      | None => false
      end
  | ClickBack => negb (back_disabled (controls s))
  | ClickStartOver => start_over_button (controls s)
  | ClickAdd _ _ => c =? 2
  | ClickRemove i =>
      (c =? 2)
      && existsb (fun st => String.eqb (id st) i) (preprocessingSteps s)
  | UpdatePreprocessingParam _ _ _ => false
  | ClickModel _ => c =? 4
  | UpdateModelParam _ _ => false
  | Slide _ => c =? 3
  | ClickChange => (c =? 1) && is_some (datasetMetadata s)
  | ChooseFile =>
      (c =? 1) && negb (is_some (datasetMetadata s)) && negb (isUploading s)
  | UploadEnds _ => (0 <? uploads)%nat
  | RunEnds k _ => (k <? List.length (waiting w))%nat
  end.

Definition uploads_after (uploads : nat) (e : Event) : nat :=
  match e with
  | ChooseFile => S uploads
  | UploadEnds _ => Nat.pred uploads
  | _ => uploads
  end.

(** Whether each event of a sequence is offered when it happens. *)
Fixpoint offered_all (uploads : nat) (w : World) (events : list Event)
  : bool :=
  match events with
  | [] => true
  | e :: more =>
      offered uploads w e
      && offered_all (uploads_after uploads e) (fst (dispatch w e)) more
  end.

(** ** next.config.js *)

Module NextConfig.

Record Rewrite : Type := {
  source : string;
  destination : string
}.

(** [url.replace(/\/$/, '')]: a slash that ends the string goes. *)
Fixpoint strip_trailing_slash (url : string) : string :=
  match url with
  | EmptyString => EmptyString
  | String c EmptyString => if Ascii.eqb c "/" then EmptyString else url
  | String c rest => String c (strip_trailing_slash rest)
  end.

Definition backendUrl (BACKEND_URL : option string) : string :=
  let url :=
    match BACKEND_URL with
    | Some u => if String.eqb u "" then "http://127.0.0.1:8000" else u
    | None => "http://127.0.0.1:8000"
    end in
  let url := if String.prefix "http" url then url else "http://" +++ url in
  strip_trailing_slash url.

Definition rewrites (BACKEND_URL : option string) : list Rewrite :=
  [ {| source := "/api/:path*";
       destination := backendUrl BACKEND_URL +++ "/api/:path*" |} ].

End NextConfig.

(** ** Notions the properties are stated with *)

(** The kind a template's category stands for. *)
Definition declaredKind (c : Category) : Kind :=
  match c with
  | preprocessing => PreprocessingKind
  | model => ModelKind
  end.

Definition Kind_eqb (a b : Kind) : bool :=
  match a, b with
  | PreprocessingKind, PreprocessingKind
  | SplitKind, SplitKind
  | ModelKind, ModelKind => true
  | _, _ => false
  end.

Definition has_kind (k : Kind) (st : PipelineStep) : bool :=
  Kind_eqb (kind (type st)) k.

Definition count_kind (k : Kind) (l : list PipelineStep) : nat :=
  List.length (filter (has_kind k) l).

(** Preprocessing steps, then one split step, then one model step. *)
Definition pipeline_shape (l : list PipelineStep) : Prop :=
  exists pre split selected,
    l = pre ++ [split; selected]
    /\ Forall (fun st => exists t, type st = OfPreprocessing t) pre
    /\ type split = train_test_split
    /\ (exists t, type selected = OfModel t)
    /\ count_kind SplitKind l = 1%nat
    /\ count_kind ModelKind l = 1%nat.

Definition is_slide (e : Event) : bool :=
  match e with Slide _ => true | _ => false end.

Fixpoint split_on (sep : ascii) (cs : list ascii) : list (list ascii) :=
  match cs with
  | [] => [[]]
  | c :: r =>
      if Ascii.eqb c sep then [] :: split_on sep r
      else
        match split_on sep r with
        | part :: parts => (c :: part) :: parts
        | [] => [[c]]
        end
  end.

(** Modelled from the spec: the backend's reading of a min_max_scaler's
    [feature_range], which section 4.4 has parsed from a min,max pair; the
    backend is not among the sources.  Two decimal numbers with a comma
    between them. *)
Definition range_of_pair (s : string) : option (Number * Number) :=
  let decimal cs :=
    match decimal_prefix (trim cs) with
    | Some (l, []) => Some (number_of_literal l)
    | _ => None
    end in
  match split_on "," (chars s) with
  | [a; b] =>
      match decimal a, decimal b with
      | Some lo, Some hi => Some (lo, hi)
      | _, _ => None
      end
  | _ => None
  end.

(** A cell that is absent from its row-map. *)
Definition missing (v : Value) : Prop := v = Undefined \/ v = Null.

(** A number that is not finite. *)
Definition non_finite (v : Value) : Prop :=
  v = Num NaN \/ v = Num Infinity \/ v = Num NegInfinity.

(** The values a tabular frame has in its cells. *)
Definition scalar (v : Value) : bool :=
  match v with
  | Arr _ | Obj _ => false
  | _ => true
  end.

(** The shapes the results view expects of the metrics it reads; a key may
    also be absent or hold [null]. *)
Definition is_number (v : Value) : bool :=
  match v with Num _ => true | _ => false end.

Definition text_or_number (v : Value) : bool :=
  match v with Str _ | Num _ => true | _ => false end.

Definition feature_entry (v : Value) : bool :=
  match v with
  | Obj o => text_or_number (lookup "feature" o)
             && is_number (lookup "importance" o)
  | _ => false
  end.

Definition accuracy_shape (v : Value) : bool :=
  match v with Undefined | Null | Str _ => true | _ => false end.

Definition count_shape (v : Value) : bool :=
  match v with Undefined | Null | Str _ | Num _ => true | _ => false end.

Definition importance_shape (v : Value) : bool :=
  match v with
  | Undefined | Null => true
  | Arr entries => forallb feature_entry entries
  | _ => false
  end.

Definition matrix_shape (v : Value) : bool :=
  match v with
  | Undefined | Null => true
  | Arr rows_ =>
      forallb (fun row => match row with
                          | Arr vals => forallb is_number vals
                          | _ => false
                          end) rows_
  | _ => false
  end.

Definition expected_shapes (m : Object) : bool :=
  accuracy_shape (lookup "Accuracy" m)
  && count_shape (lookup "train_samples" m)
  && count_shape (lookup "test_samples" m)
  && importance_shape (lookup "feature_importance" m)
  && matrix_shape (lookup "confusion_matrix" m).

(** A matrix of [n] rows of [n] values. *)
Definition square {A} (n : nat) (rows_ : list (list A)) : Prop :=
  List.length rows_ = n /\ Forall (fun row => List.length row = n) rows_.

(** The split step as the initial split size makes it. *)
Definition default_split : PipelineStep :=
  {| id := "split";
     type := train_test_split;
     params := [("test_size", Num (lit "0.2"))] |}.

(** A dataset summary as an upload of four rows of iris.csv could give. *)
Definition iris_metadata : DatasetMetadata :=
  {| filename := "iris.csv";
     rows := lit "150";
     columns := lit "5";
     column_names := ["sepal_length"; "sepal_width"; "species"];
     preview :=
       [ [("sepal_length", Num (lit "5.1")); ("sepal_width", Num (lit "3.5"));
          ("species", Str "setosa")];
         [("sepal_length", Num (lit "4.9")); ("sepal_width", Null);
          ("species", Str "setosa")] ];
     distributions := None;
     correlations :=
       Some {| Correlations.labels := ["sepal_length"; "sepal_width"];
               Correlations.data :=
                 [ [lit "1"; lit "-0.12"]; [lit "-0.12"; lit "1"] ] |};
     scatter_data := None |}.

(** The steps a wizard of five steps has. *)
Definition step_in_range (c : Z) : Prop := 1 <= c <= 5.

(** The steps the state holds are of the types their setters take. *)
Definition typed_steps (w : World) : Prop :=
  Forall (fun st => exists t, type st = OfPreprocessing t)
         (preprocessingSteps (ui w))
  /\ (forall m, selectedModel (ui w) = Some m -> exists t, type m = OfModel t).

(** A feature-importance entry [{ feature: name, importance: value }],
    whatever else it holds. *)
Definition entry_of (v : Value) (e : string * Number) : Prop :=
  prop "feature" v = Ok (Str (fst e))
  /\ prop "importance" v = Ok (Num (snd e)).

(** The bar of an entry, [top] being the value the bars are scaled by. *)
Definition bar_of (top : Number) (e : string * Number) : FeatureBar :=
  {| feature := if String.eqb (fst e) "" then [] else [fst e];
     importance := snd e;
     maxVal := top;
     value_shown := toFixed 3 (snd e) |}.

(** Twelve entries, in no order; the greatest importance is the last. *)
Definition twelve_entries : list (string * Number) :=
  [ ("f1", lit "0.05"); ("f2", lit "0.1"); ("f3", lit "0.02");
    ("f4", lit "0.03"); ("f5", lit "0.04"); ("f6", lit "0.06");
    ("f7", lit "0.07"); ("f8", lit "0.08"); ("f9", lit "0.09");
    ("f10", lit "0.01"); ("f11", lit "0.05"); ("f12", lit "0.4") ].

Definition entry_value (e : string * Number) : Value :=
  Obj [("feature", Str (fst e)); ("importance", Num (snd e))].

(** A successful result of a model that reports no feature importance. *)
Definition result_without_importance : PipelineResult :=
  {| success := true;
     message := "Pipeline executed successfully";
     metrics := [ ("Accuracy", Str "93.33%");
                  ("train_samples", Num (lit "120"));
                  ("test_samples", Num (lit "30"));
                  ("feature_importance", Null) ];
     logs := ["Loaded dataset"; "Split data"; "Trained model"];
     model_path := Some "model_1.pkl" |}.

(** A successful result with the sample counts and nothing else. *)
Definition result_with_counts_only : PipelineResult :=
  {| success := true;
     message := "Pipeline executed successfully";
     metrics := [ ("train_samples", Num (lit "120"));
                  ("test_samples", Num (lit "30")) ];
     logs := ["Loaded dataset"; "Split data"; "Trained model"];
     model_path := None |}.

(** A dataset summary with nine correlated features. *)
Definition wide_metadata : DatasetMetadata :=
  {| filename := "wine.csv";
     rows := lit "178";
     columns := lit "10";
     column_names := [];
     preview := [];
     distributions := None;
     correlations :=
       Some {| Correlations.labels :=
                 ["a"; "b"; "c"; "d"; "e"; "f"; "g"; "h"; "i"];
               Correlations.data := repeat (repeat (lit "1") 9) 9 |};
     scatter_data := None |}.

(** What the offered events keep true of a world with [uploads] uploads
    under way. *)
Definition wizard_invariant (uploads : nat) (w : World) : Prop :=
  let s := ui w in
  step_in_range (currentStep s)
  /\ (waiting w = [] /\ isRunning s = false
      \/ waiting w = [4] /\ isRunning s = true /\ currentStep s = 4)
  /\ (uploads = 0%nat /\ isUploading s = false
      \/ uploads = 1%nat /\ isUploading s = true
         /\ currentStep s = 1 /\ datasetMetadata s = None)
  /\ (2 <= currentStep s -> datasetMetadata s <> None).

(** The uploads under way after a sequence of events. *)
Definition uploads_after_all (uploads : nat) (events : list Event) : nat :=
  fold_left uploads_after events uploads.

(** A session: an upload, a scaler, a split of 0.3, a model, a run that the
    server answers with a result; and the same up to the answer. *)
Definition session_until_run : list Event :=
  [ ChooseFile; UploadEnds (inr iris_metadata); ClickNext;
    ClickAdd standard_scaler "k3j9x0q1z"; ClickNext;
    Slide "0.3"; ClickNext;
    ClickModel logistic_regression; ClickNext ].

Definition whole_session : list Event :=
  session_until_run
  ++ [ RunEnds 0 (Responded true 200 (inr (Some result_with_counts_only))) ].

(** The rank of a grade: the higher, the better. *)
Definition grade_rank (grade : string) : nat :=
  if String.eqb grade "Excellent" then 2
  else if String.eqb grade "Good" then 1
  else 0.

Fixpoint contains (c : ascii) (s : string) : bool :=
  match s with
  | EmptyString => false
  | String a r => Ascii.eqb a c || contains c r
  end.

(** Whether a string ends with a slash, and with two. *)
Fixpoint ends_with_slash (s : string) : bool :=
  match s with
  | EmptyString => false
  | String c EmptyString => Ascii.eqb c "/"
  | String _ r => ends_with_slash r
  end.

Fixpoint ends_with_two_slashes (s : string) : bool :=
  match s with
  | EmptyString => false
  | String c r =>
      match r with
      | String d EmptyString => Ascii.eqb c "/" && Ascii.eqb d "/"
      | _ => ends_with_two_slashes r
      end
  end.

(** A digit of upper-case hexadecimal. *)
Definition upper_hex (c : ascii) : bool :=
  let n := byte c in
  ((48 <=? n) && (n <=? 57)) || ((65 <=? n) && (n <=? 70)).

(** A finite number from [lo] to [hi]. *)
Definition within (lo hi : Q) (x : Number) : Prop :=
  match x with
  | Fin v => (lo <= v <= hi)%Q
  | _ => False
  end.

(** A finite number that is not negative, and one above 0. *)
Definition nonnegative (x : Number) : Prop :=
  match x with
  | Fin v => (0 <= v)%Q
  | _ => False
  end.

Definition above_zero (x : Number) : Prop :=
  match x with
  | Fin v => (0 < v)%Q
  | _ => False
  end.

(** A finite number up to [top]. *)
Definition at_most (top : Q) (x : Number) : Prop :=
  match x with
  | Fin v => (v <= top)%Q
  | _ => False
  end.

Definition at_least (bottom : Q) (x : Number) : Prop :=
  match x with
  | Fin v => (bottom <= v)%Q
  | _ => False
  end.

Definition finite (x : Number) : Prop :=
  match x with
  | Fin _ => True
  | _ => False
  end.

(** The exponent of the last place of a positive real in binary64, and the
    real rounded there: [round64_pos] gives this value, or infinity. *)
Definition last_place (q : Q) : Z := Z.max (floor_log2 q - 52) (-1074).

Definition rounded (q : Q) : Q :=
  ((round_half_even (q / pow2 (last_place q)) # 1) * pow2 (last_place q))%Q.

(** A finite number that is not negative, or infinity. *)
Definition nonnegative_or_infinite (x : Number) : Prop :=
  match x with
  | Fin v => (0 <= v)%Q
  | Infinity => True
  | _ => False
  end.

(** *** The order of an object's keys *)

Definition is_index (key : string) : bool := is_some (array_index key).

(** The array index [key] is, if it is one below [n]. *)
Definition index_below (n : Z) (key : string) : bool :=
  match array_index key with
  | Some m => m <? n
  | None => false
  end.

(** Whether [k1] may come before [k2] when keys are enumerated: a smaller
    array index before a greater one, an array index before another key;
    keys that are no array indices come in either order. *)
Definition precedes (k1 k2 : string) : bool :=
  match array_index k1, array_index k2 with
  | Some a, Some b => a <? b
  | Some _, None => true
  | None, Some _ => false
  | None, None => true
  end.

(** Keys as an object enumerates them: no key twice, the array indices
    first and ascending. *)
Definition enumeration_order (ks : list string) : Prop :=
  NoDup ks /\ StronglySorted (fun k1 k2 => precedes k1 k2 = true) ks.

Definition proper (o : Object) : Prop := enumeration_order (keys o).

(** [cols] is the names [names] as the object made of them enumerates
    them: the same names, the array indices first and ascending, the other
    names in the order they have in [names]. *)
Definition enumerates (names cols : list string) : Prop :=
  enumeration_order cols
  /\ (forall col, In col cols <-> In col names)
  /\ filter (fun col => negb (is_index col)) cols
     = filter (fun col => negb (is_index col)) names.

(** Four columns of a table of sales, two of them named by their year, as
    the rows of a preview have them; and the summary they come in. *)
Definition yearly_rows : list (list (string * Value)) :=
  [ [("region", Str "north"); ("2021", Num (lit "12.5"));
     ("2020", Num (lit "11")); ("notes", Null)];
    [("region", Str "south"); ("2021", Num (lit "7"));
     ("2020", Num Infinity); ("notes", Str "estimate")] ].

Definition yearly_metadata : DatasetMetadata :=
  {| filename := "sales.csv";
     rows := lit "2";
     columns := lit "4";
     column_names := ["region"; "2021"; "2020"; "notes"];
     preview := map object_of yearly_rows;
     distributions := None;
     correlations := None;
     scatter_data := None |}.

(** *** The answers of the server *)

(** Whether the feature list of the metrics, if they have one, is short
    enough to be spread into one call. *)
Definition spread_fits (limit : N) (m : Object) : bool :=
  match lookup "feature_importance" m with
  | Arr all => (N.of_nat (List.length all) <=? limit)%N
  | _ => true
  end.

(** The end of a run whose response is ok and has [null] for its body. *)
Definition null_answer (e : Event) : bool :=
  match e with
  | RunEnds _ (Responded true _ (inr None)) => true
  | _ => false
  end.

(** The state holds the result the [catch] block makes of an error, and
    step 5 shows it. *)
Definition shows_caught (limit : N) (s : State) (error_message : string)
  : Prop :=
  exists r,
    results s = Some r
    /\ success r = false
    /\ message r = "Failed to execute pipeline"
    /\ logs r = ["Error: " +++ error_message]
    /\ stepContent limit s = Ok (Some (Failed (message r) (logs r))).

(** A failure as the server reports one. *)
Definition reported_failure : PipelineResult :=
  {| success := false;
     message := "Column 'species' not found";
     metrics := [];
     logs := ["Loaded dataset"; "Applied standard_scaler"];
     model_path := None |}.

(** The class counts of a data set, with a class that has no rows. *)
Definition sample_distribution : Distributions.t :=
  {| Distributions.target_column := "species";
     Distributions.data :=
       [("setosa", lit "50"); ("versicolor", lit "30"); ("virginica", lit "0")] |}.

(** Two points that share their ordinate. *)
Definition sample_points : list ScatterPoint.t :=
  [ {| ScatterPoint.x := lit "1"; ScatterPoint.y := lit "2";
       ScatterPoint.class := "setosa" |};
    {| ScatterPoint.x := lit "3"; ScatterPoint.y := lit "2";
       ScatterPoint.class := "versicolor" |} ].

Arguments lit : simpl never.

(** * Properties *)

(** ** The built-ins at work *)

Example parseFloat_samples :
  map parseFloat ["96.67"; "  -12.5e1abc"; ".5"; "5."; "1e+"; "-Infinityx";
                  "abc"; "."; ""; "89.99999999999999999"]
  = [round64 (9667 # 100); Fin (-125); Fin (1 # 2); Fin 5; Fin 1; NegInfinity;
     NaN; NaN; NaN; Fin 90].
Proof. vm_compute. reflexivity. Qed.

Example string_to_number_samples :
  map string_to_number [""; " 12 "; "12px"; "0x1F"; "0b102"; "-0x1"; "1e3"]
  = [Fin 0; Fin 12; NaN; Fin 31; NaN; NaN; Fin 1000].
Proof. vm_compute. reflexivity. Qed.

Example round64_samples :
  round64 (1 # 10) = Fin (3602879701896397 # 36028797018963968)
  /\ round64 (pow10 23) = Fin 99999999999999991611392
  /\ round64 (9007199254740993 # 1) = Fin 9007199254740992
  /\ round64 (pow10 309) = Infinity
  /\ round64 (pow10 (-400)) = Fin 0.
Proof. vm_compute. repeat split. Qed.

Example to_string_samples :
  map (fun s => to_string (lit s))
      ["0.1"; "96.67"; "1e21"; "1e23"; "123456789012345680000"; "1e-7";
       "0.000001"; "-12.5"; "5e-324"; "1.7976931348623157e308";
       "0.30000000000000004"]
  = ["0.1"; "96.67"; "1e+21"; "1e+23"; "123456789012345680000"; "1e-7";
     "0.000001"; "-12.5"; "5e-324"; "1.7976931348623157e+308";
     "0.30000000000000004"].
Proof. vm_compute. reflexivity. Qed.

Example toFixed_samples :
  map (fun s => toFixed 2 (lit s)) ["1.005"; "8.345"; "0.5"; "1e21"]
  = ["1.00"; "8.35"; "0.50"; "1e+21"]
  /\ map (fun s => toFixed 1 (lit s)) ["-0.04"; "0.25"; "0.35"; "1"]
     = ["-0.0"; "0.3"; "0.3"; "1.0"]
  /\ map (fun s => toFixed 3 (lit s)) ["1.0005"; "0.0005"; "0.12345"]
     = ["1.000"; "0.001"; "0.123"].
Proof. vm_compute. repeat split. Qed.

Example to_str_samples :
  to_str (Arr [Num (lit "1"); Null; Arr [Str "a"; Undefined]; Obj []; Bool true])
  = Ok "1,,a,,[object Object],true"
  /\ to_number (Arr [Str "5"]) = Ok (Fin 5)
  /\ to_number (Obj []) = Ok NaN
  /\ react_child (Arr [Num (lit "1"); Null; Str ""; Str "a"; Bool true])
     = Ok ["1"; "a"]
  /\ react_child (Arr [Obj []]) = Throw.
Proof. vm_compute. repeat split. Qed.

Example controls_at_start :
  controls initial
  = {| back_disabled := true;
       next_button := Some (true, "Next");
       start_over_button := false |}.
Proof. reflexivity. Qed.

(** ** Step types and templates *)

(** C3, as stated, fails: were each template's category to agree with the
    kind of its step type, the train_test_split template would declare a
    split; it declares 'preprocessing'. *)
Lemma C3_split_template_declares_preprocessing :
  ~ (forall t : StepType,
       declaredKind (category (STEP_TEMPLATES t)) = kind t).
Proof.
  intro H. specialize (H train_test_split). discriminate H.
Qed.

(** C3, amended: the step types are the six named ones, each of exactly
    one of three kinds - preprocessing (standard_scaler, min_max_scaler,
    drop_nulls), split (train_test_split), model (logistic_regression,
    decision_tree_classifier).  A template declares one of two categories:
    'model' for the model types and them alone, 'preprocessing' for the
    preprocessing types and for train_test_split. *)
Theorem C3_step_kinds_and_template_categories :
  (forall t : StepType, In t all_step_types)
  /\ NoDup (map tag all_step_types)
  /\ (forall t : StepType,
        (kind t = PreprocessingKind
         /\ In (tag t) ["standard_scaler"; "min_max_scaler"; "drop_nulls"])
        \/ (kind t = SplitKind /\ tag t = "train_test_split")
        \/ (kind t = ModelKind
            /\ In (tag t) ["logistic_regression"; "decision_tree_classifier"]))
  /\ (forall t : StepType,
        category (STEP_TEMPLATES t) =
        match kind t with
        | ModelKind => model
        | PreprocessingKind | SplitKind => preprocessing
        end)
  /\ declaredKind (category (STEP_TEMPLATES train_test_split))
     = PreprocessingKind.
Proof.
  split; [| split; [| split; [| split]]].
  - intros [[]| |[]]; simpl; tauto.
  - simpl. repeat constructor; simpl; intuition discriminate.
  - intros [[]| |[]]; simpl; tauto.
  - intros [[]| |[]]; reflexivity.
  - reflexivity.
Qed.

(** ** Runs of the component *)

Section Runs.
(** What holds of the worlds and of the requests of every run, given
    that each allowed event keeps it. *)
Variable allowed : Event -> bool.
Variable Inv : World -> Prop.
Variable Sent : RunRequest -> Prop.
Hypothesis kept :
  forall w e, allowed e = true -> Inv w ->
              Inv (fst (dispatch w e)) /\ Forall Sent (snd (dispatch w e)).

Lemma run_keeps (events : list Event) :
  forall w, forallb allowed events = true -> Inv w ->
            Inv (fst (run w events)) /\ Forall Sent (snd (run w events)).
Proof.
  induction events as [| e more IH]; intros w Hadm Hw; simpl.
  - split; [assumption | constructor].
  - simpl in Hadm. apply andb_true_iff in Hadm as [He Hmore].
    destruct (kept w e He Hw) as [Hw1 Hsent1].
    destruct (dispatch w e) as [w1 sent1]; simpl in *.
    destruct (IH w1 Hmore Hw1) as [Hw2 Hsent2].
    destruct (run w1 more) as [w2 sent2]; simpl in *.
    split; [assumption | apply Forall_app; split; assumption].
Qed.
End Runs.

Lemma forallb_any {A} (l : list A) : forallb (fun _ => true) l = true.
Proof. induction l; simpl; auto. Qed.

(** [advance] touches the current step alone. *)
Lemma advance_rest (seen : Z) (s : State) :
  preprocessingSteps (advance seen s) = preprocessingSteps s
  /\ testSize (advance seen s) = testSize s
  /\ selectedModel (advance seen s) = selectedModel s
  /\ isRunning (advance seen s) = isRunning s
  /\ results (advance seen s) = results s.
Proof. unfold advance. destruct (_ <? _); simpl; auto. Qed.

(** ** Default parameters *)

(** C4: the train_test_split template's default and the initial split
    size are both 0.2, so the split step of every request sent before the
    slider is moved carries test_size = 0.2; a newly added min_max_scaler
    step carries feature_range = '0,1', the min,max pair of the range
    [0, 1]. *)
Theorem C4_default_parameters :
  lookup "test_size" (defaultParams (STEP_TEMPLATES train_test_split))
    = Num (lit "0.2")
  /\ testSize initial = lit "0.2"
  /\ (forall events,
        forallb (fun e => negb (is_slide e)) events = true ->
        Forall (fun request =>
                  exists pre selected,
                    steps request = pre ++ [default_split; selected])
               (snd (run start events)))
  /\ (forall random_id s,
        preprocessingSteps (addPreprocessingStep min_max_scaler random_id s)
        = preprocessingSteps s ++
          [ {| id := random_id;
               type := OfPreprocessing min_max_scaler;
               params := [("feature_range", Str "0,1")] |} ])
  /\ range_of_pair "0,1" = Some (lit "0", lit "1").
Proof.
  split; [reflexivity |].
  split; [reflexivity |].
  split; [| split; [reflexivity | vm_compute; reflexivity]].
  intros events Hadm.
  apply (run_keeps (fun e => negb (is_slide e))
                   (fun w => testSize (ui w) = lit "0.2")
                   (fun request =>
                      exists pre selected,
                        steps request = pre ++ [default_split; selected]));
    [| assumption | reflexivity].
  clear. intros [s pend] e He Hs; simpl in Hs.
  destruct e; try discriminate He; simpl;
    try (split; [assumption | constructor]).
  - (* handleNext *)
    unfold handleNext_start, runPipeline_start; simpl.
    destruct (currentStep s =? 4).
    + destruct (selectedModel s) as [selected |]; simpl.
      * split; [assumption |].
        constructor; [| constructor].
        exists (preprocessingSteps s), selected.
        unfold fullSteps, splitStep, default_split. simpl. rewrite Hs.
        reflexivity.
      * split; [| constructor].
        destruct (advance_rest (currentStep s) s) as (_ & -> & _). assumption.
    + simpl. split; [| constructor].
      destruct (advance_rest (currentStep s) s) as (_ & -> & _). assumption.
  - (* handleBack *)
    unfold handleBack. destruct (1 <? currentStep s); simpl;
      (split; [assumption | constructor]).
  - (* updateModelParam *)
    unfold updateModelParam. destruct (selectedModel s); simpl;
      (split; [assumption | constructor]).
  - (* the end of an upload *)
    split; [| constructor]. destruct r; simpl; assumption.
  - (* the end of a run *)
    unfold handleNext_resume; simpl.
    destruct (nth_error pend k) as [seen |]; simpl;
      (split; [| constructor]); [| assumption].
    destruct (advance_rest seen (runPipeline_finish o s)) as (_ & -> & _).
    assumption.
Qed.

(** C4 at work: the request of a run that adds a min_max_scaler, keeps
    the slider where it is and picks a model. *)
Lemma C4_default_parameters_witness :
  Forall (fun request =>
            exists pre selected,
              steps request = pre ++ [default_split; selected])
         (snd (run start [ChooseFile; UploadEnds (inr iris_metadata); ClickNext;
                          ClickAdd min_max_scaler "k3j9x0q1z"; ClickNext;
                          ClickNext; ClickModel decision_tree_classifier;
                          ClickNext])).
Proof.
  apply (proj1 (proj2 (proj2 C4_default_parameters))).
  reflexivity.
Defined.

(** ** The current step *)

Lemma advance_in_range (seen : Z) (s : State) :
  step_in_range seen -> step_in_range (currentStep s) ->
  step_in_range (currentStep (advance seen s)).
Proof.
  unfold step_in_range, advance. simpl.
  destruct (Z.ltb_spec seen 5); simpl; lia.
Qed.

Lemma Forall_remove_nth {A} (P : A -> Prop) (k : nat) :
  forall l, Forall P l -> Forall P (remove_nth k l).
Proof.
  induction k as [| k IH]; intros [| a l] H; simpl; try constructor;
    inversion H; subst; auto.
Qed.

Lemma dispatch_keeps_step_in_range (w : World) (e : Event) :
  step_in_range (currentStep (ui w)) /\ Forall step_in_range (waiting w) ->
  step_in_range (currentStep (ui (fst (dispatch w e))))
  /\ Forall step_in_range (waiting (fst (dispatch w e))).
Proof.
  destruct w as [s pend]; simpl. intros [Hs Hpend].
  destruct e; simpl; try (split; assumption).
  - unfold handleNext_start, runPipeline_start; simpl.
    destruct (Z.eqb_spec (currentStep s) 4) as [H4 | H4].
    + destruct (selectedModel s); simpl.
      * split; [assumption |].
        apply Forall_app; split; [assumption |].
        constructor; [assumption | constructor].
      * split; [| assumption]. apply advance_in_range; assumption.
    + simpl. split; [| assumption]. apply advance_in_range; assumption.
  - split; [| assumption]. unfold handleBack, step_in_range in *.
    destruct (Z.ltb_spec 1 (currentStep s)); simpl; lia.
  - split; [| assumption]. unfold step_in_range. lia.
  - split; [| assumption]. unfold updateModelParam.
    destruct (selectedModel s); assumption.
  - split; [| assumption]. destruct r; assumption.
  - unfold handleNext_resume; simpl.
    destruct (nth_error pend k) as [seen |] eqn:Hk; simpl.
    + split; [| apply Forall_remove_nth; assumption].
      apply advance_in_range; [| assumption].
      apply nth_error_In in Hk.
      rewrite Forall_forall in Hpend. auto.
    + split; assumption.
Qed.

(** C9: whatever the events, the current step stays from 1 to 5.
    [handleNext] adds one only to a step below the number of wizard steps,
    which is 5 (on step 4 with a model selected it first waits for the run,
    and adds one to the step its click saw); [handleBack] takes one only
    from a step above 1; Start Over sets step 1. *)
Theorem C9_current_step_in_range :
  (forall events, 1 <= currentStep (ui (fst (run start events))) <= 5)
  /\ List.length WIZARD_STEPS = 5%nat
  /\ (forall w,
        let c := currentStep (ui w) in
        currentStep (ui (fst (handleNext_start w))) =
        if (c =? 4) && is_some (selectedModel (ui w)) then c
        else if c <? 5 then c + 1 else c)
  /\ (forall k o w,
        currentStep (ui (handleNext_resume k o w)) =
        match nth_error (waiting w) k with
        | Some seen => if seen <? 5 then seen + 1 else currentStep (ui w)
        | None => currentStep (ui w)
        end)
  /\ (forall s,
        currentStep (handleBack s) =
        if 1 <? currentStep s then currentStep s - 1 else currentStep s)
  /\ (forall w, currentStep (ui (fst (dispatch w ClickStartOver))) = 1).
Proof.
  split; [| split; [reflexivity | split; [| split; [| split]]]].
  - intro events.
    apply (run_keeps (fun _ => true)
             (fun w => step_in_range (currentStep (ui w))
                       /\ Forall step_in_range (waiting w))
             (fun _ => True)).
    + intros w e _ Hw. split.
      * apply dispatch_keeps_step_in_range; assumption.
      * apply Forall_forall. intros; exact I.
    + apply forallb_any.
    + split; [unfold step_in_range; simpl; lia | constructor].
  - intros [s pend]; simpl.
    unfold handleNext_start, runPipeline_start; simpl.
    destruct (Z.eqb_spec (currentStep s) 4) as [H4 | H4]; simpl.
    + destruct (selectedModel s); simpl; [reflexivity |].
      rewrite H4. reflexivity.
    + unfold advance; simpl. destruct (currentStep s <? 5); reflexivity.
  - intros k o [s pend]; unfold handleNext_resume; simpl.
    destruct (nth_error pend k) as [seen |]; simpl; [| reflexivity].
    unfold advance; simpl. destruct (seen <? 5); reflexivity.
  - intro s. unfold handleBack. destruct (1 <? currentStep s); reflexivity.
  - reflexivity.
Qed.

(** ** The submitted pipeline *)

Lemma count_kind_app (k : Kind) (a b : list PipelineStep) :
  count_kind k (a ++ b) = (count_kind k a + count_kind k b)%nat.
Proof. unfold count_kind. rewrite filter_app, length_app. reflexivity. Qed.

Lemma count_kind_preprocessing (k : Kind) (pre : list PipelineStep) :
  k <> PreprocessingKind ->
  Forall (fun st => exists t, type st = OfPreprocessing t) pre ->
  count_kind k pre = 0%nat.
Proof.
  intros Hk H. induction H as [| st pre [t Ht] _ IH]; [reflexivity |].
  unfold count_kind, has_kind in *; simpl. rewrite Ht; simpl.
  destruct k; simpl; try assumption. contradiction.
Qed.

Lemma fullSteps_shape (s : State) (selected : PipelineStep) :
  Forall (fun st => exists t, type st = OfPreprocessing t)
         (preprocessingSteps s) ->
  (exists t, type selected = OfModel t) ->
  pipeline_shape (fullSteps s selected).
Proof.
  intros Hpre [t Ht].
  exists (preprocessingSteps s), (splitStep s), selected.
  unfold fullSteps.
  repeat split; try assumption; try (exists t; assumption).
  - rewrite count_kind_app, (count_kind_preprocessing SplitKind);
      [| discriminate | assumption].
    unfold count_kind, has_kind; simpl. rewrite Ht. reflexivity.
  - rewrite count_kind_app, (count_kind_preprocessing ModelKind);
      [| discriminate | assumption].
    unfold count_kind, has_kind; simpl. rewrite Ht. reflexivity.
Qed.

Lemma Forall_filter {A} (P : A -> Prop) (f : A -> bool) (l : list A) :
  Forall P l -> Forall P (filter f l).
Proof.
  induction 1 as [| a l Ha _ IH]; simpl; [constructor |].
  destruct (f a); [constructor |]; assumption.
Qed.

Lemma dispatch_keeps_typed_steps (w : World) (e : Event) :
  typed_steps w ->
  typed_steps (fst (dispatch w e))
  /\ Forall (fun request => pipeline_shape (steps request))
            (snd (dispatch w e)).
Proof.
  destruct w as [s pend]; unfold typed_steps; simpl. intros [Hpre Hsel].
  destruct e; simpl; try (split; [split; assumption | constructor]).
  - unfold handleNext_start, runPipeline_start; simpl.
    destruct (currentStep s =? 4).
    + destruct (selectedModel s) as [selected |] eqn:Hm; simpl.
      * rewrite Hm. split; [split; assumption |].
        constructor; [| constructor]. simpl.
        apply fullSteps_shape; auto.
      * destruct (advance_rest (currentStep s) s) as (-> & _ & -> & _).
        rewrite Hm. split; [split; [assumption | discriminate] | constructor].
    + simpl.
      destruct (advance_rest (currentStep s) s) as (-> & _ & -> & _).
      split; [split; assumption | constructor].
  - unfold handleBack. destruct (1 <? currentStep s); simpl;
      (split; [split; assumption | constructor]).
  - split; [split; [| assumption] | constructor].
    apply Forall_app; split; [assumption |].
    constructor; [exists t; reflexivity | constructor].
  - split; [split; [| assumption] | constructor].
    apply Forall_filter; assumption.
  - split; [split; [| assumption] | constructor].
    apply Forall_forall. intros st Hst.
    apply in_map_iff in Hst as (st0 & <- & Hst0).
    rewrite Forall_forall in Hpre.
    destruct (String.eqb (id st0) i); simpl; auto.
  - split; [split; [assumption |] | constructor].
    intros m Hm. injection Hm as <-. exists t; reflexivity.
  - split; [| constructor]. unfold updateModelParam.
    destruct (selectedModel s) as [m |] eqn:Hm; simpl.
    + split; [assumption |]. intros m' Hm'. injection Hm' as <-. simpl. auto.
    + rewrite Hm. split; assumption.
  - split; [split; [constructor | discriminate] | constructor].
  - split; [| constructor]. destruct r; simpl; split; assumption.
  - split; [| constructor]. unfold handleNext_resume; simpl.
    destruct (nth_error pend k) as [seen |]; simpl; [| split; assumption].
    destruct (advance_rest seen (runPipeline_finish o s)) as (-> & _ & -> & _).
    simpl. split; assumption.
Qed.

(** C1: every step list sent to the run-pipeline call, in every run of
    the component, is some preprocessing steps (standard_scaler,
    min_max_scaler or drop_nulls each; maybe none), then one
    train_test_split step, then one model step, its last two steps being
    the only split step and the only model step: the split step comes
    before the model step. *)
Theorem C1_submitted_pipeline_shape :
  forall events,
    Forall (fun request => pipeline_shape (steps request))
           (snd (run start events)).
Proof.
  intro events.
  apply (run_keeps (fun _ => true) typed_steps
                   (fun request => pipeline_shape (steps request))).
  - intros w e _. apply dispatch_keeps_typed_steps.
  - apply forallb_any.
  - split; [constructor | discriminate].
Qed.

(** ** The grade of an accuracy *)

Lemma lit_90 : lit "90" = Fin 90.
Proof. vm_compute. reflexivity. Qed.

Lemma lit_70 : lit "70" = Fin 70.
Proof. vm_compute. reflexivity. Qed.

Lemma ge_90_ge_70 (v : Number) :
  ge v (Fin 90) = true -> ge v (Fin 70) = true.
Proof.
  destruct v as [| | | q]; simpl; auto.
  rewrite !Qle_bool_iff. intro H.
  apply Qle_trans with (y := 90%Q); [discriminate | assumption].
Qed.

(** Below a finite bound or not: a number that is not below it and not
    NaN is at least it. *)
Lemma lt_fin_negb_ge (v : Number) (b : Q) :
  v <> NaN -> lt v (Fin b) = negb (ge v (Fin b)).
Proof. destruct v; simpl; intro H; (reflexivity || contradiction). Qed.

Lemma ge_not_NaN (v b : Number) : ge v b = true -> v <> NaN.
Proof. intros H ->. discriminate H. Qed.

(** C10: the grade is one of three, decided by the parsed percentage:
    'Excellent' exactly when it is at least 90, 'Good' exactly when it is
    at least 70 and below 90, 'Needs Improvement' exactly when it is not at
    least 70, which is so when the string parses to no number. *)
Theorem C10_grade_classification :
  forall accuracy : string,
    let v := accVal accuracy in
    let g := Explanation.grade (ResultExplanation accuracy) in
    (g = "Excellent" <-> ge v (lit "90") = true)
    /\ (g = "Good" <-> ge v (lit "70") = true /\ lt v (lit "90") = true)
    /\ (g = "Needs Improvement" <-> ge v (lit "70") = false)
    /\ (v = NaN -> g = "Needs Improvement").
Proof.
  intro accuracy. cbv zeta. unfold ResultExplanation.
  generalize (accVal accuracy) as v. intro v.
  rewrite lit_90, lit_70.
  destruct (ge v (Fin 90)) eqn:H90.
  - pose proof (ge_90_ge_70 v H90) as H70.
    pose proof (lt_fin_negb_ge v 90 (ge_not_NaN _ _ H90)) as Hlt.
    rewrite H90 in Hlt. rewrite H70, Hlt. simpl.
    repeat split; intros; try discriminate; try reflexivity.
    + destruct H; discriminate.
    + subst v. discriminate H90.
  - destruct (ge v (Fin 70)) eqn:H70; simpl.
    + pose proof (lt_fin_negb_ge v 90 (ge_not_NaN _ _ H70)) as Hlt.
      rewrite H90 in Hlt. rewrite Hlt.
      repeat split; intros; try discriminate; try reflexivity.
      subst v. discriminate H70.
    + repeat split; intros; try discriminate; try reflexivity.
      destruct H; discriminate.
Qed.

(** C10 at work: an accuracy that is no number. *)
Lemma C10_grade_classification_witness :
  Explanation.grade (ResultExplanation "n/a") = "Needs Improvement".
Proof.
  apply (proj2 (proj2 (proj2 (C10_grade_classification "n/a")))).
  vm_compute. reflexivity.
Defined.

Example grades :
  map (fun a => Explanation.grade (ResultExplanation a))
      ["96.67%"; "90%"; "89.99%"; "70.00%"; "69.9%"; ""]
  = ["Excellent"; "Excellent"; "Good"; "Good"; "Needs Improvement";
     "Needs Improvement"].
Proof. vm_compute. reflexivity. Qed.

(** ** A failed run *)

Lemma failure_fields (m : string) :
  success (failure m) = false
  /\ message (failure m) = "Failed to execute pipeline"
  /\ logs (failure m) = ["Error: " +++ m].
Proof. repeat split. Qed.

(** C2: a run started on step 4 ends on step 5 with the running flag
    down, whatever its outcome.  When the server reports a failure - an ok
    response whose result has success = false - that very result is stored
    and step 5 shows its message and, under it, all of its log lines in
    order.  When the request itself errs - no response, a status that is
    not ok, a body that is no JSON - the result stored has success = false,
    the message 'Failed to execute pipeline' and the one log line 'Error: '
    with the error's message, and step 5 shows them. *)
Theorem C2_failed_run_is_shown :
  forall (limit : N) (w : World) (selected : PipelineStep),
    currentStep (ui w) = 4 ->
    selectedModel (ui w) = Some selected ->
    waiting w = [] ->
    let after o := ui (fst (run w [ClickNext; RunEnds 0 o])) in
    (forall o, currentStep (after o) = 5 /\ isRunning (after o) = false)
    /\ (forall status r,
          success r = false ->
          results (after (Responded true status (inr (Some r)))) = Some r
          /\ stepContent limit (after (Responded true status (inr (Some r))))
             = Ok (Some (Failed (message r) (logs r))))
    /\ (forall m, shows_caught limit (after (Rejected m)) m)
    /\ (forall status body,
          shows_caught limit (after (Responded false status body))
                       ("Server status: " +++ to_string (of_Z status)))
    /\ (forall status m,
          shows_caught limit (after (Responded true status (inl m))) m).
Proof.
  intros limit [s pend] selected H4 Hsel Hpend. simpl in H4, Hsel, Hpend.
  subst pend. cbv zeta.
  unfold run, dispatch, handleNext_start, runPipeline_start; simpl.
  rewrite H4, Hsel; simpl.
  unfold handleNext_resume; simpl.
  split; [intro o; split; reflexivity |].
  split.
  { intros status r Hfail. split; [reflexivity |].
    unfold stepContent, resultsView; simpl. rewrite Hfail. reflexivity. }
  unfold shows_caught.
  split; [| split]; intros; eexists; (split; [reflexivity |]);
    repeat split.
Qed.

(** C2 at work: the server reports a failure of its own, and the server
    answers a run with status 500. *)
Lemma C2_failed_run_is_shown_witness :
  let w := fst (run start [ChooseFile; UploadEnds (inr iris_metadata);
                           ClickNext; ClickNext; ClickNext;
                           ClickModel logistic_regression]) in
  let after o := ui (fst (run w [ClickNext; RunEnds 0 o])) in
  stepContent 65535
    (after (Responded true 200 (inr (Some reported_failure))))
  = Ok (Some (Failed "Column 'species' not found"
                     ["Loaded dataset"; "Applied standard_scaler"]))
  /\ shows_caught 65535
       (after (Responded false 500 (inl "Unexpected token I in JSON")))
       "Server status: 500".
Proof.
  intros w after.
  destruct (C2_failed_run_is_shown 65535 w
              {| id := "model-step"; type := OfModel logistic_regression;
                 params := [("C", Num (lit "1.0"))] |}
              eq_refl eq_refl eq_refl) as (_ & Hreported & _ & Hstatus & _).
  split.
  - apply (Hreported 200 reported_failure). reflexivity.
  - apply (Hstatus 500 (inl "Unexpected token I in JSON")).
Defined.

(** ** The feature-importance chart *)

Lemma traverse_Forall2 {A B} (f : A -> Result B) (xs : list A) (ys : list B) :
  Forall2 (fun x y => f x = Ok y) xs ys -> traverse f xs = Ok ys.
Proof.
  induction 1 as [| x y xs ys Hxy _ IH]; simpl; [reflexivity |].
  rewrite Hxy; simpl. rewrite IH; reflexivity.
Qed.

Lemma traverse_inv {A B} (f : A -> Result B) (xs : list A) :
  forall ys, traverse f xs = Ok ys -> Forall2 (fun x y => f x = Ok y) xs ys.
Proof.
  induction xs as [| x xs IH]; simpl; intros ys H.
  - injection H as <-. constructor.
  - destruct (f x) as [y |] eqn:Hy; simpl in H; [| discriminate H].
    destruct (traverse f xs) as [ys' |]; simpl in H; [| discriminate H].
    injection H as <-. constructor; auto.
Qed.

Lemma traverse_total {A B} (f : A -> Result B) (xs : list A) :
  (forall x, In x xs -> exists y, f x = Ok y) ->
  exists ys, traverse f xs = Ok ys.
Proof.
  induction xs as [| x xs IH]; intro H; simpl.
  - exists []; reflexivity.
  - destruct (H x (or_introl eq_refl)) as [y Hy].
    destruct IH as [ys Hys]; [intros; apply H; right; assumption |].
    exists (y :: ys). rewrite Hy; simpl. rewrite Hys; reflexivity.
Qed.

Lemma traverse_indexed_total {A B} (f : nat -> A -> Result B) (xs : list A) :
  (forall i x, In x xs -> exists y, f i x = Ok y) ->
  forall i, exists ys, traverse_indexed f i xs = Ok ys.
Proof.
  induction xs as [| x xs IH]; intros H i; simpl.
  - exists []; reflexivity.
  - destruct (H i x (or_introl eq_refl)) as [y Hy].
    destruct (IH (fun j z Hz => H j z (or_intror Hz)) (S i)) as [ys Hys].
    exists (y :: ys). rewrite Hy; simpl. rewrite Hys; reflexivity.
Qed.

Lemma Forall2_firstn_both {A B} (R : A -> B -> Prop) (n : nat) :
  forall xs ys, Forall2 R xs ys -> Forall2 R (firstn n xs) (firstn n ys).
Proof.
  induction n as [| n IH]; intros xs ys H; simpl; [constructor |].
  destruct H; constructor; auto.
Qed.

Lemma maxImportance_entries (limit : N) (all : list Value)
    (entries : list (string * Number)) :
  Forall2 entry_of all entries ->
  maxImportance limit all
  = if (N.of_nat (List.length all) <=? limit)%N
    then Ok (JS.max (map snd entries)) else Throw.
Proof.
  intro H. unfold maxImportance.
  rewrite (traverse_Forall2 _ all (map (fun e => Num (snd e)) entries)).
  - simpl. unfold spread.
    rewrite length_map, <- (Forall2_length H).
    destruct (N.of_nat (List.length all) <=? limit)%N; simpl;
      [| reflexivity].
    rewrite (traverse_Forall2 _ _ (map snd entries)); [reflexivity |].
    clear. induction entries; simpl; constructor; auto.
  - induction H as [| v e all entries [_ Hv] _ IH]; simpl; constructor; auto.
Qed.

Lemma featureBar_entry (limit : N) (all : list Value) (top : Number)
    (v : Value) (e : string * Number) :
  maxImportance limit all = Ok top -> entry_of v e ->
  featureBar limit all v = Ok (bar_of top e).
Proof.
  intros Hmax [Hname Himp]. unfold featureBar.
  rewrite Hmax, Hname, Himp. reflexivity.
Qed.

Lemma featureBars_entries (limit : N) (all : list Value)
    (entries : list (string * Number)) :
  Forall2 entry_of all entries ->
  featureBars limit (Arr all)
  = if (N.of_nat (List.length all) <=? limit)%N
    then Ok (map (bar_of (JS.max (map snd entries))) (firstn 10 entries))
    else Throw.
Proof.
  intro H. pose proof (maxImportance_entries limit all entries H) as Hmax.
  unfold featureBars.
  destruct (N.of_nat (List.length all) <=? limit)%N eqn:Hfits.
  - apply traverse_Forall2.
    apply Forall2_firstn_both with (n := 10%nat) in H.
    induction H as [| v e vs es Hve _ IH]; simpl; constructor; auto.
    apply featureBar_entry; assumption.
  - destruct all as [| v all]; [apply N.leb_gt in Hfits; simpl in Hfits; lia |].
    simpl. unfold featureBar at 1. rewrite Hmax. reflexivity.
Qed.

(** C5: of a list of feature-importance entries the chart shows the first
    ten at most, in their order, one bar each; every bar is scaled by the
    greatest importance of the whole list, which is only read.  (The whole
    list is spread into one call of [Math.max]: a list longer than the
    engine takes arguments gives no chart but an exception.) *)
Theorem C5_top_ten_features :
  forall (limit : N) (all : list Value) (entries : list (string * Number)),
    Forall2 entry_of all entries ->
    let top := JS.max (map snd entries) in
    let fits := (N.of_nat (List.length all) <=? limit)%N in
    exists bars,
      bars = map (bar_of top) (firstn 10 entries)
      /\ featureBars limit (Arr all) = (if fits then Ok bars else Throw)
      /\ (List.length bars <= 10)%nat
      /\ List.length bars = Nat.min 10 (List.length all)
      /\ maxImportance limit all = (if fits then Ok top else Throw)
      /\ Forall (fun bar => maxVal bar = top) bars.
Proof.
  intros limit all entries H top fits.
  exists (map (bar_of top) (firstn 10 entries)).
  split; [reflexivity |]. split; [| split; [| split; [| split]]].
  - apply featureBars_entries. exact H.
  - rewrite length_map, length_firstn. apply Nat.le_min_l.
  - rewrite length_map, length_firstn.
    rewrite (Forall2_length H). reflexivity.
  - apply maxImportance_entries. exact H.
  - apply Forall_forall. intros bar Hbar.
    apply in_map_iff in Hbar as (e & <- & _). reflexivity.
Qed.

(** C5 at work: twelve entries give ten bars, each scaled by the
    importance of the twelfth. *)
Lemma C5_top_ten_features_witness :
  exists bars,
    bars = map (bar_of (lit "0.4")) (firstn 10 twelve_entries)
    /\ featureBars 65535 (Arr (map entry_value twelve_entries)) = Ok bars
    /\ (List.length bars <= 10)%nat
    /\ List.length bars = 10%nat
    /\ maxImportance 65535 (map entry_value twelve_entries)
       = Ok (lit "0.4")
    /\ Forall (fun bar => maxVal bar = lit "0.4") bars.
Proof.
  apply (C5_top_ten_features 65535 (map entry_value twelve_entries)
           twelve_entries).
  repeat constructor.
Defined.

(** ** The results of a successful run *)

Lemma lookup_absent (key : string) (o : Object) :
  has_own key o = false -> lookup key o = Undefined.
Proof.
  induction o as [| [k v] o IH]; simpl; [reflexivity |].
  destruct (String.eqb k key); simpl; [discriminate | exact IH].
Qed.

Lemma traverse_total_with {A B} (f : A -> Result B) (P : B -> Prop)
    (xs : list A) :
  (forall x, In x xs -> exists y, f x = Ok y /\ P y) ->
  exists ys, traverse f xs = Ok ys /\ Forall P ys.
Proof.
  induction xs as [| x xs IH]; intro H; simpl.
  - exists []; split; [reflexivity | constructor].
  - destruct (H x (or_introl eq_refl)) as (y & Hy & Py).
    destruct IH as (ys & Hys & Pys); [intros; apply H; right; assumption |].
    exists (y :: ys). rewrite Hy; simpl. rewrite Hys.
    split; [reflexivity | constructor; assumption].
Qed.

Lemma In_firstn {A} (n : nat) (x : A) :
  forall l, In x (firstn n l) -> In x l.
Proof.
  induction n as [| n IH]; intros [| a l] H; simpl in *; try contradiction.
  destruct H; [left | right]; auto.
Qed.

Lemma feature_entry_inv (v : Value) :
  feature_entry v = true ->
  exists name n,
    prop "feature" v = Ok name /\ text_or_number name = true
    /\ prop "importance" v = Ok (Num n).
Proof.
  destruct v as [| | | | | |o]; try discriminate. simpl.
  intro H. apply andb_true_iff in H as [Hname Himp].
  destruct (lookup "importance" o) as [| | |n| | |] eqn:E; try discriminate.
  exists (lookup "feature" o), n. auto.
Qed.

Lemma react_child_text_or_number (v : Value) :
  text_or_number v = true -> exists t, react_child v = Ok t.
Proof. destruct v; try discriminate; simpl; eauto. Qed.

Lemma maxImportance_total (limit : N) (all : list Value) :
  forallb feature_entry all = true ->
  exists top,
    maxImportance limit all
    = if (N.of_nat (List.length all) <=? limit)%N then Ok top else Throw.
Proof.
  intro H. rewrite forallb_forall in H. unfold maxImportance.
  destruct (traverse_total_with (prop "importance")
              (fun y => is_number y = true) all) as (imps & Himps & Hnum).
  { intros v Hv. destruct (feature_entry_inv v (H v Hv)) as (_ & n & _ & _ & E).
    exists (Num n). auto. }
  rewrite Himps. simpl. unfold spread.
  apply traverse_inv, Forall2_length in Himps. rewrite <- Himps.
  destruct (N.of_nat (List.length all) <=? limit)%N; simpl;
    [| exists NaN; reflexivity].
  destruct (traverse_total to_number imps) as (ns & ->).
  { rewrite Forall_forall in Hnum. intros y Hy.
    specialize (Hnum y Hy). destruct y; try discriminate. simpl; eauto. }
  simpl. eauto.
Qed.

Lemma featureBars_total (limit : N) (all : list Value) :
  forallb feature_entry all = true ->
  if (N.of_nat (List.length all) <=? limit)%N
  then exists bars, featureBars limit (Arr all) = Ok bars
  else featureBars limit (Arr all) = Throw.
Proof.
  intro H. destruct (maxImportance_total limit all H) as [top Htop].
  rewrite forallb_forall in H. unfold featureBars.
  destruct (N.of_nat (List.length all) <=? limit)%N eqn:Hfits.
  - apply traverse_total. intros v Hv. apply In_firstn in Hv.
    destruct (feature_entry_inv v (H v Hv)) as (name & n & E1 & Hname & E2).
    destruct (react_child_text_or_number name Hname) as [t Ht].
    unfold featureBar. rewrite Htop, E1, E2; simpl. rewrite Ht; simpl. eauto.
  - destruct all as [| v all]; [apply N.leb_gt in Hfits; simpl in Hfits; lia |].
    simpl. unfold featureBar at 1. rewrite Htop. reflexivity.
Qed.

Lemma matrixCells_total (rows_ : list Value) :
  forallb (fun row => match row with
                      | Arr vals => forallb is_number vals
                      | _ => false
                      end) rows_ = true ->
  exists cells, matrixCells (Arr rows_) = Ok cells.
Proof.
  intro H. rewrite forallb_forall in H. unfold matrixCells.
  apply traverse_indexed_total. intros rIdx row Hrow.
  specialize (H row Hrow). destruct row as [| | | | |vals|]; try discriminate.
  rewrite forallb_forall in H.
  apply traverse_indexed_total. intros cIdx val Hval.
  specialize (H val Hval). destruct val; try discriminate. simpl; eauto.
Qed.

Lemma react_child_falsy (v : Value) :
  truthy v = false -> exists t, react_child v = Ok t.
Proof. destruct v; try discriminate; simpl; eauto. Qed.

Lemma guarded_total {A} (v : Value) (section : Result A) :
  (truthy v = true -> exists a, section = Ok a) ->
  exists g, guarded v section = Ok g
            /\ is_rendered g = truthy v
            /\ (v = Undefined -> g = Skipped []).
Proof.
  intro H. unfold guarded. destruct (truthy v) eqn:Hv.
  - destruct (H eq_refl) as [a ->]. simpl. exists (Rendered a).
    repeat split. intros ->. discriminate Hv.
  - destruct (react_child_falsy v Hv) as [t Ht]. rewrite Ht; simpl.
    exists (Skipped t). repeat split. intros ->.
    simpl in Ht. injection Ht as <-. reflexivity.
Qed.

Lemma react_child_count (v : Value) :
  count_shape v = true ->
  exists t, react_child v = Ok t /\ (v = Undefined -> t = []).
Proof.
  destruct v; try discriminate; simpl; intros _; eexists; split;
    try reflexivity; intros; (reflexivity || discriminate).
Qed.

(** C8, as stated, fails: a successful result whose feature_importance key
    is there and holds null renders without the chart. *)
Lemma C8_present_null_key_is_skipped :
  ~ (forall limit r v,
       success r = true -> successView limit r = Ok v ->
       is_rendered (explanation v) = has_own "Accuracy" (metrics r)
       /\ is_rendered (feature_importance v)
          = has_own "feature_importance" (metrics r)
       /\ is_rendered (confusion_matrix v)
          = has_own "confusion_matrix" (metrics r)).
Proof.
  intro H.
  destruct (successView 65535 result_without_importance) as [v |] eqn:E;
    [| discriminate E].
  destruct (H 65535%N result_without_importance v eq_refl E) as (_ & Hbars & _).
  vm_compute in E. injection E as <-. discriminate Hbars.
Qed.

(** C8, amended: take a successful result whose Accuracy, if there and not
    null, is a string, whose sample counts are numbers or strings, and
    whose feature_importance and confusion_matrix, if there and not null,
    are an array of entries and an array of rows of numbers.  If its
    feature list is no longer than the engine takes arguments in one call,
    it renders without error, whichever of these keys are missing: the
    explanation, the chart and the matrix are each rendered exactly when
    the key holds a truthy value, and a missing key, like one that holds
    null or the empty string, leaves its section out and nothing in its
    place.  If the feature list is longer, the render throws. *)
Theorem C8_sections_follow_truthy_keys :
  forall (limit : N) (r : PipelineResult),
    success r = true ->
    expected_shapes (metrics r) = true ->
    (spread_fits limit (metrics r) = true ->
     exists v,
       successView limit r = Ok v
       /\ (forall s, isRunning s = false -> results s = Some r ->
                     resultsView limit s = Ok (Succeeded v (logs r)))
       /\ is_rendered (explanation v) = truthy (lookup "Accuracy" (metrics r))
       /\ is_rendered (feature_importance v)
          = truthy (lookup "feature_importance" (metrics r))
       /\ is_rendered (confusion_matrix v)
          = truthy (lookup "confusion_matrix" (metrics r))
       /\ (has_own "Accuracy" (metrics r) = false ->
           explanation v = Skipped [] /\ accuracy_card v = [])
       /\ (has_own "feature_importance" (metrics r) = false ->
           feature_importance v = Skipped [])
       /\ (has_own "confusion_matrix" (metrics r) = false ->
           confusion_matrix v = Skipped []))
    /\ (spread_fits limit (metrics r) = false ->
        successView limit r = Throw
        /\ (forall s, isRunning s = false -> results s = Some r ->
                      resultsView limit s = Throw)).
Proof.
  intros limit r Hsuccess Hshapes.
  unfold expected_shapes in Hshapes.
  repeat (apply andb_true_iff in Hshapes as [Hshapes ?]).
  rename Hshapes into Hacc, H2 into Htrain, H1 into Htest, H0 into Hfi,
         H into Hcm.
  destruct (guarded_total (lookup "Accuracy" (metrics r))
              (explanationOf (lookup "Accuracy" (metrics r))))
    as (g1 & E1 & R1 & U1).
  { destruct (lookup "Accuracy" (metrics r)); try discriminate; simpl; eauto. }
  destruct (react_child_count (lookup "Accuracy" (metrics r))) as (c1 & C1 & V1).
  { destruct (lookup "Accuracy" (metrics r)); try discriminate; reflexivity. }
  destruct (react_child_count _ Htrain) as (c2 & C2 & _).
  destruct (react_child_count _ Htest) as (c3 & C3 & _).
  unfold spread_fits. split; intro Hfits.
  - destruct (guarded_total (lookup "feature_importance" (metrics r))
                (featureBars limit (lookup "feature_importance" (metrics r))))
      as (g2 & E2 & R2 & U2).
    { destruct (lookup "feature_importance" (metrics r)) as [| | | | |all|];
        try discriminate.
      intros _. pose proof (featureBars_total limit all Hfi) as Hbars.
      rewrite Hfits in Hbars. exact Hbars. }
    destruct (guarded_total (lookup "confusion_matrix" (metrics r))
                (matrixCells (lookup "confusion_matrix" (metrics r))))
      as (g3 & E3 & R3 & U3).
    { destruct (lookup "confusion_matrix" (metrics r)); try discriminate.
      intros _. apply matrixCells_total. exact Hcm. }
    assert (Hview : exists v, successView limit r = Ok v
                              /\ explanation v = g1 /\ accuracy_card v = c1
                              /\ feature_importance v = g2
                              /\ confusion_matrix v = g3).
    { unfold successView. rewrite E1; simpl. rewrite C1; simpl.
      rewrite C2; simpl. rewrite C3; simpl. rewrite E2; simpl.
      rewrite E3; simpl. eexists. repeat split. }
    destruct Hview as (v & Hv & <- & <- & <- & <-).
    exists v. split; [exact Hv |]. split.
    { intros s Hrun Hres. unfold resultsView.
      rewrite Hrun, Hres, Hsuccess, Hv. reflexivity. }
    repeat split; try assumption.
    + apply U1, lookup_absent; assumption.
    + apply V1, lookup_absent; assumption.
    + intro Habsent. apply U2, lookup_absent; assumption.
    + intro Habsent. apply U3, lookup_absent; assumption.
  - assert (Hview : successView limit r = Throw).
    { unfold successView. rewrite E1; simpl. rewrite C1; simpl.
      rewrite C2; simpl. rewrite C3; simpl.
      destruct (lookup "feature_importance" (metrics r)) as [| | | | |all|];
        try discriminate.
      pose proof (featureBars_total limit all Hfi) as Hbars.
      rewrite Hfits in Hbars. unfold guarded. cbn [truthy]. rewrite Hbars.
      reflexivity. }
    split; [exact Hview |].
    intros s Hrun Hres. unfold resultsView.
    rewrite Hrun, Hres, Hsuccess, Hview. reflexivity.
Qed.

(** C8 at work: a result with neither Accuracy nor feature_importance nor
    confusion_matrix. *)
Lemma C8_sections_follow_truthy_keys_witness :
  exists v,
    successView 65535 result_with_counts_only = Ok v
    /\ explanation v = Skipped []
    /\ feature_importance v = Skipped []
    /\ confusion_matrix v = Skipped [].
Proof.
  destruct (proj1 (C8_sections_follow_truthy_keys 65535
                     result_with_counts_only eq_refl eq_refl) eq_refl)
    as (v & Hv & _ & _ & _ & _ & Hacc & Hfi & Hcm).
  exists v. split; [exact Hv |].
  split; [apply Hacc; reflexivity |].
  split; [apply Hfi | apply Hcm]; reflexivity.
Defined.

(** A list of three entries in an engine that takes two arguments. *)
Example long_feature_list_throws :
  let r := {| success := true;
              message := "";
              metrics := [("feature_importance",
                           Arr (map entry_value (firstn 3 twelve_entries)))];
              logs := [];
              model_path := None |} in
  successView 2 r = Throw
  /\ exists v, successView 3 r = Ok v.
Proof. vm_compute. split; [reflexivity | eexists; reflexivity]. Qed.

(** ** The correlation heatmap *)

Lemma length_concat_square {A} (n : nat) (rows_ : list (list A)) :
  Forall (fun row => List.length row = n) rows_ ->
  List.length (List.concat rows_) = (List.length rows_ * n)%nat.
Proof.
  induction 1 as [| row rows_ Hrow _ IH]; simpl; [reflexivity |].
  rewrite length_app, IH, Hrow. reflexivity.
Qed.

Lemma nth_error_concat_square {A} (n : nat) (rows_ : list (list A)) :
  Forall (fun row => List.length row = n) rows_ ->
  forall i j, (j < n)%nat ->
    nth_error (List.concat rows_) (i * n + j)
    = nth_error (nth i rows_ []) j.
Proof.
  induction 1 as [| row rows_ Hrow _ IH]; intros i j Hj.
  - simpl. destruct (i * n + j)%nat, i, j; reflexivity.
  - destruct i as [| i]; simpl.
    + apply nth_error_app1. rewrite Hrow. assumption.
    + rewrite <- Nat.add_assoc, nth_error_app2; rewrite Hrow; [| lia].
      replace (n + (i * n + j) - n)%nat with (i * n + j)%nat by lia.
      apply IH. assumption.
Qed.

(** C6: a dataset summary that has correlations always gets the heatmap
    section.  With more than 8 labels the section holds the notice 'Too
    many features.' in place of the grid, the matrix and its labels staying
    in the summary; with 8 labels or fewer it holds a grid as many columns
    wide as there are labels, with one cell for every value of the matrix,
    row after row - for a matrix of labels by labels values, that many
    cells, the cell of row [i] and column [j] showing that value. *)
Theorem C6_heatmap_threshold :
  forall (md : DatasetMetadata) (c : Correlations.t),
    correlations md = Some c ->
    let n := List.length (Correlations.labels c) in
    ((8 < n)%nat -> correlationHeatmap md = Some TooManyFeatures)
    /\ ((n <= 8)%nat ->
        exists cells,
          correlationHeatmap md = Some (Grid n cells)
          /\ cells = map heatCell (List.concat (Correlations.data c))
          /\ (square n (Correlations.data c) ->
              List.length cells = (n * n)%nat
              /\ forall i j, (i < n)%nat -> (j < n)%nat ->
                   nth_error cells (i * n + j)
                   = option_map heatCell
                       (nth_error (nth i (Correlations.data c) []) j))).
Proof.
  intros md c Hc n. unfold correlationHeatmap. rewrite Hc. fold n. split.
  - intro Hn. apply Nat.ltb_lt in Hn. rewrite Hn. reflexivity.
  - intro Hn. apply Nat.ltb_ge in Hn. rewrite Hn.
    eexists. split; [reflexivity |]. split; [reflexivity |].
    intros [Hrows Hcols]. split.
    + rewrite length_map, (length_concat_square n), Hrows by assumption.
      reflexivity.
    + intros i j _ Hj.
      rewrite nth_error_map, (nth_error_concat_square n) by assumption.
      reflexivity.
Qed.

(** C6 at work: nine labels give the notice, two labels a grid of four
    cells. *)
Lemma C6_heatmap_threshold_witness :
  correlationHeatmap wide_metadata = Some TooManyFeatures
  /\ exists cells,
       correlationHeatmap iris_metadata = Some (Grid 2 cells)
       /\ map shown cells = ["1.0"; "-0.1"; "-0.1"; "1.0"].
Proof.
  split.
  - destruct (correlations wide_metadata) as [c |] eqn:E; [| discriminate E].
    apply (proj1 (C6_heatmap_threshold wide_metadata c E)).
    injection E as <-. simpl. lia.
  - destruct (correlations iris_metadata) as [c |] eqn:E; [| discriminate E].
    destruct (proj2 (C6_heatmap_threshold iris_metadata c E))
      as (cells & Hgrid & Hcells & _).
    + injection E as <-. simpl. lia.
    + exists cells. injection E as <-. split; [exact Hgrid |].
      rewrite Hcells. vm_compute. reflexivity.
Defined.

(** ** Objects and the order of their keys *)

Lemma array_index_canonical (key : string) (n : Z) :
  array_index key = Some n -> key = digits_of n.
Proof.
  unfold array_index. destruct (chars key) as [| c cs]; [discriminate |].
  destruct (forallb is_digit (c :: cs)); [| discriminate].
  destruct (String.eqb (digits_of (digits_value (c :: cs))) key) eqn:E;
    simpl; [| discriminate].
  destruct (digits_value (c :: cs) <=? 4294967294); [| discriminate].
  intro H. injection H as <-. apply String.eqb_eq in E. symmetry. exact E.
Qed.

Lemma array_index_inj (a b : string) (n : Z) :
  array_index a = Some n -> array_index b = Some n -> a = b.
Proof.
  intros Ha Hb. apply array_index_canonical in Ha, Hb. congruence.
Qed.

Lemma has_own_In (key : string) (o : Object) :
  has_own key o = true <-> In key (keys o).
Proof.
  induction o as [| [k w] o IH]; simpl; [split; [discriminate | tauto] |].
  rewrite orb_true_iff, String.eqb_eq, IH. tauto.
Qed.

Lemma has_own_not_In (key : string) (o : Object) :
  has_own key o = false <-> ~ In key (keys o).
Proof.
  rewrite <- has_own_In. destruct (has_own key o); split; intro H;
    try reflexivity; try discriminate; try (intro; discriminate).
  exfalso. apply H. reflexivity.
Qed.

Lemma keys_overwrite (key : string) (v : Value) (o : Object) :
  keys (overwrite key v o) = keys o.
Proof.
  induction o as [| [k w] o IH]; simpl; [reflexivity |].
  destruct (String.eqb k key); simpl; [reflexivity |].
  f_equal. exact IH.
Qed.

Lemma lookup_overwrite (key : string) (v : Value) (o : Object)
    (key' : string) :
  has_own key o = true ->
  lookup key' (overwrite key v o)
  = if String.eqb key' key then v else lookup key' o.
Proof.
  induction o as [| [k w] o IH]; simpl; [discriminate |].
  destruct (String.eqb k key) eqn:Hk; simpl.
  - intros _. apply String.eqb_eq in Hk. subst k.
    rewrite (String.eqb_sym key' key).
    destruct (String.eqb key key'); reflexivity.
  - intro Hown. destruct (String.eqb k key') eqn:E; [| exact (IH Hown)].
    apply String.eqb_eq in E. subst k. rewrite Hk. reflexivity.
Qed.

(** Where [insert_index] puts the key: after array indices below it. *)
Lemma insert_index_split (n : Z) (key : string) (v : Value) (o : Object) :
  exists l1 l2,
    o = l1 ++ l2
    /\ insert_index n key v o = l1 ++ (key, v) :: l2
    /\ Forall (fun k => index_below n k = true) (keys l1)
    /\ match l2 with
       | [] => True
       | (k, _) :: _ => index_below n k = false
       end.
Proof.
  induction o as [| [k w] o (l1 & l2 & E & Hins & Hl1 & Hl2)]; simpl.
  - exists [], []. repeat split. constructor.
  - unfold index_below at 1.
    destruct (array_index k) as [m |] eqn:Hk.
    + destruct (m <? n) eqn:Hm.
      * exists ((k, w) :: l1), l2. simpl. rewrite Hins, <- E.
        repeat split; [| exact Hl2].
        constructor; [| exact Hl1]. unfold index_below. rewrite Hk. exact Hm.
      * exists [], ((k, w) :: o). simpl. repeat split; [constructor |].
        unfold index_below. rewrite Hk. exact Hm.
    + exists [], ((k, w) :: o). simpl. repeat split; [constructor |].
      unfold index_below. rewrite Hk. reflexivity.
Qed.

Lemma has_own_app (key : string) (a b : Object) :
  has_own key (a ++ b) = has_own key a || has_own key b.
Proof.
  induction a as [| [k w] a IH]; simpl; [reflexivity |].
  rewrite IH, orb_assoc. reflexivity.
Qed.

Lemma lookup_middle (key : string) (v : Value) (l1 l2 : Object)
    (key' : string) :
  has_own key l1 = false ->
  lookup key' (l1 ++ (key, v) :: l2)
  = if String.eqb key' key then v else lookup key' (l1 ++ l2).
Proof.
  induction l1 as [| [k w] l1 IH]; simpl.
  - intros _. rewrite (String.eqb_sym key' key).
    destruct (String.eqb key key') eqn:E; [reflexivity |].
    reflexivity.
  - intro H. apply orb_false_iff in H as [Hk Hown].
    destruct (String.eqb k key') eqn:E; [| exact (IH Hown)].
    apply String.eqb_eq in E. subst k. rewrite Hk. reflexivity.
Qed.

(** Where [assign] puts a new key. *)
Lemma assign_new_split (key : string) (v : Value) (o : Object) :
  has_own key o = false ->
  exists l1 l2,
    o = l1 ++ l2
    /\ assign key v o = l1 ++ (key, v) :: l2
    /\ match array_index key with
       | Some n =>
           Forall (fun k => index_below n k = true) (keys l1)
           /\ match l2 with
              | [] => True
              | (k, _) :: _ => index_below n k = false
              end
       | None => l2 = []
       end.
Proof.
  intro Hown. unfold assign. rewrite Hown.
  destruct (array_index key) as [n |].
  - destruct (insert_index_split n key v o) as (l1 & l2 & E & H & H1 & H2).
    exists l1, l2. auto.
  - exists o, []. rewrite app_nil_r. auto.
Qed.

Lemma lookup_assign (key : string) (v : Value) (o : Object) (key' : string) :
  lookup key' (assign key v o)
  = if String.eqb key' key then v else lookup key' o.
Proof.
  destruct (has_own key o) eqn:Hown.
  - unfold assign. rewrite Hown. apply lookup_overwrite. exact Hown.
  - destruct (assign_new_split key v o Hown) as (l1 & l2 & E & -> & _).
    subst o. rewrite has_own_app in Hown.
    apply orb_false_iff in Hown as [H1 _].
    apply lookup_middle. exact H1.
Qed.

Lemma keys_assign_own (key : string) (v : Value) (o : Object) :
  has_own key o = true -> keys (assign key v o) = keys o.
Proof.
  intro H. unfold assign. rewrite H. apply keys_overwrite.
Qed.

Lemma keys_assign_new (key : string) (v : Value) (o : Object) :
  has_own key o = false ->
  exists l1 l2,
    keys o = l1 ++ l2 /\ keys (assign key v o) = l1 ++ key :: l2.
Proof.
  intro H. destruct (assign_new_split key v o H) as (l1 & l2 & E & -> & _).
  exists (keys l1), (keys l2). subst o. unfold keys.
  rewrite !map_app. auto.
Qed.

Lemma In_keys_assign (key : string) (v : Value) (o : Object) (k : string) :
  In k (keys (assign key v o)) <-> k = key \/ In k (keys o).
Proof.
  destruct (has_own key o) eqn:Hown.
  - rewrite keys_assign_own by exact Hown. apply has_own_In in Hown.
    split; [tauto |]. intros [-> | H]; assumption.
  - destruct (keys_assign_new key v o Hown) as (l1 & l2 & -> & ->).
    rewrite !in_app_iff. simpl. split; intro H; intuition auto.
Qed.

Lemma NoDup_keys_assign (key : string) (v : Value) (o : Object) :
  NoDup (keys o) -> NoDup (keys (assign key v o)).
Proof.
  intro H. destruct (has_own key o) eqn:Hown.
  - rewrite keys_assign_own by exact Hown. exact H.
  - apply has_own_not_In in Hown.
    destruct (keys_assign_new key v o) as (l1 & l2 & E & ->).
    { apply has_own_not_In. exact Hown. }
    rewrite E in H, Hown.
    apply (Permutation_NoDup (Permutation_middle l1 l2 key)).
    constructor; assumption.
Qed.

Lemma precedes_from_index (k1 k2 : string) (n : Z) :
  array_index k1 = Some n ->
  precedes k1 k2 = negb (index_below (n + 1) k2).
Proof.
  intro H. unfold precedes, index_below. rewrite H.
  destruct (array_index k2) as [m |]; [| reflexivity].
  destruct (Z.ltb_spec n m), (Z.ltb_spec m (n + 1)); simpl; try reflexivity;
    lia.
Qed.

Lemma precedes_from_name (k1 k2 : string) :
  array_index k1 = None -> precedes k1 k2 = negb (is_index k2).
Proof.
  intro H. unfold precedes, is_index. rewrite H.
  destruct (array_index k2); reflexivity.
Qed.

Lemma sorted_keys_assign (key : string) (v : Value) (o : Object) :
  StronglySorted (fun k1 k2 => precedes k1 k2 = true) (keys o) ->
  StronglySorted (fun k1 k2 => precedes k1 k2 = true) (keys (assign key v o)).
Proof.
  intro Hs. destruct (has_own key o) eqn:Hown.
  { rewrite keys_assign_own by exact Hown. exact Hs. }
  unfold assign. rewrite Hown.
  destruct (array_index key) as [n |] eqn:Hkey.
  - (* an array index *)
    induction o as [| [k w] o IH]; simpl in *.
    + repeat constructor.
    + apply orb_false_iff in Hown as [Hk Hown]. apply String.eqb_neq in Hk.
      apply StronglySorted_inv in Hs as [Hs Hall].
      destruct (array_index k) as [m |] eqn:Hm.
      * destruct (Z.ltb_spec m n) as [Hlt | Hge]; simpl.
        -- constructor; [exact (IH Hs Hown) |].
           apply Forall_forall. intros x Hx.
           destruct (insert_index_split n key v o) as (l1 & l2 & E & Hi & _).
           rewrite Hi in Hx. unfold keys in Hx. rewrite map_app in Hx.
           simpl in Hx. rewrite Forall_forall in Hall.
           apply in_app_iff in Hx as [Hx | [<- | Hx]].
           ++ apply Hall. subst o. unfold keys. rewrite map_app.
              apply in_app_iff. left. exact Hx.
           ++ unfold precedes. rewrite Hm, Hkey. apply Z.ltb_lt. exact Hlt.
           ++ apply Hall. subst o. unfold keys. rewrite map_app.
              apply in_app_iff. right. exact Hx.
        -- assert (Hnm : n < m).
           { destruct (Z.eq_dec n m) as [-> |]; [| lia].
             exfalso. apply Hk. apply (array_index_inj k key m); assumption. }
           constructor; [constructor; assumption |].
           constructor.
           ++ unfold precedes. rewrite Hkey, Hm. apply Z.ltb_lt. exact Hnm.
           ++ apply Forall_forall. intros x Hx.
              rewrite Forall_forall in Hall. specialize (Hall x Hx).
              rewrite (precedes_from_index k x m Hm) in Hall.
              rewrite (precedes_from_index key x n Hkey).
              unfold index_below in *.
              destruct (array_index x) as [i |]; [| reflexivity].
              apply negb_true_iff, Z.ltb_ge in Hall.
              apply negb_true_iff, Z.ltb_ge. lia.
      * simpl. constructor; [constructor; assumption |].
        constructor.
        -- unfold precedes. rewrite Hkey, Hm. reflexivity.
        -- apply Forall_forall. intros x Hx.
           rewrite Forall_forall in Hall. specialize (Hall x Hx).
           rewrite (precedes_from_name k x Hm) in Hall.
           unfold precedes. rewrite Hkey. unfold is_index in Hall.
           destruct (array_index x); [discriminate Hall | reflexivity].
  - (* another key *)
    clear Hown. induction o as [| [k w] o IH]; simpl in *.
    + repeat constructor.
    + apply StronglySorted_inv in Hs as [Hs Hall].
      constructor; [exact (IH Hs) |].
      unfold keys. rewrite map_app. apply Forall_app. split; [exact Hall |].
      constructor; [| constructor]. simpl.
      unfold precedes. rewrite Hkey. destruct (array_index k); reflexivity.
Qed.

Lemma proper_assign (key : string) (v : Value) (o : Object) :
  proper o -> proper (assign key v o).
Proof.
  intros [Hn Hs]. split.
  - apply NoDup_keys_assign. exact Hn.
  - apply sorted_keys_assign. exact Hs.
Qed.

Lemma filter_none {A} (f : A -> bool) (l : list A) :
  Forall (fun x => f x = false) l -> filter f l = [].
Proof.
  induction 1 as [| x l Hx _ IH]; simpl; [reflexivity |].
  rewrite Hx. exact IH.
Qed.

Lemma filter_all {A} (f : A -> bool) (l : list A) :
  Forall (fun x => f x = true) l -> filter f l = l.
Proof.
  induction 1 as [| x l Hx _ IH]; simpl; [reflexivity |].
  rewrite Hx, IH. reflexivity.
Qed.

(** In a sorted list, after a key that is no array index below [n] comes
    no such index. *)
Lemma sorted_tail_not_below (n : Z) (k : string) (l : list string) :
  StronglySorted (fun k1 k2 => precedes k1 k2 = true) (k :: l) ->
  index_below n k = false ->
  Forall (fun x => index_below n x = false) (k :: l).
Proof.
  intros Hs Hk. apply StronglySorted_inv in Hs as [_ Hall].
  constructor; [exact Hk |].
  apply Forall_impl with (2 := Hall). intros x Hx.
  unfold index_below, precedes in *.
  destruct (array_index k) as [m |], (array_index x) as [i |];
    try reflexivity; try discriminate.
  apply Z.ltb_lt in Hx. apply Z.ltb_ge in Hk. apply Z.ltb_ge. lia.
Qed.

(** The keys after a new array index goes in: those below it, the new
    one, the others. *)
Lemma keys_assign_index (key : string) (v : Value) (o : Object) (n : Z) :
  proper o -> has_own key o = false -> array_index key = Some n ->
  keys (assign key v o)
  = filter (index_below n) (keys o)
    ++ key :: filter (fun k => negb (index_below n k)) (keys o).
Proof.
  intros [_ Hs] Hown Hkey.
  destruct (assign_new_split key v o Hown) as (l1 & l2 & E & -> & Hsplit).
  rewrite Hkey in Hsplit. destruct Hsplit as [H1 H2].
  subst o. unfold keys in *. rewrite !map_app in *. simpl.
  rewrite !filter_app.
  assert (Hl2 : Forall (fun x => index_below n x = false) (map fst l2)).
  { destruct l2 as [| [k w] l2]; [constructor |].
    simpl. apply sorted_tail_not_below; [| exact H2].
    clear - Hs. induction l1 as [| a l1 IH]; simpl in Hs; [exact Hs |].
    apply StronglySorted_inv in Hs as [Hs _]. exact (IH Hs). }
  rewrite (filter_all _ _ H1), (filter_none _ _ Hl2), app_nil_r.
  rewrite (filter_none (fun k => negb (index_below n k)) (map fst l1)).
  - rewrite (filter_all (fun k => negb (index_below n k)) (map fst l2)).
    + reflexivity.
    + apply Forall_impl with (2 := Hl2). intros x ->. reflexivity.
  - apply Forall_impl with (2 := H1). intros x ->. reflexivity.
Qed.

Lemma names_assign (key : string) (v : Value) (o : Object) :
  filter (fun k => negb (is_index k)) (keys (assign key v o))
  = if has_own key o || is_index key
    then filter (fun k => negb (is_index k)) (keys o)
    else filter (fun k => negb (is_index k)) (keys o) ++ [key].
Proof.
  destruct (has_own key o) eqn:Hown; simpl.
  - rewrite keys_assign_own by exact Hown. reflexivity.
  - destruct (assign_new_split key v o Hown) as (l1 & l2 & E & -> & H).
    subst o. unfold keys. rewrite !map_app, !filter_app.
    cbn [map fst filter].
    destruct (is_index key) eqn:Hi; unfold is_index in Hi;
      destruct (array_index key); try discriminate Hi; cbn [negb].
    + reflexivity.
    + subst l2. simpl. rewrite !app_nil_r. reflexivity.
Qed.

(** *** The object of a list of members *)

Lemma object_of_proper (members : list (string * Value)) :
  forall acc, proper acc ->
    proper (fold_left (fun o member => assign (fst member) (snd member) o)
                      members acc).
Proof.
  induction members as [| [k v] ms IH]; intros acc H; simpl; [exact H |].
  apply IH, proper_assign, H.
Qed.

Lemma object_of_In (members : list (string * Value)) :
  forall acc k,
    In k (keys (fold_left (fun o member => assign (fst member) (snd member) o)
                          members acc))
    <-> In k (keys acc) \/ In k (map fst members).
Proof.
  induction members as [| [k1 v1] ms IH]; intros acc k; simpl; [tauto |].
  rewrite IH, In_keys_assign. split; intro H; intuition auto.
Qed.

Lemma object_of_names (members : list (string * Value)) :
  forall acc,
    NoDup (map fst members) ->
    (forall k, In k (map fst members) -> ~ In k (keys acc)) ->
    filter (fun k => negb (is_index k))
           (keys (fold_left
                    (fun o member => assign (fst member) (snd member) o)
                    members acc))
    = filter (fun k => negb (is_index k)) (keys acc)
      ++ filter (fun k => negb (is_index k)) (map fst members).
Proof.
  induction members as [| [k1 v1] ms IH]; intros acc Hn Hfresh; simpl.
  - rewrite app_nil_r. reflexivity.
  - simpl in Hn. apply NoDup_cons_iff in Hn as [Hk1 Hn].
    rewrite IH; [| exact Hn |].
    + rewrite names_assign.
      assert (Hown : has_own k1 acc = false).
      { apply has_own_not_In. apply Hfresh. left. reflexivity. }
      rewrite Hown. simpl.
      destruct (is_index k1); simpl; [reflexivity |].
      rewrite <- app_assoc. reflexivity.
    + intros k Hk Hin. apply In_keys_assign in Hin as [-> | Hin].
      * contradiction.
      * apply (Hfresh k); [right; exact Hk | exact Hin].
Qed.

Lemma object_of_lookup_from (members : list (string * Value)) :
  forall acc k,
    NoDup (map fst members) ->
    lookup k (fold_left (fun o member => assign (fst member) (snd member) o)
                        members acc)
    = if has_own k members then lookup k members else lookup k acc.
Proof.
  induction members as [| [k1 v1] ms IH]; intros acc k Hn; simpl;
    [reflexivity |].
  simpl in Hn. apply NoDup_cons_iff in Hn as [Hk1 Hn].
  rewrite IH by exact Hn. rewrite lookup_assign.
  rewrite (String.eqb_sym k k1).
  destruct (String.eqb k1 k) eqn:E; simpl; [| reflexivity].
  apply String.eqb_eq in E. subst k.
  assert (H : has_own k1 ms = false) by (apply has_own_not_In; exact Hk1).
  rewrite H. reflexivity.
Qed.

Lemma proper_empty : proper [].
Proof. split; constructor. Qed.

(** The keys of the object made of members with distinct names: the names
    as an object enumerates them. *)
Lemma object_of_enumerates (members : list (string * Value)) :
  NoDup (map fst members) ->
  enumerates (map fst members) (keys (object_of members)).
Proof.
  intro Hn. unfold enumerates, object_of. split; [| split].
  - apply object_of_proper, proper_empty.
  - intro col. rewrite object_of_In. simpl. tauto.
  - rewrite object_of_names; [reflexivity | exact Hn |].
    intros k _ [].
Qed.

Lemma object_of_lookup (members : list (string * Value)) (k : string) :
  NoDup (map fst members) ->
  lookup k (object_of members) = lookup k members.
Proof.
  intro Hn. unfold object_of. rewrite object_of_lookup_from by exact Hn.
  destruct (has_own k members) eqn:H; [reflexivity |].
  simpl. symmetry. apply lookup_absent. exact H.
Qed.

Lemma values_lookup (o : Object) :
  NoDup (keys o) -> values o = map (fun k => lookup k o) (keys o).
Proof.
  induction o as [| [k w] o IH]; simpl; intro Hn; [reflexivity |].
  apply NoDup_cons_iff in Hn as [Hk Hn].
  rewrite String.eqb_refl. f_equal.
  rewrite (IH Hn). apply map_ext_in. intros k' Hk'.
  destruct (String.eqb k k') eqn:E; [| reflexivity].
  apply String.eqb_eq in E. subst k'. contradiction.
Qed.

Lemma lookup_In (k : string) (o : Object) :
  In k (keys o) -> In (lookup k o) (values o).
Proof.
  induction o as [| [k1 w] o IH]; simpl; [tauto |].
  intros [-> | H].
  - rewrite String.eqb_refl. left. reflexivity.
  - destruct (String.eqb k1 k); [left; reflexivity | right; exact (IH H)].
Qed.

(** Names none of which is an array index are enumerated in their own
    order. *)
Lemma enumerates_plain (names cols : list string) :
  enumerates names cols ->
  (forall col, In col names -> array_index col = None) ->
  cols = names.
Proof.
  intros (_ & Hin & Hf) Hplain.
  rewrite (filter_all _ names) in Hf.
  - rewrite (filter_all _ cols) in Hf; [exact Hf |].
    apply Forall_forall. intros col Hcol. apply Hin in Hcol.
    unfold is_index. rewrite (Hplain col Hcol). reflexivity.
  - apply Forall_forall. intros col Hcol.
    unfold is_index. rewrite (Hplain col Hcol). reflexivity.
Qed.

(** The keys of the object depend on the names of the members alone. *)
Lemma keys_overwrite_any (key : string) (v : Value) (o : Object) :
  keys (if has_own key o then overwrite key v o else o) = keys o.
Proof. destruct (has_own key o); [apply keys_overwrite | reflexivity]. Qed.

Lemma has_own_keys (key : string) (o1 o2 : Object) :
  keys o1 = keys o2 -> has_own key o1 = has_own key o2.
Proof.
  intro H. destruct (has_own key o2) eqn:E.
  - apply has_own_In. rewrite H. apply has_own_In. exact E.
  - apply has_own_not_In. rewrite H. apply has_own_not_In. exact E.
Qed.

Lemma keys_insert_index_ext (n : Z) (key : string) (v1 v2 : Value) :
  forall o1 o2, keys o1 = keys o2 ->
    keys (insert_index n key v1 o1) = keys (insert_index n key v2 o2).
Proof.
  induction o1 as [| [k1 w1] o1 IH]; intros [| [k2 w2] o2] H;
    simpl in H; try discriminate H; [reflexivity |].
  injection H as -> H. simpl.
  destruct (array_index k2) as [m |].
  - destruct (m <? n); simpl; f_equal; auto. f_equal. exact H.
  - simpl. f_equal. f_equal. exact H.
Qed.

Lemma keys_assign_ext (key : string) (v1 v2 : Value) (o1 o2 : Object) :
  keys o1 = keys o2 -> keys (assign key v1 o1) = keys (assign key v2 o2).
Proof.
  intro H. unfold assign. rewrite (has_own_keys key o1 o2 H).
  destruct (has_own key o2).
  - rewrite !keys_overwrite. exact H.
  - destruct (array_index key).
    + apply keys_insert_index_ext. exact H.
    + unfold keys in *. rewrite !map_app, H. reflexivity.
Qed.

Lemma keys_object_of_ext (m1 : list (string * Value)) :
  forall m2 acc1 acc2,
    map fst m1 = map fst m2 -> keys acc1 = keys acc2 ->
    keys (fold_left (fun o member => assign (fst member) (snd member) o)
                    m1 acc1)
    = keys (fold_left (fun o member => assign (fst member) (snd member) o)
                      m2 acc2).
Proof.
  induction m1 as [| [k1 v1] m1 IH]; intros [| [k2 v2] m2] acc1 acc2 Hm Hacc;
    simpl in Hm; try discriminate Hm; simpl; [exact Hacc |].
  injection Hm as -> Hm. apply IH; [exact Hm |].
  apply keys_assign_ext. exact Hacc.
Qed.

Lemma Forall2_map_left {A B C} (R : B -> C -> Prop) (f : A -> B) :
  forall (l : list A) (l' : list C),
    Forall2 R (map f l) l' -> Forall2 (fun x y => R (f x) y) l l'.
Proof.
  induction l as [| x l IH]; intros l' H; inversion H; subst; constructor;
    auto.
Qed.

(** ** The preview table *)

Lemma cell_scalar (v : Value) :
  scalar v = true -> exists t, cell v = Ok t.
Proof.
  destruct v as [| |[]| | | |]; try discriminate; simpl; eauto.
Qed.

Lemma Forall2_with_Forall {A B} (P : A -> Prop) (R : A -> B -> Prop) :
  forall l l', Forall P l -> Forall2 R l l' ->
    Forall2 (fun x y => P x /\ R x y) l l'.
Proof.
  intros l l' HP HR. induction HR as [| x y l l' Hxy _ IH]; constructor.
  - split; [exact (Forall_inv HP) | exact Hxy].
  - apply IH. exact (Forall_inv_tail HP).
Qed.

(** The values of the object of a row, column by column. *)
Lemma values_object_of (row : list (string * Value)) :
  NoDup (map fst row) ->
  values (object_of row)
  = map (fun col => lookup col row) (keys (object_of row)).
Proof.
  intro Hn. destruct (object_of_enumerates row Hn) as [[Hnd _] _].
  rewrite (values_lookup _ Hnd). apply map_ext. intro col.
  apply object_of_lookup. exact Hn.
Qed.

(** C7, as stated, fails: a cell holding the number Infinity - what
    [JSON.parse] makes of 1e999 - shows its string conversion, which is not
    empty. *)
Lemma C7_infinite_cell_is_not_empty :
  ~ (forall v : Value, missing v \/ non_finite v -> cell v = Ok "").
Proof.
  intro H.
  specialize (H (Num Infinity) (or_intror (or_intror (or_introl eq_refl)))).
  discriminate H.
Qed.

(** C7, amended: in the preview table a missing cell value (null or
    undefined) shows as the empty string and every other value as its
    string conversion - a number that is not finite as 'NaN', 'Infinity' or
    '-Infinity', not as the empty string.  The columns come as the objects
    parsed from the row-maps enumerate their keys: the names that are array
    indices first, in ascending order, then the other names in the order
    the row-map has them - the row-map's own order when no name is an array
    index.  The header is the names of the first row-map in that order;
    each body row is the cells of its row-map's values in that order of its
    own names, which is the header's when the row-map has the names of the
    first, in the same order. *)
Theorem C7_preview_cells :
  (forall v, missing v -> cell v = Ok "")
  /\ (forall v, ~ missing v -> cell v = to_str v)
  /\ (forall n, cell (Num n) = Ok (to_string n))
  /\ (forall s, cell (Str s) = Ok s)
  /\ cell (Num NaN) = Ok "NaN"
  /\ cell (Num Infinity) = Ok "Infinity"
  /\ cell (Num NegInfinity) = Ok "-Infinity"
  /\ (forall md first rest,
        preview md = map object_of (first :: rest) ->
        Forall (fun row => NoDup (map fst row)
                           /\ forallb scalar (map snd row) = true)
               (first :: rest) ->
        exists header body,
          previewTable md = Ok (Some {| header := header; body := body |})
          /\ enumerates (map fst first) header
          /\ ((forall col, In col (map fst first) -> array_index col = None) ->
              header = map fst first)
          /\ Forall2 (fun row cells =>
                        exists cols,
                          enumerates (map fst row) cols
                          /\ (map fst row = map fst first -> cols = header)
                          /\ Forall2 (fun col shown =>
                                        cell (lookup col row) = Ok shown)
                                     cols cells)
                     (first :: rest) body).
Proof.
  repeat split; try reflexivity.
  - intros v [-> | ->]; reflexivity.
  - intros v Hv. destruct v; try reflexivity; exfalso; apply Hv;
      [left | right]; reflexivity.
  - intros md first rest Hpreview Hrows. unfold previewTable.
    destruct (traverse_total (fun row => traverse cell (values row))
                             (preview md)) as [body Hbody].
    { intros o Ho. rewrite Hpreview in Ho.
      apply in_map_iff in Ho as (row & <- & Hrow).
      rewrite Forall_forall in Hrows.
      destruct (Hrows row Hrow) as [Hn Hscalar].
      rewrite forallb_forall in Hscalar.
      rewrite (values_object_of row Hn).
      apply traverse_total. intros v Hv.
      apply in_map_iff in Hv as (col & <- & Hcol).
      apply cell_scalar, Hscalar.
      apply (lookup_In col row).
      destruct (object_of_enumerates row Hn) as (_ & Hin & _).
      apply Hin. exact Hcol. }
    assert (Hfirst : NoDup (map fst first)).
    { exact (proj1 (Forall_inv Hrows)). }
    exists (keys (object_of first)), body.
    rewrite Hbody. rewrite Hpreview at 1. simpl.
    split; [reflexivity |].
    split; [apply object_of_enumerates; exact Hfirst |].
    split.
    { intro Hplain.
      apply enumerates_plain; [apply object_of_enumerates |]; assumption. }
    apply traverse_inv in Hbody. rewrite Hpreview in Hbody.
    apply Forall2_map_left in Hbody.
    apply (Forall2_with_Forall _ _ _ _ Hrows) in Hbody.
    apply Forall2_impl with (2 := Hbody).
    intros row cells [[Hn _] Hcells].
    exists (keys (object_of row)).
    split; [apply object_of_enumerates; exact Hn |].
    split.
    { intro Hsame. unfold object_of.
      apply keys_object_of_ext; [exact Hsame | reflexivity]. }
    apply traverse_inv in Hcells.
    rewrite (values_object_of row Hn) in Hcells.
    apply Forall2_map_left in Hcells. exact Hcells.
Qed.

(** C7 at work: rows with two columns named by a year.  The years come
    first and ascending, and the cell of the infinite value is not
    empty. *)
Lemma C7_preview_cells_witness :
  exists header body,
    previewTable yearly_metadata
    = Ok (Some {| header := header; body := body |})
    /\ enumerates ["region"; "2021"; "2020"; "notes"] header
    /\ Forall2 (fun row cells =>
                  exists cols,
                    enumerates (map fst row) cols
                    /\ Forall2 (fun col shown =>
                                  cell (lookup col row) = Ok shown)
                               cols cells)
               yearly_rows body.
Proof.
  destruct C7_preview_cells as (_ & _ & _ & _ & _ & _ & _ & Htable).
  destruct (Htable yearly_metadata
              [("region", Str "north"); ("2021", Num (lit "12.5"));
               ("2020", Num (lit "11")); ("notes", Null)]
              [[("region", Str "south"); ("2021", Num (lit "7"));
                ("2020", Num Infinity); ("notes", Str "estimate")]])
    as (header & body & Hview & Hheader & _ & Hbody).
  - reflexivity.
  - repeat (constructor;
            [split; [| reflexivity];
             repeat (constructor; [simpl; intuition discriminate |]);
             constructor |]).
    constructor.
  - exists header, body. split; [exact Hview |]. split; [exact Hheader |].
    apply Forall2_impl with (2 := Hbody).
    intros row cells (cols & Hcols & _ & Hcells). exists cols. auto.
Defined.

Example yearly_preview :
  previewTable yearly_metadata
  = Ok (Some {| header := ["2020"; "2021"; "region"; "notes"];
                body := [["11"; "12.5"; "north"; ""];
                         ["Infinity"; "7"; "south"; "estimate"]] |}).
Proof. vm_compute. reflexivity. Qed.

Example iris_preview :
  previewTable iris_metadata
  = Ok (Some {| header := ["sepal_length"; "sepal_width"; "species"];
                body := [["5.1"; "3.5"; "setosa"]; ["4.9"; ""; "setosa"]] |}).
Proof. vm_compute. reflexivity. Qed.

Example iris_run_request :
  snd (run start [ChooseFile; UploadEnds (inr iris_metadata); ClickNext;
                  ClickAdd standard_scaler "k3j9x0q1z"; ClickNext;
                  Slide "0.3"; ClickNext;
                  ClickModel logistic_regression; ClickNext])
  = [ {| datasetName := "iris.csv";
         steps :=
           [ {| id := "k3j9x0q1z"; type := OfPreprocessing standard_scaler;
                params := [] |};
             {| id := "split"; type := train_test_split;
                params := [("test_size", Num (lit "0.3"))] |};
             {| id := "model-step"; type := OfModel logistic_regression;
                params := [("C", Num (lit "1.0"))] |} ] |} ].
Proof. vm_compute. reflexivity. Qed.

(** * More properties *)

(** ** Parameters of a step *)

(** X1: [updateModelParam] does nothing while no model is selected; on a
    selected model it keeps the id and the type, makes the parameter read
    as the value given and leaves every other parameter as it reads.  The
    keys stay as they are when the parameter is one of them; a new
    parameter becomes a key, the last one unless its name is an array
    index: such a name goes among the array indices, which come first and
    ascending, after those below it. *)
Theorem updateModelParam_sets_one_parameter :
  forall (param : string) (value : Value) (s : State),
    match selectedModel s with
    | None => updateModelParam param value s = s
    | Some m =>
        exists m',
          selectedModel (updateModelParam param value s) = Some m'
          /\ id m' = id m
          /\ type m' = type m
          /\ lookup param (params m') = value
          /\ (forall key, key <> param ->
                lookup key (params m') = lookup key (params m))
          /\ (forall key, In key (keys (params m'))
                          <-> key = param \/ In key (keys (params m)))
          /\ (has_own param (params m) = true ->
              keys (params m') = keys (params m))
          /\ (has_own param (params m) = false ->
              array_index param = None ->
              keys (params m') = keys (params m) ++ [param])
          /\ (proper (params m) ->
              proper (params m')
              /\ forall n,
                   has_own param (params m) = false ->
                   array_index param = Some n ->
                   keys (params m')
                   = filter (index_below n) (keys (params m))
                     ++ param :: filter (fun k => negb (index_below n k))
                                        (keys (params m)))
    end.
Proof.
  intros param value s. unfold updateModelParam.
  destruct (selectedModel s) as [m |]; [| reflexivity].
  eexists. split; [reflexivity |]. simpl.
  split; [reflexivity |]. split; [reflexivity |].
  split; [rewrite lookup_assign, String.eqb_refl; reflexivity |].
  split.
  { intros key Hkey. rewrite lookup_assign.
    apply String.eqb_neq in Hkey. rewrite Hkey. reflexivity. }
  split; [intro key; apply In_keys_assign |].
  split; [apply keys_assign_own |].
  split.
  { intros Hown Hname.
    destruct (assign_new_split param value (params m) Hown)
      as (l1 & l2 & E & -> & H).
    rewrite Hname in H. subst l2. rewrite E, app_nil_r.
    unfold keys. rewrite map_app. reflexivity. }
  intro Hproper. split; [apply proper_assign; exact Hproper |].
  intros n Hown Hindex. apply keys_assign_index; assumption.
Qed.

(** X2: [updatePreprocessingParam] keeps the steps, their order, ids and
    types; the steps of the given id get the parameter set, and nothing
    else in any step reads differently. *)
Theorem updatePreprocessingParam_sets_matching_steps :
  forall (i param : string) (value : Value) (s : State),
    let before := preprocessingSteps s in
    let after := preprocessingSteps (updatePreprocessingParam i param value s) in
    map id after = map id before
    /\ map type after = map type before
    /\ Forall2 (fun st st' =>
                  forall key,
                    lookup key (params st')
                    = if String.eqb (id st) i && String.eqb key param
                      then value else lookup key (params st))
               before after.
Proof.
  intros i param value s. simpl.
  induction (preprocessingSteps s) as [| st l (IH1 & IH2 & IH3)]; simpl.
  - repeat split. constructor.
  - destruct (String.eqb (id st) i) eqn:E; simpl;
      (split; [f_equal; exact IH1 |]); (split; [f_equal; exact IH2 |]);
      constructor; try exact IH3; intro key.
    + simpl. rewrite E. simpl. apply lookup_assign.
    + rewrite E. reflexivity.
Qed.

(** ** Removing a step *)

(** X3: [removePreprocessingStep] takes out every step of the given id and
    no other: the steps left are those of other ids, in their order (the
    list is unchanged when no step has the id), and removing again changes
    nothing. *)
Theorem removePreprocessingStep_removes_the_id :
  forall (i : string) (s : State),
    let before := preprocessingSteps s in
    let after := preprocessingSteps (removePreprocessingStep i s) in
    (forall st, In st after <-> In st before /\ id st <> i)
    /\ after = filter (fun st => negb (String.eqb (id st) i)) before
    /\ ((forall st, In st before -> id st <> i) -> after = before)
    /\ (List.length after <= List.length before)%nat
    /\ preprocessingSteps
         (removePreprocessingStep i (removePreprocessingStep i s)) = after.
Proof.
  intros i s. simpl.
  split; [| split; [reflexivity | split; [| split]]].
  - intro st. rewrite filter_In, negb_true_iff, String.eqb_neq. reflexivity.
  - intro H. induction (preprocessingSteps s) as [| st l IH]; simpl;
      [reflexivity |].
    destruct (String.eqb (id st) i) eqn:E; simpl.
    + apply String.eqb_eq in E. exfalso. apply (H st); simpl; auto.
    + f_equal. apply IH. intros st' Hst'. apply H. right. exact Hst'.
  - apply filter_length_le.
  - induction (preprocessingSteps s) as [| st l IH]; simpl; [reflexivity |].
    destruct (String.eqb (id st) i) eqn:E; simpl; [exact IH |].
    rewrite E. simpl. f_equal. exact IH.
Qed.

(** X3 at work: no step of the two has the id, and none goes. *)
Lemma removePreprocessingStep_removes_the_id_witness :
  let s := addPreprocessingStep drop_nulls "b"
             (addPreprocessingStep standard_scaler "a" initial) in
  preprocessingSteps (removePreprocessingStep "c" s) = preprocessingSteps s.
Proof.
  intro s.
  apply (proj1 (proj2 (proj2 (removePreprocessingStep_removes_the_id "c" s)))).
  intros st [<- | [<- | []]]; discriminate.
Defined.

(** X1 at work: a parameter named 1 given to a selected decision tree
    comes before max_depth. *)
Lemma updateModelParam_sets_one_parameter_witness :
  exists m',
    selectedModel (updateModelParam "1" (Num (lit "7"))
                     (selectModel decision_tree_classifier initial)) = Some m'
    /\ type m' = OfModel decision_tree_classifier
    /\ lookup "1" (params m') = Num (lit "7")
    /\ keys (params m') = ["1"; "max_depth"].
Proof.
  destruct (updateModelParam_sets_one_parameter "1" (Num (lit "7"))
              (selectModel decision_tree_classifier initial))
    as (m' & Hm' & _ & Htype & Hvalue & _ & _ & _ & _ & Hkeys).
  exists m'. split; [exact Hm' |]. split; [exact Htype |].
  split; [exact Hvalue |].
  destruct Hkeys as [_ Hkeys].
  - split; repeat constructor. simpl. tauto.
  - apply (Hkeys 1); reflexivity.
Defined.

(** X4: a step added under an id that no step has yet goes last, with its
    template's default parameters, and removing that id gives the list as
    it was before. *)
Theorem add_then_remove_restores_the_steps :
  forall (t : PreprocessingType) (random_id : string) (s : State),
    (forall st, In st (preprocessingSteps s) -> id st <> random_id) ->
    let added := addPreprocessingStep t random_id s in
    preprocessingSteps added
    = preprocessingSteps s ++
      [ {| id := random_id; type := OfPreprocessing t;
           params := defaultParams (STEP_TEMPLATES (OfPreprocessing t)) |} ]
    /\ preprocessingSteps (removePreprocessingStep random_id added)
       = preprocessingSteps s.
Proof.
  intros t random_id s Hfresh. simpl. split; [reflexivity |].
  rewrite filter_app. simpl. rewrite String.eqb_refl. simpl.
  rewrite app_nil_r.
  induction (preprocessingSteps s) as [| st l IH]; simpl; [reflexivity |].
  destruct (String.eqb (id st) random_id) eqn:E.
  - apply String.eqb_eq in E. exfalso. apply (Hfresh st); simpl; auto.
  - simpl. f_equal. apply IH. intros st' Hst'. apply Hfresh. right. exact Hst'.
Qed.

(** X4 at work: a min_max_scaler added after a standard_scaler and taken
    out again. *)
Lemma add_then_remove_restores_the_steps_witness :
  let s := addPreprocessingStep standard_scaler "a1b2c3d4e" initial in
  preprocessingSteps
    (removePreprocessingStep "z9y8x7w6v"
       (addPreprocessingStep min_max_scaler "z9y8x7w6v" s))
  = preprocessingSteps s.
Proof.
  intro s.
  apply (add_then_remove_restores_the_steps min_max_scaler "z9y8x7w6v" s).
  intros st [<- | []]. discriminate.
Defined.

(** ** What sends a request *)

(** X5: Next on step 4 with a model selected sends one request, with the
    name of the dataset ('Unknown' for none) and the steps built from the
    state; and nothing else sends a request: an event sends one only if it
    is that Next.  The request has a dataset name that is not empty; the
    click raises the running flag, clears the results and leaves the step
    where it is until the run ends. *)
Theorem only_run_training_sends_a_request :
  forall (w : World) (e : Event),
    (forall selected,
       e = ClickNext ->
       currentStep (ui w) = 4 ->
       selectedModel (ui w) = Some selected ->
       snd (dispatch w e)
       = [ {| datasetName := requestName (ui w);
              steps := preprocessingSteps (ui w)
                       ++ [splitStep (ui w); selected] |} ])
    /\ (forall request,
          In request (snd (dispatch w e)) ->
          e = ClickNext
          /\ currentStep (ui w) = 4
          /\ (exists selected,
                selectedModel (ui w) = Some selected
                /\ steps request = fullSteps (ui w) selected)
          /\ snd (dispatch w e) = [request]
          /\ datasetName request <> ""
          /\ isRunning (ui (fst (dispatch w e))) = true
          /\ results (ui (fst (dispatch w e))) = None
          /\ currentStep (ui (fst (dispatch w e))) = 4
          /\ waiting (fst (dispatch w e)) = waiting w ++ [4]).
Proof.
  intros [s pend] e. split.
  { intros selected -> H4 Hsel. simpl in H4, Hsel.
    unfold dispatch, handleNext_start, runPipeline_start; simpl.
    rewrite H4, Hsel. reflexivity. }
  intros request Hin.
  destruct e; simpl in Hin; try contradiction.
  unfold dispatch, handleNext_start, runPipeline_start in *; simpl in *.
  destruct (Z.eqb_spec (currentStep s) 4) as [H4 | H4];
    [| simpl in Hin; contradiction].
  destruct (selectedModel s) as [selected |] eqn:Hsel;
    simpl in Hin; [| contradiction].
  destruct Hin as [<- | []]. simpl.
  repeat split; try assumption; try (rewrite H4; reflexivity).
  - exists selected. split; reflexivity.
  - unfold requestName. destruct (datasetMetadata s) as [md |];
      [| discriminate].
    destruct (String.eqb (filename md) "") eqn:E; [discriminate |].
    apply String.eqb_neq. exact E.
Qed.

(** X5 at work: Run Training in the world where a model was just picked. *)
Lemma only_run_training_sends_a_request_witness :
  let w := fst (run start [ChooseFile; UploadEnds (inr iris_metadata);
                           ClickNext; ClickNext; ClickNext;
                           ClickModel decision_tree_classifier]) in
  snd (dispatch w ClickNext)
  = [ {| datasetName := "iris.csv";
         steps :=
           [ {| id := "split"; type := train_test_split;
                params := [("test_size", Num (lit "0.2"))] |};
             {| id := "model-step"; type := OfModel decision_tree_classifier;
                params := [("max_depth", Num (lit "5"))] |} ] |} ].
Proof.
  intro w.
  rewrite (proj1 (only_run_training_sends_a_request w ClickNext)
             {| id := "model-step"; type := OfModel decision_tree_classifier;
                params := [("max_depth", Num (lit "5"))] |}
             eq_refl eq_refl eq_refl).
  reflexivity.
Defined.

(** X6: whatever the events, while the running flag is up some
    [handleNext] is waiting for its request: the flag comes down when a
    run ends, and only then. *)
Theorem running_means_a_request_is_under_way :
  forall events,
    let w := fst (run start events) in
    isRunning (ui w) = true -> waiting w <> [].
Proof.
  intro events.
  apply (run_keeps (fun _ => true)
           (fun w => isRunning (ui w) = true -> waiting w <> [])
           (fun _ => True)).
  - intros [s pend] e _ Hw. simpl in Hw.
    split; [| apply Forall_forall; intros; exact I].
    destruct e; simpl; try exact Hw.
    + unfold handleNext_start, runPipeline_start; simpl.
      destruct (currentStep s =? 4).
      * destruct (selectedModel s); simpl.
        -- intros _ H. apply app_eq_nil in H as [_ H]. discriminate H.
        -- destruct (advance_rest (currentStep s) s) as (_ & _ & _ & -> & _).
           exact Hw.
      * simpl.
        destruct (advance_rest (currentStep s) s) as (_ & _ & _ & -> & _).
        exact Hw.
    + unfold handleBack. destruct (1 <? currentStep s); exact Hw.
    + unfold updateModelParam. destruct (selectedModel s); exact Hw.
    + destruct r; exact Hw.
    + unfold handleNext_resume; simpl.
      destruct (nth_error pend k) as [seen |]; simpl; [| exact Hw].
      destruct (advance_rest seen (runPipeline_finish o s))
        as (_ & _ & _ & -> & _).
      simpl. discriminate.
  - apply forallb_any.
  - simpl. discriminate.
Qed.

(** X6 at work: the world right after Run Training. *)
Lemma running_means_a_request_is_under_way_witness :
  waiting (fst (run start [ChooseFile; UploadEnds (inr iris_metadata);
                           ClickNext; ClickNext; ClickNext;
                           ClickModel logistic_regression; ClickNext]))
  <> [].
Proof.
  apply (running_means_a_request_is_under_way
           [ChooseFile; UploadEnds (inr iris_metadata);
            ClickNext; ClickNext; ClickNext;
            ClickModel logistic_regression; ClickNext]).
  reflexivity.
Defined.

(** ** Runs the rendered wizard offers *)

Lemma fst_run_cons (w : World) (e : Event) (more : list Event) :
  fst (run w (e :: more)) = fst (run (fst (dispatch w e)) more).
Proof.
  simpl. destruct (dispatch w e) as [w1 sent1]. simpl.
  destruct (run w1 more). reflexivity.
Qed.

Ltac settle_invariant :=
  simpl in *; subst; simpl in *;
  try match goal with
      | H : 2 <= ?c -> _ |- _ =>
          let P := fresh in assert (P : 2 <= c) by lia; specialize (H P)
      end;
  intuition (subst; simpl in *; try lia; try congruence).

Lemma offered_keeps_invariant (uploads : nat) (w : World) (e : Event) :
  offered uploads w e = true ->
  wizard_invariant uploads w ->
  wizard_invariant (uploads_after uploads e) (fst (dispatch w e)).
Proof.
  destruct w as [[c pre ts sel running res md err upl] pend].
  unfold wizard_invariant, step_in_range; simpl.
  intros Hoff (Hc & Hrun & Hup & Hmd).
  destruct e; simpl in *; unfold controls in Hoff; simpl in Hoff;
    try discriminate Hoff.
  - (* Next *)
    destruct (Z.ltb_spec c 5) as [H5 | H5]; [| discriminate Hoff].
    apply negb_true_iff, orb_false_iff in Hoff as [Hoff Hmodel].
    apply orb_false_iff in Hoff as [Hnot Hdata].
    unfold handleNext_start, runPipeline_start, advance; simpl.
    destruct (Z.eqb_spec c 4) as [H4 | H4]; simpl in *.
    + destruct sel as [m |]; [| discriminate Hmodel]. settle_invariant.
    + destruct (Z.ltb_spec c 5); [| lia].
      destruct (Z.eqb_spec c 1) as [H1 | H1]; simpl in Hdata.
      * destruct md as [d |]; [| discriminate Hdata]. settle_invariant.
      * settle_invariant.
  - (* Back *)
    apply negb_true_iff, orb_false_iff in Hoff as [H1 Hnot].
    apply Z.eqb_neq in H1. unfold handleBack; simpl.
    destruct (Z.ltb_spec 1 c); [| lia]. settle_invariant.
  - (* Start Over *)
    apply Z.eqb_eq in Hoff. settle_invariant.
  - (* add *) settle_invariant.
  - (* remove *) settle_invariant.
  - (* a model card *) settle_invariant.
  - (* the slider *) settle_invariant.
  - (* Change *)
    apply andb_true_iff in Hoff as [H1 _]. apply Z.eqb_eq in H1.
    settle_invariant.
  - (* a file is chosen *)
    apply andb_true_iff in Hoff as [Hoff Hupl].
    apply andb_true_iff in Hoff as [H1 Hdata].
    apply Z.eqb_eq in H1. apply negb_true_iff in Hupl.
    destruct md; [discriminate Hdata |]. settle_invariant.
  - (* the upload ends *)
    apply Nat.ltb_lt in Hoff. destruct r; settle_invariant.
  - (* the run ends *)
    apply Nat.ltb_lt in Hoff. unfold handleNext_resume; simpl.
    destruct Hrun as [[-> _] | (-> & -> & ->)]; [simpl in Hoff; lia |].
    destruct k as [| k]; [| simpl in Hoff; lia].
    settle_invariant.
Qed.

Lemma offered_run_keeps_invariant (events : list Event) :
  forall uploads w,
    offered_all uploads w events = true ->
    wizard_invariant uploads w ->
    wizard_invariant (uploads_after_all uploads events) (fst (run w events)).
Proof.
  induction events as [| e more IH]; intros uploads w Hoff Hw.
  - exact Hw.
  - simpl in Hoff. apply andb_true_iff in Hoff as [He Hmore].
    rewrite fst_run_cons. simpl.
    apply IH; [exact Hmore |].
    apply offered_keeps_invariant; assumption.
Qed.

Lemma start_invariant : wizard_invariant 0 start.
Proof.
  unfold wizard_invariant, step_in_range; simpl.
  intuition (try lia; try congruence).
Qed.

(** X7: in a run of offered events at most one request is under way; the
    running flag is up exactly while it is, the wizard then stays on step 4
    and offers neither Next nor Back, so that no second run can start
    before the first has ended. *)
Theorem one_run_at_a_time :
  forall events,
    offered_all 0 start events = true ->
    let w := fst (run start events) in
    let uploads := uploads_after_all 0 events in
    (List.length (waiting w) <= 1)%nat
    /\ (isRunning (ui w) = true <-> waiting w <> [])
    /\ (isRunning (ui w) = true ->
        currentStep (ui w) = 4
        /\ offered uploads w ClickNext = false
        /\ offered uploads w ClickBack = false
        /\ offered uploads w ClickStartOver = false).
Proof.
  intros events Hoff w uploads.
  pose proof (offered_run_keeps_invariant events 0 start Hoff start_invariant)
    as (_ & Hrun & _).
  fold w in Hrun.
  destruct Hrun as [[Hw Hr] | (Hw & Hr & Hc)]; rewrite Hw, Hr; simpl.
  - repeat split; try lia; try discriminate. intro H; contradiction.
  - repeat split; try lia; try discriminate; try assumption;
      unfold controls; rewrite Hr, Hc; reflexivity.
Qed.

(** X7 at work: the session up to the click on Run Training. *)
Lemma one_run_at_a_time_witness :
  let w := fst (run start session_until_run) in
  (List.length (waiting w) <= 1)%nat
  /\ (isRunning (ui w) = true <-> waiting w <> [])
  /\ (isRunning (ui w) = true ->
      currentStep (ui w) = 4
      /\ offered 0 w ClickNext = false
      /\ offered 0 w ClickBack = false
      /\ offered 0 w ClickStartOver = false).
Proof.
  apply (one_run_at_a_time session_until_run). vm_compute. reflexivity.
Defined.

Lemma offered_keeps_result (uploads : nat) (w : World) (e : Event) :
  offered uploads w e = true ->
  null_answer e = false ->
  wizard_invariant uploads w ->
  (currentStep (ui w) = 5 -> results (ui w) <> None) ->
  currentStep (ui (fst (dispatch w e))) = 5 ->
  results (ui (fst (dispatch w e))) <> None.
Proof.
  destruct w as [[c pre ts sel running res md err upl] pend].
  unfold wizard_invariant, step_in_range; simpl.
  intros Hoff Hnull (Hc & Hrun & Hup & Hmd) Hres.
  destruct e; simpl in *; unfold controls in Hoff; simpl in Hoff;
    try discriminate Hoff; try exact Hres.
  - (* Next *)
    destruct (Z.ltb_spec c 5) as [H5 | H5]; [| discriminate Hoff].
    apply negb_true_iff, orb_false_iff in Hoff as [Hoff Hmodel].
    unfold handleNext_start, runPipeline_start, advance; simpl.
    destruct (Z.eqb_spec c 4) as [H4 | H4]; simpl in *.
    + destruct sel as [m |]; [| discriminate Hmodel]. simpl. lia.
    + destruct (Z.ltb_spec c 5); [| lia]. simpl. lia.
  - (* Back *)
    apply negb_true_iff, orb_false_iff in Hoff as [H1 Hnot].
    apply Z.eqb_neq in H1. unfold handleBack; simpl.
    destruct (Z.ltb_spec 1 c); [| lia]. simpl. lia.
  - (* Start Over *) discriminate.
  - (* the upload ends *) destruct r; exact Hres.
  - (* the run ends *)
    apply Nat.ltb_lt in Hoff. unfold handleNext_resume; simpl.
    destruct Hrun as [[-> _] | (-> & -> & ->)]; [simpl in Hoff; lia |].
    destruct k as [| k]; [| simpl in Hoff; lia].
    simpl. intros _. unfold runPipeline_result, attempt.
    destruct o as [m | [|] status [m | [r |]]]; simpl; discriminate.
Qed.

Lemma offered_run_keeps_result (events : list Event) :
  forall uploads w,
    offered_all uploads w events = true ->
    existsb null_answer events = false ->
    wizard_invariant uploads w ->
    (currentStep (ui w) = 5 -> results (ui w) <> None) ->
    currentStep (ui (fst (run w events))) = 5 ->
    results (ui (fst (run w events))) <> None.
Proof.
  induction events as [| e more IH]; intros uploads w Hoff Hnull Hw Hres.
  - exact Hres.
  - simpl in Hoff, Hnull. apply andb_true_iff in Hoff as [He Hmore].
    apply orb_false_iff in Hnull as [Hnull Hrest].
    rewrite fst_run_cons.
    apply (IH (uploads_after uploads e)); [exact Hmore | exact Hrest | |].
    + apply offered_keeps_invariant; assumption.
    + apply (offered_keeps_result uploads); assumption.
Qed.

(** X8: in a run of offered events step 5 is reached only by the end of a
    run, and never shows the spinner.  Unless the server answered a run
    with an ok response whose body is null, step 5 always has a result to
    show: it shows the failure's message and logs, or the success sections
    and logs, unless the sections throw. *)
Theorem results_step_always_has_a_result :
  forall (limit : N) (events : list Event),
    offered_all 0 start events = true ->
    let s := ui (fst (run start events)) in
    currentStep s = 5 ->
    isRunning s = false
    /\ (existsb null_answer events = false ->
        exists r,
          results s = Some r
          /\ match stepContent limit s with
             | Ok (Some (Failed shown lines)) =>
                 success r = false /\ shown = message r /\ lines = logs r
             | Ok (Some (Succeeded sections lines)) =>
                 success r = true /\ successView limit r = Ok sections
                 /\ lines = logs r
             | Ok (Some Training) | Ok (Some NoResults) | Ok None => False
             | Throw => success r = true /\ successView limit r = Throw
             end).
Proof.
  intros limit events Hoff s H5.
  pose proof (offered_run_keeps_invariant events 0 start Hoff start_invariant)
    as (_ & Hrun & _).
  fold s in Hrun.
  assert (Hr : isRunning s = false).
  { destruct Hrun as [[_ Hr] | (_ & _ & Hc)]; [exact Hr | lia]. }
  split; [exact Hr |]. intro Hnull.
  assert (Hres : results s <> None).
  { apply (offered_run_keeps_result events 0 start Hoff Hnull start_invariant);
      [simpl; discriminate | exact H5]. }
  destruct (results s) as [r |] eqn:Hresults; [| contradiction].
  exists r. split; [reflexivity |].
  unfold stepContent, resultsView. rewrite H5, Hr, Hresults. simpl.
  destruct (success r); simpl; [| auto].
  destruct (successView limit r); simpl; auto.
Qed.

(** X8 at work: the whole session ends on step 5 with the server's
    result. *)
Lemma results_step_always_has_a_result_witness :
  let s := ui (fst (run start whole_session)) in
  isRunning s = false
  /\ exists r,
       results s = Some r
       /\ match stepContent 65535 s with
          | Ok (Some (Failed shown lines)) =>
              success r = false /\ shown = message r /\ lines = logs r
          | Ok (Some (Succeeded sections lines)) =>
              success r = true /\ successView 65535 r = Ok sections
              /\ lines = logs r
          | Ok (Some Training) | Ok (Some NoResults) | Ok None => False
          | Throw => success r = true /\ successView 65535 r = Throw
          end.
Proof.
  destruct (results_step_always_has_a_result 65535 whole_session)
    as [Hrun Hresult].
  - vm_compute. reflexivity.
  - vm_compute. reflexivity.
  - split; [exact Hrun |]. apply Hresult. vm_compute. reflexivity.
Defined.

(** The same session with null for the answer: step 5 is empty. *)
Example null_answer_leaves_step_5_empty :
  let events :=
    session_until_run ++ [RunEnds 0 (Responded true 200 (inr None))] in
  offered_all 0 start events = true
  /\ stepContent 65535 (ui (fst (run start events))) = Ok (Some NoResults).
Proof. vm_compute. split; reflexivity. Qed.

(** X9: in a run of offered events the wizard is past step 1 only with a
    dataset loaded, at most one upload is under way, and while one is the
    wizard stays on step 1 without a dataset, Next and a second upload not
    being offered. *)
Theorem past_step_one_a_dataset_is_loaded :
  forall events,
    offered_all 0 start events = true ->
    let w := fst (run start events) in
    let uploads := uploads_after_all 0 events in
    (2 <= currentStep (ui w) -> datasetMetadata (ui w) <> None)
    /\ (uploads <= 1)%nat
    /\ (isUploading (ui w) = true <-> uploads = 1%nat)
    /\ (isUploading (ui w) = true ->
        currentStep (ui w) = 1
        /\ datasetMetadata (ui w) = None
        /\ offered uploads w ClickNext = false
        /\ offered uploads w ChooseFile = false).
Proof.
  intros events Hoff w uploads.
  pose proof (offered_run_keeps_invariant events 0 start Hoff start_invariant)
    as (_ & _ & Hup & Hmd).
  fold w uploads in Hup, Hmd.
  split; [exact Hmd |].
  destruct Hup as [[Hu Hf] | (Hu & Hf & Hc & Hd)]; rewrite Hu, Hf.
  - repeat split; try lia; try discriminate.
  - repeat split; try lia; try assumption; try reflexivity;
      unfold offered, controls; rewrite Hc, Hd, ?Hf; try reflexivity.
    simpl. rewrite orb_true_r. reflexivity.
Qed.

(** X9 at work: the whole session ends past step 1. *)
Lemma past_step_one_a_dataset_is_loaded_witness :
  datasetMetadata (ui (fst (run start whole_session))) <> None.
Proof.
  apply (proj1 (past_step_one_a_dataset_is_loaded whole_session eq_refl)).
  vm_compute. discriminate.
Defined.

(** ** The wizard's frame *)

(** X10: in every state a run reaches, the step indicator has the five
    steps in order; the item of the current step is the one active item,
    and the completed items are exactly the items before it.  Exactly one
    of the Next and Start Over buttons is rendered, Start Over on step 5
    alone. *)
Theorem one_step_is_active :
  forall events,
    let s := ui (fst (run start events)) in
    let before := Z.to_nat (currentStep s - 1) in
    map badge (stepIndicator s) = [1; 2; 3; 4; 5]
    /\ map active (stepIndicator s)
       = repeat false before ++ [true] ++ repeat false (4 - before)
    /\ map completed (stepIndicator s)
       = repeat true before ++ repeat false (5 - before)
    /\ filter active (stepIndicator s)
       = filter (fun item => badge item =? currentStep s) (stepIndicator s)
    /\ List.length (filter active (stepIndicator s)) = 1%nat
    /\ List.length (filter completed (stepIndicator s)) = before
    /\ is_some (next_button (controls s))
       = negb (start_over_button (controls s))
    /\ start_over_button (controls s) = (currentStep s =? 5).
Proof.
  intros events s.
  assert (Hc : step_in_range (currentStep s)).
  { apply (run_keeps (fun _ => true)
             (fun w => step_in_range (currentStep (ui w))
                       /\ Forall step_in_range (waiting w))
             (fun _ => True)).
    - intros w e _ Hw. split.
      + apply dispatch_keeps_step_in_range; assumption.
      + apply Forall_forall. intros; exact I.
    - apply forallb_any.
    - split; [unfold step_in_range; simpl; lia | constructor]. }
  unfold step_in_range in Hc. unfold stepIndicator, controls.
  assert (H : currentStep s = 1 \/ currentStep s = 2 \/ currentStep s = 3
              \/ currentStep s = 4 \/ currentStep s = 5) by lia.
  destruct H as [-> | [-> | [-> | [-> | ->]]]]; repeat split.
Qed.

(** X11: when step 5 shows the download button, [downloadModel] opens the
    address of the result's model under /api/download/; when it shows the
    success sections without the button, [downloadModel] opens nothing. *)
Theorem download_button_opens_the_model :
  forall (limit : N) (base : string) (s : State) (sections : Success)
         (lines : list string),
    stepContent limit s = Ok (Some (Succeeded sections lines)) ->
    if download_button sections then
      exists r path,
        results s = Some r
        /\ model_path r = Some path
        /\ path <> ""
        /\ downloadModel base s = Some (base +++ "/api/download/" +++ path)
    else downloadModel base s = None.
Proof.
  intros limit base s sections lines H.
  unfold stepContent, resultsView in H.
  destruct (currentStep s =? 5); [| discriminate H].
  destruct (isRunning s); [discriminate H |].
  destruct (results s) as [r |] eqn:Hr; [| discriminate H].
  destruct (success r); [| discriminate H].
  destruct (successView limit r) as [v |] eqn:Hv; [| discriminate H].
  simpl in H. injection H as <- _.
  unfold successView in Hv.
  repeat match type of Hv with
         | bind ?x _ = _ => destruct x; simpl in Hv; [| discriminate Hv]
         end.
  injection Hv as <-. simpl.
  unfold downloadModel. rewrite Hr.
  destruct (model_path r) as [path |] eqn:Hp; simpl; [| reflexivity].
  destruct (String.eqb path "") eqn:E; simpl; [reflexivity |].
  exists r, path.
  split; [reflexivity |]. split; [exact Hp |].
  split; [apply String.eqb_neq; exact E | reflexivity].
Qed.

(** X11 at work: a session whose run the server answers with a result
    that has a model. *)
Lemma download_button_opens_the_model_witness :
  let answer := Responded true 200 (inr (Some result_without_importance)) in
  let s := ui (fst (run start (session_until_run ++ [RunEnds 0 answer]))) in
  downloadModel (API_BASE None) s = Some "/api/download/model_1.pkl".
Proof.
  intros answer s.
  destruct (stepContent 65535 s) as [[[| | sections lines |] |] |] eqn:E;
    try (vm_compute in E; discriminate E).
  pose proof (download_button_opens_the_model 65535 (API_BASE None) s sections
                lines E) as H.
  assert (Hb : download_button sections = true).
  { vm_compute in E. injection E as <- _. reflexivity. }
  rewrite Hb in H. destruct H as (r & path & Hr & Hpath & _ & ->).
  vm_compute in Hr. injection Hr as <-.
  injection Hpath as <-. reflexivity.
Defined.

(** ** The proxy to the backend *)

Lemma prefix_spec (p s : string) :
  String.prefix p s = true <-> exists r, s = p +++ r.
Proof.
  revert s. induction p as [| a p IH]; intro s; simpl.
  - split; [intros _; exists s; reflexivity | destruct s; reflexivity].
  - destruct s as [| b s]; [split; [discriminate | intros [r H]; discriminate H] |].
    change (String.prefix (String a p) (String b s))
      with (if ascii_dec a b then String.prefix p s else false).
    destruct (ascii_dec a b) as [<- | Hab].
    + rewrite IH. split; intros [r H]; exists r.
      * rewrite H. reflexivity.
      * injection H as H. exact H.
    + split; [discriminate |]. intros [r H]. injection H as H _.
      symmetry in H. contradiction.
Qed.

Lemma strip_keeps_http (url : string) :
  String.prefix "http" url = true ->
  String.prefix "http" (NextConfig.strip_trailing_slash url) = true.
Proof.
  rewrite !prefix_spec. intros [r ->].
  destruct r as [| c r].
  - exists "". reflexivity.
  - exists (NextConfig.strip_trailing_slash (String c r)). reflexivity.
Qed.

Lemma strip_ends (url : string) :
  ends_with_slash (NextConfig.strip_trailing_slash url)
  = ends_with_two_slashes url.
Proof.
  induction url as [| c rest IH]; [reflexivity |].
  destruct rest as [| d rest'].
  - simpl. destruct (Ascii.eqb c "/") eqn:E; simpl; rewrite ?E; reflexivity.
  - destruct rest' as [| e rest''].
    + simpl. destruct (Ascii.eqb d "/") eqn:E; simpl; rewrite ?E.
      * rewrite andb_true_r. reflexivity.
      * rewrite andb_false_r. reflexivity.
    + change (ends_with_slash
                (NextConfig.strip_trailing_slash (String d (String e rest'')))
              = ends_with_two_slashes (String d (String e rest''))).
      exact IH.
Qed.

Lemma strip_appended_slash (url : string) :
  url <> "" -> ends_with_slash url = false ->
  NextConfig.strip_trailing_slash (url +++ "/") = url
  /\ NextConfig.strip_trailing_slash url = url.
Proof.
  induction url as [| c rest IH]; intros Hne Hend; [contradiction |].
  destruct rest as [| d rest']; simpl in *.
  - rewrite Hend. auto.
  - destruct IH as [IH1 IH2]; [discriminate | exact Hend |].
    simpl in IH1, IH2.
    destruct (rest' +++ "/") eqn:E.
    + destruct rest'; discriminate E.
    + rewrite IH1. split; [reflexivity |].
      destruct rest'; simpl in *; [rewrite Hend in *; reflexivity |].
      rewrite IH2. reflexivity.
Qed.

Lemma append_assoc (a b c : string) : (a +++ b) +++ c = a +++ b +++ c.
Proof. induction a as [| x a IH]; simpl; [| rewrite IH]; reflexivity. Qed.

Lemma prefix_http_appended_slash (url : string) :
  url <> "" ->
  String.prefix "http" (url +++ "/") = String.prefix "http" url.
Proof.
  intro Hne.
  destruct (String.prefix "http" url) eqn:E.
  - apply prefix_spec in E as [r ->]. apply prefix_spec.
    exists (r +++ "/"). reflexivity.
  - destruct (String.prefix "http" (url +++ "/")) eqn:E'; [| reflexivity].
    apply prefix_spec in E' as [r Hr].
    assert (H : String.prefix "http" url = true); [| congruence].
    apply prefix_spec.
    destruct url as [| c1 [| c2 [| c3 [| c4 rest]]]];
      try contradiction; try discriminate Hr.
    simpl in Hr. injection Hr as -> -> -> -> _.
    exists rest. reflexivity.
Qed.

(** X12: the proxy has one rule, from /api/:path* to the same path under
    the backend address.  That address is http://127.0.0.1:8000 when
    BACKEND_URL is unset or empty, always starts with http, and ends with a
    slash only when the address, http:// put before it if need be, ended
    with two. *)
Theorem rewrites_target_is_an_http_address :
  forall BACKEND_URL : option string,
    (exists address,
       NextConfig.rewrites BACKEND_URL
       = [ {| NextConfig.source := "/api/:path*";
              NextConfig.destination := address +++ "/api/:path*" |} ]
       /\ address = NextConfig.backendUrl BACKEND_URL
       /\ String.prefix "http" address = true)
    /\ NextConfig.backendUrl None = "http://127.0.0.1:8000"
    /\ NextConfig.backendUrl (Some "") = "http://127.0.0.1:8000"
    /\ (forall url,
          BACKEND_URL = Some url -> url <> "" ->
          ends_with_slash (NextConfig.backendUrl BACKEND_URL)
          = ends_with_two_slashes
              (if String.prefix "http" url then url else "http://" +++ url)).
Proof.
  intro env. split; [| split; [reflexivity | split; [reflexivity |]]].
  - eexists. split; [reflexivity |]. split; [reflexivity |].
    unfold NextConfig.backendUrl. apply strip_keeps_http.
    match goal with
    | |- context [if String.prefix "http" ?u then _ else _] =>
        destruct (String.prefix "http" u) eqn:E
    end; [exact E |].
    apply prefix_spec. eexists. reflexivity.
  - intros url -> Hne. unfold NextConfig.backendUrl.
    apply String.eqb_neq in Hne. rewrite Hne. apply strip_ends.
Qed.

(** X12 at work: a host given without scheme and with a slash. *)
Lemma rewrites_target_is_an_http_address_witness :
  ends_with_slash (NextConfig.backendUrl (Some "backend:8000/")) = false.
Proof.
  destruct (rewrites_target_is_an_http_address (Some "backend:8000/"))
    as (_ & _ & _ & H).
  rewrite (H "backend:8000/" eq_refl); [reflexivity | discriminate].
Defined.

(** X13: a slash at the end of BACKEND_URL makes no difference: an address
    that is not empty and does not end with a slash gives the same rules
    with one slash put after it. *)
Theorem rewrites_ignore_one_trailing_slash :
  forall url : string,
    url <> "" -> ends_with_slash url = false ->
    NextConfig.rewrites (Some (url +++ "/")) = NextConfig.rewrites (Some url)
    /\ ends_with_slash (NextConfig.backendUrl (Some url)) = false.
Proof.
  intros url Hne Hend.
  assert (Hne' : url +++ "/" <> "") by (destruct url; discriminate).
  assert (Hurl : NextConfig.backendUrl (Some (url +++ "/"))
                 = NextConfig.backendUrl (Some url)
                 /\ ends_with_slash (NextConfig.backendUrl (Some url)) = false).
  { unfold NextConfig.backendUrl.
    apply String.eqb_neq in Hne, Hne'. rewrite Hne, Hne'.
    apply String.eqb_neq in Hne.
    rewrite (prefix_http_appended_slash url Hne).
    destruct (String.prefix "http" url).
    - destruct (strip_appended_slash url Hne Hend) as [-> ->]. auto.
    - assert (Hp : "http://" +++ url +++ "/" = ("http://" +++ url) +++ "/")
        by reflexivity.
      rewrite Hp.
      destruct (strip_appended_slash ("http://" +++ url)) as [-> ->].
      + discriminate.
      + simpl. destruct url; [contradiction | exact Hend].
      + split; [reflexivity |].
        simpl. destruct url; [contradiction | exact Hend]. }
  destruct Hurl as [Hsame Hno]. split; [| exact Hno].
  unfold NextConfig.rewrites. rewrite Hsame. reflexivity.
Qed.

(** X13 at work: the address of a deployed backend. *)
Lemma rewrites_ignore_one_trailing_slash_witness :
  NextConfig.rewrites (Some "https://ml-builder.onrender.com/")
  = NextConfig.rewrites (Some "https://ml-builder.onrender.com").
Proof.
  apply (rewrites_ignore_one_trailing_slash "https://ml-builder.onrender.com").
  - discriminate.
  - reflexivity.
Defined.

(** ** The explanation of an accuracy, again *)

Lemma remove_first_absent (c : ascii) (s : string) :
  contains c s = false ->
  remove_first c s = s
  /\ remove_first c (s +++ String c "") = s.
Proof.
  induction s as [| a r IH]; simpl; intro H.
  - rewrite Ascii.eqb_refl. auto.
  - apply orb_false_iff in H as [Ha Hr]. rewrite Ha.
    destruct (IH Hr) as [-> ->]. auto.
Qed.

(** X14: an accuracy without a percent sign in it is graded the same with
    a percent sign put after it: same number, grade, colour and message. *)
Theorem percent_sign_makes_no_difference :
  forall accuracy : string,
    contains "%" accuracy = false ->
    let bare := ResultExplanation accuracy in
    let signed := ResultExplanation (accuracy +++ "%") in
    accVal (accuracy +++ "%") = accVal accuracy
    /\ Explanation.grade signed = Explanation.grade bare
    /\ Explanation.color signed = Explanation.color bare
    /\ Explanation.message signed = Explanation.message bare.
Proof.
  intros accuracy H.
  destruct (remove_first_absent "%" accuracy H) as [H1 H2].
  assert (Hv : accVal (accuracy +++ "%") = accVal accuracy).
  { unfold accVal. rewrite H1, H2. reflexivity. }
  cbv zeta. unfold ResultExplanation. rewrite Hv.
  split; [reflexivity |].
  destruct (ge (accVal accuracy) (lit "90")); [repeat split |].
  destruct (ge (accVal accuracy) (lit "70")); repeat split.
Qed.

(** X14 at work. *)
Lemma percent_sign_makes_no_difference_witness :
  Explanation.grade (ResultExplanation "96.67%")
  = Explanation.grade (ResultExplanation "96.67").
Proof.
  apply (percent_sign_makes_no_difference "96.67"). reflexivity.
Defined.

Lemma ge_trans (a b c : Number) :
  ge a b = true -> ge b c = true -> ge a c = true.
Proof.
  destruct a as [| | | qa], b as [| | | qb], c as [| | | qc]; simpl;
    try discriminate; try reflexivity.
  rewrite !Qle_bool_iff. intros H1 H2. apply Qle_trans with qb; assumption.
Qed.

(** X15: the grade never goes down as the accuracy goes up: of two
    accuracy strings, the one whose number is at least the other's has a
    grade at least as good. *)
Theorem grade_is_monotone :
  forall low high : string,
    ge (accVal high) (accVal low) = true ->
    (grade_rank (Explanation.grade (ResultExplanation low))
     <= grade_rank (Explanation.grade (ResultExplanation high)))%nat.
Proof.
  intros low high H. unfold ResultExplanation.
  destruct (ge (accVal low) (lit "90")) eqn:L90.
  - rewrite (ge_trans _ _ _ H L90). lazy. lia.
  - destruct (ge (accVal low) (lit "70")) eqn:L70.
    + destruct (ge (accVal high) (lit "90")); [lazy; lia |].
      rewrite (ge_trans _ _ _ H L70). lazy. lia.
    + destruct (ge (accVal high) (lit "90")); [lazy; lia |].
      destruct (ge (accVal high) (lit "70")); lazy; lia.
Qed.

(** X15 at work. *)
Lemma grade_is_monotone_witness :
  (grade_rank (Explanation.grade (ResultExplanation "71.5%"))
   <= grade_rank (Explanation.grade (ResultExplanation "93%")))%nat.
Proof.
  apply (grade_is_monotone "71.5%" "93%"). vm_compute. reflexivity.
Defined.

(** ** The colour of a class *)

Lemma text_app (a b : list ascii) : text (a ++ b) = text a +++ text b.
Proof. induction a as [| c a IH]; simpl; [| rewrite IH]; reflexivity. Qed.

Lemma chars_text (l : list ascii) : chars (text l) = l.
Proof. induction l as [| c l IH]; simpl; [| rewrite IH]; reflexivity. Qed.

Lemma strlen_text (l : list ascii) : strlen (text l) = Z.of_nat (List.length l).
Proof.
  unfold strlen. f_equal.
  induction l as [| c l IH]; simpl; [| rewrite IH]; reflexivity.
Qed.

Lemma hex_digit_upper (d : Z) :
  0 <= d < 16 -> upper_hex (upper (hex_digit d)) = true.
Proof.
  intro H.
  assert (E : d = 0 \/ d = 1 \/ d = 2 \/ d = 3 \/ d = 4 \/ d = 5 \/ d = 6
              \/ d = 7 \/ d = 8 \/ d = 9 \/ d = 10 \/ d = 11 \/ d = 12
              \/ d = 13 \/ d = 14 \/ d = 15) by lia.
  repeat (destruct E as [-> | E]; [reflexivity |]). subst. reflexivity.
Qed.

Lemma hex_from_digits (fuel : nat) :
  forall (k : nat) (n : Z) (acc : string),
    (1 <= k <= fuel)%nat -> 0 <= n < 16 ^ Z.of_nat k ->
    exists ds,
      hex_from fuel n acc = text ds +++ acc
      /\ (1 <= List.length ds <= k)%nat
      /\ Forall (fun c => upper_hex (upper c) = true) ds.
Proof.
  induction fuel as [| fuel IH]; intros k n acc Hk Hn; [lia |].
  simpl. destruct (Z.ltb_spec n 16) as [H16 | H16].
  - exists [hex_digit (n mod 16)]. repeat split; simpl; try lia.
    constructor; [| constructor].
    apply hex_digit_upper. apply Z.mod_pos_bound. lia.
  - destruct k as [| [| k]]; [lia | simpl in Hn; lia |].
    destruct (IH (S k) (n / 16) (String (hex_digit (n mod 16)) acc))
      as (ds & Hds & Hlen & Hall).
    + lia.
    + split; [apply Z.div_pos; lia |].
      apply Z.div_lt_upper_bound; [lia |].
      replace (Z.of_nat (S (S k))) with (1 + Z.of_nat (S k)) in Hn by lia.
      rewrite Z.pow_add_r in Hn by lia. exact (proj2 Hn).
    + exists (ds ++ [hex_digit (n mod 16)]).
      rewrite Hds, text_app, append_assoc. simpl.
      split; [reflexivity |]. split; [rewrite length_app; simpl; lia |].
      apply Forall_app. split; [exact Hall |].
      constructor; [| constructor].
      apply hex_digit_upper. apply Z.mod_pos_bound. lia.
Qed.

Lemma to_hex_digits (n : Z) :
  0 <= n < 16 ^ 6 ->
  exists ds,
    to_hex n = text ds
    /\ (1 <= List.length ds <= 6)%nat
    /\ Forall (fun c => upper_hex (upper c) = true) ds.
Proof.
  intro Hn. unfold to_hex.
  set (fuel := S (Z.to_nat (Z.log2 n))).
  destruct (hex_from_digits fuel (Nat.min fuel 6) n "")
    as (ds & Hds & Hlen & Hall).
  - subst fuel. lia.
  - split; [lia |].
    destruct (Nat.le_ge_cases fuel 6) as [Hf | Hf].
    + rewrite Nat.min_l by exact Hf. subst fuel.
      rewrite Nat2Z.inj_succ, Z2Nat.id by apply Z.log2_nonneg.
      apply Z.lt_le_trans with (2 ^ Z.succ (Z.log2 n)).
      * destruct (Z.eq_dec n 0) as [-> | Hz]; [reflexivity |].
        apply Z.log2_spec. lia.
      * apply Z.pow_le_mono_l. split; [lia | lia].
    + rewrite Nat.min_r by exact Hf. exact (proj2 Hn).
  - exists ds. split; [| split; [lia | exact Hall]].
    rewrite Hds. clear. induction (text ds) as [| c s IH]; simpl;
      [| rewrite IH]; reflexivity.
Qed.

(** X16: whatever the class label, [getColor] gives a colour of the form
    #RRGGBB: a hash sign and six digits of upper-case hexadecimal, short
    numbers padded with zeros on the left. *)
Theorem getColor_is_a_six_digit_colour :
  forall str : list Z,
    exists digits,
      getColor_units str = String "#" (text digits)
      /\ List.length digits = 6%nat
      /\ Forall (fun c => upper_hex c = true) digits.
Proof.
  intro str. unfold getColor_units.
  match goal with
  | |- context [Z.land ?h 16777215] => set (masked := Z.land h 16777215)
  end.
  assert (Hm : 0 <= masked < 16 ^ 6).
  { subst masked. change 16777215 with (Z.ones 24).
    rewrite Z.land_ones by lia. apply Z.mod_pos_bound. reflexivity. }
  destruct (to_hex_digits masked Hm) as (ds & Hds & Hlen & Hall).
  rewrite Hds. unfold toUpperCase. rewrite chars_text.
  rewrite strlen_text, length_map.
  exists (firstn (Z.to_nat (6 - Z.of_nat (List.length ds))) (chars "00000")
          ++ map upper ds).
  split; [| split].
  - unfold take. rewrite text_app. reflexivity.
  - rewrite length_app, length_firstn, length_map. simpl List.length. lia.
  - apply Forall_app. split.
    + apply Forall_forall. intros c Hc. apply In_firstn in Hc.
      simpl in Hc. repeat (destruct Hc as [<- | Hc]; [reflexivity |]).
      contradiction.
    + apply Forall_forall. intros c Hc.
      apply in_map_iff in Hc as (c0 & <- & Hc0).
      rewrite Forall_forall in Hall. auto.
Qed.

Example colours :
  map getColor ["setosa"; "versicolor"; ""; "a"]
  = ["#02FF5B"; "#6091CA"; "#000000"; "#000061"].
Proof. vm_compute. reflexivity. Qed.

(** ** Rounding to binary64 *)

Lemma pow2_pos (p : Z) : (0 < pow2 p)%Q.
Proof.
  unfold pow2. destruct (Z.leb_spec 0 p); unfold Qlt; simpl.
  - rewrite Z.mul_1_r. apply Z.pow_pos_nonneg; lia.
  - lia.
Qed.

Lemma pow2_nonpos (p : Z) : p <= 0 -> pow2 p = 1 # Z.to_pos (2 ^ (- p)).
Proof.
  intro H. unfold pow2. destruct (Z.leb_spec 0 p); [| reflexivity].
  replace p with 0 by lia. reflexivity.
Qed.

Lemma floor_log2_le (q : Q) : (0 < q)%Q -> (pow2 (floor_log2 q) <= q)%Q.
Proof.
  intro Hq. unfold floor_log2.
  destruct (Qle_bool (pow2 _) q) eqn:E; [apply Qle_bool_iff; exact E |].
  clear E. destruct q as [n den]. unfold Qlt in Hq. cbn [Qnum Qden] in *.
  assert (Hn : 0 < n) by lia. clear Hq.
  pose proof (Z.log2_spec n Hn) as [Hn1 Hn2].
  pose proof (Z.log2_spec (Zpos den) (Pos2Z.is_pos den)) as [Hd1 Hd2].
  pose proof (Z.log2_nonneg n) as Hln.
  pose proof (Z.log2_nonneg (Zpos den)) as Hld.
  set (ln := Z.log2 n) in *. set (ld := Z.log2 (Zpos den)) in *.
  unfold pow2. destruct (Z.leb_spec 0 (ln - ld - 1)) as [Hs | Hs].
  - unfold Qle; cbn [Qnum Qden]. rewrite Z.mul_1_r.
    apply Z.le_trans with (2 ^ ln); [| exact Hn1].
    replace ln with ((ln - ld - 1) + Z.succ ld) at 2 by lia.
    rewrite Z.pow_add_r by lia.
    apply Z.mul_le_mono_nonneg_l; [apply Z.pow_nonneg; lia | lia].
  - unfold Qle; cbn [Qnum Qden]. rewrite Z.mul_1_l.
    rewrite Z2Pos.id by (apply Z.pow_pos_nonneg; lia).
    apply Z.le_trans with (2 ^ Z.succ ld); [lia |].
    replace (Z.succ ld) with (ln + (- (ln - ld - 1))) by lia.
    rewrite Z.pow_add_r by lia.
    apply Z.mul_le_mono_nonneg_r; [apply Z.pow_nonneg; lia | exact Hn1].
Qed.

Lemma Qfloor_int (z : Z) : Qfloor (z # 1) = z.
Proof. unfold Qfloor. apply Z.div_1_r. Qed.

Lemma round_half_even_le (x : Q) (N : Z) :
  (x <= N # 1)%Q -> round_half_even x <= N.
Proof.
  intro Hx. unfold round_half_even.
  pose proof (Qfloor_le x) as Hf.
  pose proof (Qfloor_resp_le _ _ Hx) as HfN. rewrite Qfloor_int in HfN.
  destruct (Z.eq_dec (Qfloor x) N) as [E | E].
  - rewrite E in *.
    destruct (x - (N # 1) ?= 1 # 2)%Q eqn:C; [| lia |].
    + apply Qeq_alt in C. lra.
    + apply Qgt_alt in C. lra.
  - destruct (_ ?= _)%Q; [destruct (Z.even _) | |]; lia.
Qed.

Lemma round_half_even_nonneg (x : Q) : (0 <= x)%Q -> 0 <= round_half_even x.
Proof.
  intro Hx. unfold round_half_even.
  pose proof (Qfloor_resp_le _ _ Hx) as Hf. change (Qfloor 0) with 0 in Hf.
  destruct (_ ?= _)%Q; [destruct (Z.even _) | |]; lia.
Qed.

Lemma floor_log2_small (q : Q) (b : Z) :
  (0 < q)%Q -> (q <= b # 1)%Q -> b < 2 ^ 53 -> floor_log2 q <= 52.
Proof.
  intros Hq Hb Hb53.
  pose proof (floor_log2_le q Hq) as He.
  destruct (Z_le_gt_dec (floor_log2 q) 52) as [H | H]; [exact H | exfalso].
  assert (Hp : (pow2 (floor_log2 q) <= b # 1)%Q) by lra.
  unfold pow2 in Hp. destruct (Z.leb_spec 0 (floor_log2 q)); [| lia].
  unfold Qle in Hp; cbn [Qnum Qden] in Hp.
  assert (2 ^ 53 <= 2 ^ floor_log2 q) by (apply Z.pow_le_mono_r; lia).
  lia.
Qed.

(** A positive real up to an integer below 2^53 rounds to a finite number
    within the same bounds. *)
Lemma round64_pos_bounded (q : Q) (b : Z) :
  (0 < q)%Q -> (q <= b # 1)%Q -> b < 2 ^ 53 ->
  exists v, round64_pos q = Fin v /\ (0 <= v <= b # 1)%Q.
Proof.
  intros Hq Hb Hb53. unfold round64_pos.
  pose proof (floor_log2_small q b Hq Hb Hb53) as He.
  set (p := Z.max (floor_log2 q - 52) (-1074)).
  assert (Hp : p <= 0) by (subst p; lia).
  rewrite (pow2_nonpos p Hp).
  set (K := Z.to_pos (2 ^ (- p))).
  set (m := round_half_even (q / (1 # K))).
  assert (Hx : (q / (1 # K) == q * (Zpos K # 1))%Q) by reflexivity.
  assert (Hm1 : 0 <= m).
  { apply round_half_even_nonneg. rewrite Hx.
    apply Qmult_le_0_compat; [lra | unfold Qle; simpl; lia]. }
  assert (Hm2 : m <= b * Zpos K).
  { apply round_half_even_le. rewrite Hx.
    assert (E : (b * Zpos K # 1 == (b # 1) * (Zpos K # 1))%Q)
      by (unfold Qeq; simpl; lia).
    rewrite E. apply Qmult_le_compat_r; [exact Hb | unfold Qle; simpl; lia]. }
  assert (Hv : ((m # 1) * (1 # K) == m # K)%Q)
    by (unfold Qeq; simpl; lia).
  assert (Hv1 : (0 <= m # K)%Q) by (unfold Qle; simpl; lia).
  assert (Hv2 : (m # K <= b # 1)%Q) by (unfold Qle; simpl; lia).
  destruct (Qle_bool (pow2 1024) ((m # 1) * (1 # K))) eqn:E.
  - exfalso. apply Qle_bool_iff in E. rewrite Hv in E.
    assert (Hbig : (pow2 1024 <= b # 1)%Q) by lra.
    change (pow2 1024) with (2 ^ 1024 # 1)%Q in Hbig.
    unfold Qle in Hbig; cbn [Qnum Qden] in Hbig.
    assert (2 ^ 53 < 2 ^ 1024) by (apply Z.pow_lt_mono_r; lia).
    lia.
  - exists (Qred ((m # 1) * (1 # K))). split; [reflexivity |].
    rewrite Qred_correct, Hv. split; assumption.
Qed.

Lemma round64_bounded (q : Q) (b : Z) :
  (0 <= q)%Q -> (q <= b # 1)%Q -> b < 2 ^ 53 ->
  exists v, round64 q = Fin v /\ (0 <= v <= b # 1)%Q.
Proof.
  intros Hq Hb Hb53. unfold round64.
  destruct q as [[| n | n] den]; cbn [Qnum].
  - exists 0%Q. split; [reflexivity |]. split; [lra |].
    apply Qle_trans with (0 # den); [| exact Hb]. unfold Qle; simpl; lia.
  - apply round64_pos_bounded; [reflexivity | exact Hb | exact Hb53].
  - exfalso. unfold Qle in Hq; simpl in Hq. lia.
Qed.

(** ** Shares of a whole *)

Lemma lit_100 : lit "100" = Fin 100.
Proof. vm_compute. reflexivity. Qed.

Lemma lit_1 : lit "1" = Fin 1.
Proof. vm_compute. reflexivity. Qed.

(** [count / whole * 100] of a part of a positive whole: from 0 to 100,
    and 100 for the whole itself. *)
Lemma percent_of_whole (c M : Q) :
  (0 <= c <= M)%Q -> (0 < M)%Q ->
  within 0 100 (num_mul (num_div (Fin c) (Fin M)) (lit "100"))
  /\ (c == M -> num_mul (num_div (Fin c) (Fin M)) (lit "100") = Fin 100)%Q.
Proof.
  intros [Hc0 HcM] HM. rewrite lit_100. unfold num_div.
  assert (HM0 : Qeq_bool M 0 = false).
  { destruct (Qeq_bool M 0) eqn:E; [| reflexivity].
    apply Qeq_bool_iff in E. lra. }
  rewrite HM0.
  assert (Hq : (0 <= c / M <= 1)%Q).
  { split.
    - apply Qle_shift_div_l; [exact HM | lra].
    - apply Qle_shift_div_r; [exact HM | lra]. }
  split.
  - destruct (round64_bounded (Qred (c / M)) 1) as (r & Hr & Hr0 & Hr1);
      [rewrite Qred_correct; tauto | rewrite Qred_correct; tauto | reflexivity |].
    rewrite Hr. unfold num_mul.
    destruct (round64_bounded (Qred (r * 100)) 100) as (v & Hv & Hv0 & Hv1);
      [rewrite Qred_correct; lra | rewrite Qred_correct; lra | reflexivity |].
    rewrite Hv. simpl. split; assumption.
  - intro E.
    assert (E1 : Qred (c / M) = 1%Q).
    { change 1%Q with (Qred 1). apply Qred_complete. rewrite E. field. lra. }
    rewrite E1. vm_compute. reflexivity.
Qed.

(** [Math.max] of numbers that are finite: one of them, and none above. *)
Lemma fold_max2_finite (l : list Number) :
  Forall finite l ->
  forall a, exists M,
    fold_left max2 l (Fin a) = Fin M
    /\ (a <= M)%Q
    /\ Forall (at_most M) l
    /\ (Fin M = Fin a \/ In (Fin M) l).
Proof.
  induction 1 as [| x l Hx _ IH]; intro a; simpl.
  - exists a. repeat split; [lra | constructor | left; reflexivity].
  - destruct x as [| | | q]; try contradiction. simpl.
    destruct (Qle_bool q a) eqn:E; simpl.
    + apply Qle_bool_iff in E.
      destruct (IH a) as (M & HM & Ha & Hall & Hin).
      exists M. repeat split; try assumption.
      * constructor; [simpl; lra | exact Hall].
      * destruct Hin; [left | right; right]; assumption.
    + assert (Hlt : (a < q)%Q).
      { apply Qnot_le_lt. intro H. apply Qle_bool_iff in H. congruence. }
      destruct (IH q) as (M & HM & Hq & Hall & Hin).
      exists M. repeat split; try assumption.
      * lra.
      * constructor; [simpl; lra | exact Hall].
      * right. destruct Hin as [Hin | Hin]; [left; symmetry | right];
          assumption.
Qed.

Lemma max_finite (l : list Number) :
  l <> [] -> Forall finite l ->
  exists M, JS.max l = Fin M /\ Forall (at_most M) l /\ In (Fin M) l.
Proof.
  intros Hne Hl. destruct l as [| x l]; [contradiction |].
  inversion Hl as [| ? ? Hx Hl']; subst.
  destruct x as [| | | q]; try contradiction.
  unfold JS.max. simpl.
  destruct (fold_max2_finite l Hl' q) as (M & HM & Hq & Hall & Hin).
  exists M. repeat split; try assumption.
  - constructor; [exact Hq | exact Hall].
  - destruct Hin as [Hin | Hin]; [left; symmetry | right]; assumption.
Qed.

Lemma nonnegative_finite (x : Number) : nonnegative x -> finite x.
Proof. destruct x; simpl; auto. Qed.

(** X17: the distribution bars fit their track: with counts that are not
    negative and one of them above 0, every bar is from 0 to 100 per cent
    wide, and the bar of a greatest count is 100 per cent wide. *)
Theorem distribution_bars_fit :
  forall d : Distributions.t,
    let counts := map snd (Distributions.data d) in
    Forall nonnegative counts ->
    Exists above_zero counts ->
    exists M,
      JS.max counts = Fin M
      /\ Forall (fun bar =>
                   within 0 100 (bar_width bar)
                   /\ (class_count bar = Fin M -> bar_width bar = Fin 100))
                (distributionBars d)
      /\ Exists (fun bar => bar_width bar = Fin 100) (distributionBars d).
Proof.
  intros d counts Hnn Hpos.
  destruct (max_finite counts) as (M & HM & Hall & Hin).
  { intro E. rewrite E in Hpos. inversion Hpos. }
  { apply Forall_impl with (2 := Hnn). apply nonnegative_finite. }
  assert (HMpos : (0 < M)%Q).
  { apply Exists_exists in Hpos as (x & Hx & Hxpos).
    rewrite Forall_forall in Hall. specialize (Hall x Hx).
    destruct x; try contradiction. simpl in *. lra. }
  exists M. split; [exact HM |].
  assert (Hbar : forall entry, In entry (Distributions.data d) ->
            within 0 100 (num_mul (num_div (snd entry) (Fin M)) (lit "100"))
            /\ (snd entry = Fin M ->
                num_mul (num_div (snd entry) (Fin M)) (lit "100") = Fin 100)).
  { intros entry Hentry.
    assert (Hc : In (snd entry) counts) by (apply in_map; exact Hentry).
    rewrite Forall_forall in Hall, Hnn.
    specialize (Hall _ Hc). specialize (Hnn _ Hc).
    destruct (snd entry) as [| | | c]; try contradiction. simpl in Hall, Hnn.
    destruct (percent_of_whole c M (conj Hnn Hall) HMpos) as [H1 H2].
    split; [exact H1 |]. intro E. injection E as ->. apply H2. reflexivity. }
  unfold distributionBars. fold counts. rewrite HM. split.
  - apply Forall_forall. intros bar Hb.
    apply in_map_iff in Hb as (entry & <- & Hentry). simpl.
    apply Hbar. exact Hentry.
  - apply in_map_iff in Hin as (entry & Hsnd & Hentry).
    apply Exists_exists.
    eexists. split; [apply in_map; exact Hentry |]. simpl.
    apply Hbar; assumption.
Qed.

(** X17 at work: three classes, one of them without rows. *)
Lemma distribution_bars_fit_witness :
  exists M,
    JS.max (map snd (Distributions.data sample_distribution)) = Fin M
    /\ Forall (fun bar =>
                 within 0 100 (bar_width bar)
                 /\ (class_count bar = Fin M -> bar_width bar = Fin 100))
              (distributionBars sample_distribution)
    /\ Exists (fun bar => bar_width bar = Fin 100)
              (distributionBars sample_distribution).
Proof.
  apply (distribution_bars_fit sample_distribution).
  - repeat (constructor; [vm_compute; discriminate |]). constructor.
  - constructor. vm_compute. reflexivity.
Defined.

(** X18: the feature bars fit their track: with importances that are not
    negative and one of them above 0, in a list no longer than the engine
    takes arguments in one call, the chart has a bar for each of the first
    ten entries and every bar is from 0 to 100 per cent wide. *)
Theorem feature_bars_fit :
  forall (limit : N) (all : list Value) (entries : list (string * Number)),
    Forall2 entry_of all entries ->
    Forall (fun e => nonnegative (snd e)) entries ->
    Exists (fun e => above_zero (snd e)) entries ->
    (N.of_nat (List.length all) <= limit)%N ->
    exists bars,
      featureBars limit (Arr all) = Ok bars
      /\ List.length bars = Nat.min 10 (List.length entries)
      /\ Forall (fun bar => within 0 100 (barWidth bar)) bars.
Proof.
  intros limit all entries H Hnn Hpos Hfits.
  rewrite (featureBars_entries limit all entries H).
  apply N.leb_le in Hfits. rewrite Hfits.
  eexists. split; [reflexivity |].
  split; [rewrite length_map, length_firstn; reflexivity |].
  destruct (max_finite (map snd entries)) as (M & HM & Hall & _).
  { intro E. destruct entries; [inversion Hpos | discriminate E]. }
  { apply Forall_map. apply Forall_impl with (2 := Hnn).
    intro e. apply nonnegative_finite. }
  assert (HMpos : (0 < M)%Q).
  { apply Exists_exists in Hpos as (e & He & Hepos).
    rewrite Forall_forall in Hall. specialize (Hall _ (in_map snd _ _ He)).
    destruct (snd e); try contradiction. simpl in *. lra. }
  rewrite HM. apply Forall_forall. intros bar Hbar.
  apply in_map_iff in Hbar as (e & <- & He). apply In_firstn in He.
  unfold barWidth, bar_of. cbn [importance maxVal].
  rewrite Forall_forall in Hall, Hnn.
  specialize (Hall _ (in_map snd _ _ He)). specialize (Hnn _ He).
  destruct (snd e) as [| | | c]; try contradiction.
  apply percent_of_whole; [split; assumption | exact HMpos].
Qed.

(** X18 at work: the twelve importances of the feature chart. *)
Lemma feature_bars_fit_witness :
  exists bars,
    featureBars 65535 (Arr (map entry_value twelve_entries)) = Ok bars
    /\ List.length bars = Nat.min 10 (List.length twelve_entries)
    /\ Forall (fun bar => within 0 100 (barWidth bar)) bars.
Proof.
  apply (feature_bars_fit 65535 (map entry_value twelve_entries)
           twelve_entries).
  - repeat constructor.
  - repeat (constructor; [vm_compute; discriminate |]). constructor.
  - constructor. vm_compute. reflexivity.
  - vm_compute. discriminate.
Defined.

(** ** The shares of the split *)

Lemma round_half_up_bounds (v : Q) (b : Z) :
  (0 <= v <= b # 1)%Q -> 0 <= round_half_up v <= b.
Proof.
  intros [H0 Hb]. unfold round_half_up. split.
  - assert (H : (0 <= v + (1 # 2))%Q) by lra.
    apply Qfloor_resp_le in H. exact H.
  - destruct (Z_le_gt_dec (Qfloor (v + (1 # 2))) b) as [H | H]; [exact H |].
    exfalso.
    pose proof (Qfloor_le (v + (1 # 2))) as Hf.
    assert (Hb1 : (b + 1 # 1 <= Qfloor (v + (1 # 2)) # 1)%Q)
      by (unfold Qle; cbn [Qnum Qden]; lia).
    assert (E : (b + 1 # 1 == (b # 1) + 1)%Q) by (unfold Qeq; simpl; lia).
    unfold inject_Z in Hf.
    set (F := Qfloor (v + (1 # 2)) # 1) in *.
    set (B1 := b + 1 # 1) in *. set (B := b # 1) in *.
    clearbody F B1 B. lra.
Qed.

(** X19: with a split size from 0 to 1 the two shares shown are whole numbers
    from 0 to 100. *)
Theorem shares_are_whole_per_cents :
  forall (s : State) (t : Q),
    testSize s = Fin t -> (0 <= t <= 1)%Q ->
    exists train test : Z,
      shares s = (of_Z train, of_Z test)
      /\ 0 <= train <= 100
      /\ 0 <= test <= 100.
Proof.
  intros s t Ht [H0 H1]. unfold shares. rewrite Ht, lit_1, lit_100.
  unfold num_sub, num_neg, num_add, fin.
  destruct (round64_bounded (Qred (1 + Qred (- t))) 1) as (r & Hr & Hr0 & Hr1);
    [rewrite !Qred_correct; lra | rewrite !Qred_correct; lra | reflexivity |].
  rewrite Hr. unfold num_mul.
  destruct (round64_bounded (Qred (r * 100)) 100) as (a & Ha & Ha0 & Ha1);
    [rewrite Qred_correct; lra | rewrite Qred_correct; lra | reflexivity |].
  destruct (round64_bounded (Qred (t * 100)) 100) as (b & Hb & Hb0 & Hb1);
    [rewrite Qred_correct; lra | rewrite Qred_correct; lra | reflexivity |].
  rewrite Ha, Hb. unfold math_round.
  exists (round_half_up a), (round_half_up b).
  split; [reflexivity |].
  split; apply round_half_up_bounds; split; assumption.
Qed.

(** X19 at work: the split size the wizard starts with. *)
Lemma shares_are_whole_per_cents_witness :
  exists train test : Z,
    shares initial = (of_Z train, of_Z test)
    /\ 0 <= train <= 100
    /\ 0 <= test <= 100.
Proof.
  eapply (shares_are_whole_per_cents initial).
  - vm_compute. reflexivity.
  - vm_compute. split; discriminate.
Defined.

Example initial_shares : shares initial = (of_Z 80, of_Z 20).
Proof. vm_compute. reflexivity. Qed.

(** ** The scatter plot *)

Lemma fold_min2_same (q : Q) (l : list Number) :
  Forall (fun x => x = Fin q) l -> fold_left min2 l (Fin q) = Fin q.
Proof.
  induction 1 as [| x l -> _ IH]; simpl; [reflexivity |].
  destruct (negb (Qle_bool q q)); exact IH.
Qed.

Lemma fold_max2_same (q : Q) (l : list Number) :
  Forall (fun x => x = Fin q) l -> fold_left max2 l (Fin q) = Fin q.
Proof.
  induction 1 as [| x l -> _ IH]; simpl; [reflexivity |].
  destruct (negb (Qle_bool q q)); exact IH.
Qed.

Lemma span_of_one_value (q : Q) (l : list Number) :
  l <> [] -> Forall (fun x => x = Fin q) l ->
  num_sub (JS.max l) (math_min l) = Fin 0
  /\ num_sub (Fin q) (math_min l) = Fin 0.
Proof.
  intros Hne Hl. destruct l as [| x l]; [contradiction |].
  inversion Hl as [| ? ? Hx Hl']; subst.
  unfold JS.max, math_min. simpl.
  rewrite fold_max2_same, fold_min2_same by assumption.
  assert (E : num_sub (Fin q) (Fin q) = Fin 0).
  { unfold num_sub, num_neg, num_add, fin.
    assert (E0 : Qred (q + Qred (- q)) = 0%Q).
    { change 0%Q with (Qred 0). apply Qred_complete.
      rewrite Qred_correct. ring. }
    rewrite E0. reflexivity. }
  rewrite E. auto.
Qed.

(** X20: points that share their abscissa get no horizontal place: every left
    offset is NaN, 0 divided by 0; likewise the bottom offsets of points
    that share their ordinate.  So it is for a single point. *)
Theorem scatter_of_one_value_has_no_place :
  forall (points : list ScatterPoint.t) (q : Q),
    points <> [] ->
    (Forall (fun p => ScatterPoint.x p = Fin q) points ->
     Forall (fun dot => dot_left dot = NaN) (scatterDots points))
    /\ (Forall (fun p => ScatterPoint.y p = Fin q) points ->
        Forall (fun dot => dot_bottom dot = NaN) (scatterDots points)).
Proof.
  intros points q Hne. split; intro H.
  - destruct (span_of_one_value q (map ScatterPoint.x points)) as [E1 E2].
    { destruct points; [contradiction | discriminate]. }
    { apply Forall_map. exact H. }
    apply Forall_forall. intros dot Hdot.
    apply in_map_iff in Hdot as (p & <- & Hp). cbn [dot_left].
    rewrite Forall_forall in H. rewrite (H p Hp), E1, E2. reflexivity.
  - destruct (span_of_one_value q (map ScatterPoint.y points)) as [E1 E2].
    { destruct points; [contradiction | discriminate]. }
    { apply Forall_map. exact H. }
    apply Forall_forall. intros dot Hdot.
    apply in_map_iff in Hdot as (p & <- & Hp). cbn [dot_bottom].
    rewrite Forall_forall in H. rewrite (H p Hp), E1, E2. reflexivity.
Qed.

(** X20 at work: two points that share their ordinate. *)
Lemma scatter_of_one_value_has_no_place_witness :
  Forall (fun dot => dot_bottom dot = NaN) (scatterDots sample_points).
Proof.
  apply (scatter_of_one_value_has_no_place sample_points 2).
  - discriminate.
  - repeat (constructor; [vm_compute; reflexivity |]). constructor.
Defined.

(** ** Rounding is monotone *)

Lemma pow2_Qpower (p : Z) : (pow2 p == 2 ^ p)%Q.
Proof.
  unfold pow2. destruct (Z.leb_spec 0 p) as [H | H].
  - rewrite <- (Zpower_Qpower 2 p H). reflexivity.
  - replace p with (- (- p)) at 2 by lia.
    rewrite Qpower_opp, <- (Zpower_Qpower 2 (- p)) by lia.
    assert (Hpos : 0 < 2 ^ (- p)) by (apply Z.pow_pos_nonneg; lia).
    destruct (2 ^ (- p)) as [| k | k]; try lia. reflexivity.
Qed.

Lemma pow2_add (a b : Z) : (pow2 (a + b) == pow2 a * pow2 b)%Q.
Proof. rewrite !pow2_Qpower. apply Qpower_plus. discriminate. Qed.

Lemma pow2_le (a b : Z) : a <= b -> (pow2 a <= pow2 b)%Q.
Proof.
  intro H. rewrite !pow2_Qpower. apply Qpower_le_compat_l; [exact H |].
  discriminate.
Qed.

Lemma pow2_nonneg_exp (k : Z) : 0 <= k -> pow2 k = (2 ^ k # 1)%Q.
Proof. intro H. unfold pow2. destruct (Z.leb_spec 0 k); [reflexivity | lia]. Qed.

Lemma pow2_div (a b : Z) : (pow2 a / pow2 b == pow2 (a - b))%Q.
Proof.
  pose proof (pow2_pos b) as Hb.
  replace a with ((a - b) + b) at 1 by lia. rewrite pow2_add.
  apply Qdiv_mult_l. lra.
Qed.

Lemma floor_log2_lt (q : Q) : (0 < q)%Q -> (q < pow2 (floor_log2 q + 1))%Q.
Proof.
  intro Hq. unfold floor_log2.
  destruct (Qle_bool (pow2 _) q) eqn:E.
  - clear E. destruct q as [n den]. unfold Qlt in Hq. cbn [Qnum Qden] in *.
    assert (Hn : 0 < n) by lia. clear Hq.
    pose proof (Z.log2_spec n Hn) as [Hn1 Hn2].
    pose proof (Z.log2_spec (Zpos den) (Pos2Z.is_pos den)) as [Hd1 Hd2].
    pose proof (Z.log2_nonneg n) as Hln.
    pose proof (Z.log2_nonneg (Zpos den)) as Hld.
    set (ln := Z.log2 n) in *. set (ld := Z.log2 (Zpos den)) in *.
    unfold pow2. destruct (Z.leb_spec 0 (ln - ld + 1)) as [Hs | Hs].
    + unfold Qlt; cbn [Qnum Qden]. rewrite Z.mul_1_r.
      apply Z.lt_le_trans with (2 ^ Z.succ ln); [exact Hn2 |].
      replace (Z.succ ln) with ((ln - ld + 1) + ld) by lia.
      rewrite Z.pow_add_r by lia.
      apply Z.mul_le_mono_nonneg_l; [apply Z.pow_nonneg; lia | exact Hd1].
    + unfold Qlt; cbn [Qnum Qden]. rewrite Z.mul_1_l.
      rewrite Z2Pos.id by (apply Z.pow_pos_nonneg; lia).
      assert (Hk : 0 < 2 ^ (- (ln - ld + 1)))
        by (apply Z.pow_pos_nonneg; lia).
      assert (Hpow : 2 ^ Z.succ ln * 2 ^ (- (ln - ld + 1)) = 2 ^ ld)
        by (rewrite <- Z.pow_add_r by lia; f_equal; lia).
      apply Z.lt_le_trans with (2 ^ Z.succ ln * 2 ^ (- (ln - ld + 1)));
        [| rewrite Hpow; exact Hd1].
      apply Zmult_lt_compat_r; assumption.
  - replace (Z.log2 (Qnum q) - Z.log2 (Zpos (Qden q)) - 1 + 1)
      with (Z.log2 (Qnum q) - Z.log2 (Zpos (Qden q))) by lia.
    apply Qnot_le_lt. intro H. apply Qle_bool_iff in H. congruence.
Qed.

Lemma floor_log2_mono (a b : Q) :
  (0 < a)%Q -> (a <= b)%Q -> floor_log2 a <= floor_log2 b.
Proof.
  intros Ha Hab.
  destruct (Z_le_gt_dec (floor_log2 a) (floor_log2 b)) as [H | H];
    [exact H | exfalso].
  pose proof (floor_log2_le a Ha) as H1.
  assert (Hb : (0 < b)%Q) by lra.
  pose proof (floor_log2_lt b Hb) as H2.
  pose proof (pow2_le (floor_log2 b + 1) (floor_log2 a)) as H3.
  assert (H4 : (pow2 (floor_log2 b + 1) <= pow2 (floor_log2 a))%Q)
    by (apply H3; lia).
  lra.
Qed.

Lemma round_half_even_range (x : Q) :
  Qfloor x <= round_half_even x <= Qfloor x + 1.
Proof.
  unfold round_half_even.
  destruct (_ ?= _)%Q; [destruct (Z.even _) | |]; lia.
Qed.

Lemma round_half_even_ge (x : Q) (N : Z) :
  (N # 1 <= x)%Q -> N <= round_half_even x.
Proof.
  intro H. apply Qfloor_resp_le in H. rewrite Qfloor_int in H.
  pose proof (round_half_even_range x). lia.
Qed.

Lemma round_half_even_mono (x y : Q) :
  (x <= y)%Q -> round_half_even x <= round_half_even y.
Proof.
  intro Hxy. pose proof (Qfloor_resp_le _ _ Hxy) as Hf.
  pose proof (round_half_even_range x) as Hx.
  pose proof (round_half_even_range y) as Hy.
  destruct (Z.eq_dec (Qfloor x) (Qfloor y)) as [E | E]; [| lia].
  unfold round_half_even in *. rewrite <- E in *.
  set (f := Qfloor x) in *.
  destruct (x - (f # 1) ?= 1 # 2)%Q eqn:Cx;
    destruct (y - (f # 1) ?= 1 # 2)%Q eqn:Cy;
    try (destruct (Z.even f)); try lia;
    first [apply Qeq_alt in Cx | apply Qlt_alt in Cx | apply Qgt_alt in Cx];
    first [apply Qeq_alt in Cy | apply Qlt_alt in Cy | apply Qgt_alt in Cy];
    exfalso; set (F := f # 1) in *; clearbody F; lra.
Qed.

Lemma round64_pos_rounded (q : Q) :
  round64_pos q
  = if Qle_bool (pow2 1024) (rounded q) then Infinity else fin (rounded q).
Proof. reflexivity. Qed.

Lemma rounded_nonneg (q : Q) : (0 <= q)%Q -> (0 <= rounded q)%Q.
Proof.
  intro Hq. unfold rounded.
  pose proof (pow2_pos (last_place q)) as Hp.
  apply Qmult_le_0_compat; [| lra].
  assert (H : 0 <= round_half_even (q / pow2 (last_place q))).
  { apply round_half_even_nonneg. apply Qle_shift_div_l; [exact Hp | lra]. }
  unfold Qle; cbn [Qnum Qden]. lia.
Qed.

Lemma Z_le_Qle (a b : Z) : a <= b -> (a # 1 <= b # 1)%Q.
Proof. intro H. unfold Qle; cbn [Qnum Qden]. lia. Qed.

Lemma rounded_mono (a b : Q) :
  (0 < a)%Q -> (a <= b)%Q -> (rounded a <= rounded b)%Q.
Proof.
  intros Ha Hab. assert (Hb : (0 < b)%Q) by lra.
  pose proof (floor_log2_mono a b Ha Hab) as He.
  unfold rounded, last_place.
  set (ea := floor_log2 a) in *. set (eb := floor_log2 b) in *.
  set (pa := Z.max (ea - 52) (-1074)). set (pb := Z.max (eb - 52) (-1074)).
  pose proof (pow2_pos pa) as Hpa. pose proof (pow2_pos pb) as Hpb.
  destruct (Z.eq_dec pa pb) as [E | E].
  - rewrite <- E. apply Qmult_le_compat_r; [| lra].
    apply Z_le_Qle. apply round_half_even_mono.
    unfold Qdiv. apply Qmult_le_compat_r; [exact Hab |].
    apply Qinv_le_0_compat. lra.
  - assert (Hpb' : pb = eb - 52) by lia.
    set (t := Z.max (ea + 1) pa).
    assert (Ht : t <= eb) by lia.
    (* the lower number stays at or below 2^t *)
    assert (Hlow : ((round_half_even (a / pow2 pa) # 1) * pow2 pa
                    <= pow2 t)%Q).
    { assert (Hm : round_half_even (a / pow2 pa) <= 2 ^ (t - pa)).
      { apply round_half_even_le.
        rewrite <- (pow2_nonneg_exp (t - pa)) by lia.
        rewrite <- pow2_div.
        unfold Qdiv. apply Qmult_le_compat_r;
          [| apply Qinv_le_0_compat; lra].
        pose proof (floor_log2_lt a Ha) as Hlt. fold ea in Hlt.
        pose proof (pow2_le (ea + 1) t) as Hle.
        assert (pow2 (ea + 1) <= pow2 t)%Q by (apply Hle; lia). lra. }
      apply Z_le_Qle in Hm.
      rewrite <- (pow2_nonneg_exp (t - pa)) in Hm by lia.
      apply Qle_trans with (pow2 (t - pa) * pow2 pa)%Q.
      - apply Qmult_le_compat_r; [exact Hm | lra].
      - rewrite <- pow2_add. replace (t - pa + pa) with t by lia.
        apply Qle_refl. }
    (* the upper number stays at or above 2^eb *)
    assert (Hhigh : (pow2 eb
                     <= (round_half_even (b / pow2 pb) # 1) * pow2 pb)%Q).
    { assert (Hm : 2 ^ 52 <= round_half_even (b / pow2 pb)).
      { apply round_half_even_ge.
        rewrite <- (pow2_nonneg_exp 52) by lia.
        replace 52 with (eb - pb) by lia. rewrite <- pow2_div.
        unfold Qdiv. apply Qmult_le_compat_r;
          [| apply Qinv_le_0_compat; lra].
        apply floor_log2_le. exact Hb. }
      apply Z_le_Qle in Hm.
      rewrite <- (pow2_nonneg_exp 52) in Hm by lia.
      apply Qle_trans with (pow2 52 * pow2 pb)%Q.
      - rewrite <- pow2_add. replace (52 + pb) with eb by lia.
        apply Qle_refl.
      - apply Qmult_le_compat_r; [exact Hm | lra]. }
    pose proof (pow2_le t eb Ht). lra.
Qed.

Lemma round64_pos_mono (a b : Q) :
  (0 < a)%Q -> (a <= b)%Q ->
  ge (round64_pos b) (round64_pos a) = true
  /\ nonnegative_or_infinite (round64_pos a)
  /\ nonnegative_or_infinite (round64_pos b).
Proof.
  intros Ha Hab. assert (Hb : (0 < b)%Q) by lra.
  pose proof (rounded_mono a b Ha Hab) as Hm.
  assert (Ha0 : (0 <= rounded a)%Q) by (apply rounded_nonneg; lra).
  assert (Hb0 : (0 <= rounded b)%Q) by (apply rounded_nonneg; lra).
  rewrite !round64_pos_rounded.
  destruct (Qle_bool (pow2 1024) (rounded a)) eqn:Oa.
  - apply Qle_bool_iff in Oa.
    assert (Ob : Qle_bool (pow2 1024) (rounded b) = true)
      by (apply Qle_bool_iff; lra).
    rewrite Ob. simpl. auto.
  - destruct (Qle_bool (pow2 1024) (rounded b)); unfold fin;
      cbn [ge nonnegative_or_infinite].
    + rewrite Qred_correct. auto.
    + rewrite !Qred_correct. repeat split; try assumption.
      apply Qle_bool_iff. rewrite ?Qred_correct. exact Hm.
Qed.

(** Rounding keeps the order of reals that are not negative, and gives a
    number that is not negative, or infinity. *)
Lemma round64_mono (a b : Q) :
  (0 <= a)%Q -> (a <= b)%Q ->
  ge (round64 b) (round64 a) = true
  /\ nonnegative_or_infinite (round64 a)
  /\ nonnegative_or_infinite (round64 b).
Proof.
  intros Ha Hab. unfold round64.
  destruct a as [[| na | na] da]; cbn [Qnum].
  - destruct b as [[| nb | nb] db]; cbn [Qnum].
    + simpl. repeat split; lra.
    + assert (Hb : (0 < Zpos nb # db)%Q) by reflexivity.
      destruct (round64_pos_mono _ _ Hb (Qle_refl _)) as (_ & Hnn & _).
      destruct (round64_pos (Zpos nb # db)); simpl in *; try contradiction;
        repeat split; try lra; auto.
      apply Qle_bool_iff. exact Hnn.
    + exfalso. assert (Zneg nb # db < 0)%Q by reflexivity. lra.
  - assert (Hpa : (0 < Zpos na # da)%Q) by reflexivity.
    destruct b as [[| nb | nb] db]; cbn [Qnum].
    + exfalso. assert (0 # db == 0)%Q by reflexivity. lra.
    + apply round64_pos_mono; assumption.
    + exfalso. assert (Zneg nb # db < 0)%Q by reflexivity. lra.
  - exfalso. assert (Zneg na # da < 0)%Q by reflexivity. lra.
Qed.

(** ** The scatter plot stays in its frame *)

Lemma lit_95 : lit "95" = Fin 95.
Proof. vm_compute. reflexivity. Qed.

(** [Math.min] of numbers that are finite: one of them, and none below. *)
Lemma fold_min2_finite (l : list Number) :
  Forall finite l ->
  forall a, exists m,
    fold_left min2 l (Fin a) = Fin m
    /\ (m <= a)%Q
    /\ Forall (at_least m) l
    /\ (Fin m = Fin a \/ In (Fin m) l).
Proof.
  induction 1 as [| x l Hx _ IH]; intro a; simpl.
  - exists a. repeat split; [lra | constructor | left; reflexivity].
  - destruct x as [| | | q]; try contradiction. simpl.
    destruct (Qle_bool a q) eqn:E; simpl.
    + apply Qle_bool_iff in E.
      destruct (IH a) as (m & Hm & Ha & Hall & Hin).
      exists m. repeat split; try assumption.
      * constructor; [simpl; lra | exact Hall].
      * destruct Hin; [left | right; right]; assumption.
    + assert (Hlt : (q < a)%Q).
      { apply Qnot_le_lt. intro H. apply Qle_bool_iff in H. congruence. }
      destruct (IH q) as (m & Hm & Hq & Hall & Hin).
      exists m. repeat split; try assumption.
      * lra.
      * constructor; [simpl; lra | exact Hall].
      * right. destruct Hin as [Hin | Hin]; [left; symmetry | right];
          assumption.
Qed.

Lemma min_finite (l : list Number) :
  l <> [] -> Forall finite l ->
  exists m, math_min l = Fin m /\ Forall (at_least m) l /\ In (Fin m) l.
Proof.
  intros Hne Hl. destruct l as [| x l]; [contradiction |].
  inversion Hl as [| ? ? Hx Hl']; subst.
  destruct x as [| | | q]; try contradiction.
  unfold math_min. simpl.
  destruct (fold_min2_finite l Hl' q) as (m & Hm & Hq & Hall & Hin).
  exists m. repeat split; try assumption.
  - constructor; [exact Hq | exact Hall].
  - destruct Hin as [Hin | Hin]; [left; symmetry | right]; assumption.
Qed.

Lemma num_sub_finite (a b : Q) :
  num_sub (Fin a) (Fin b) = round64 (Qred (a + Qred (- b))).
Proof. reflexivity. Qed.

(** [(v - lo) / (hi - lo) * 95] for [lo <= v <= hi]: NaN, or from 0 to 95. *)
Lemma place_in_frame (v lo hi : Q) :
  (lo <= v <= hi)%Q ->
  let place :=
    num_mul (num_div (num_sub (Fin v) (Fin lo)) (num_sub (Fin hi) (Fin lo)))
            (lit "95") in
  place = NaN \/ within 0 95 place.
Proof.
  intros [Hlo Hhi] place. subst place. rewrite lit_95, !num_sub_finite.
  destruct (round64_mono (Qred (v + Qred (- lo))) (Qred (hi + Qred (- lo))))
    as (Hge & Ha & Hb).
  { rewrite !Qred_correct. lra. }
  { rewrite !Qred_correct. lra. }
  destruct (round64 (Qred (v + Qred (- lo)))) as [| | | a];
    destruct (round64 (Qred (hi + Qred (- lo)))) as [| | | b];
    cbn [nonnegative_or_infinite ge] in *;
    try contradiction; try discriminate.
  - left. reflexivity.
  - right. vm_compute. split; discriminate.
  - apply Qle_bool_iff in Hge. unfold num_div.
    destruct (Qeq_bool b 0) eqn:Eb.
    + apply Qeq_bool_iff in Eb.
      assert (Ea : Qeq_bool a 0 = true) by (apply Qeq_bool_iff; lra).
      rewrite Ea. left. reflexivity.
    + assert (Hb0 : (0 < b)%Q).
      { destruct (Qlt_le_dec 0 b) as [H | H]; [exact H | exfalso].
        assert (E : (b == 0)%Q) by lra.
        apply Qeq_bool_iff in E. congruence. }
      assert (Hq : (0 <= a / b <= 1)%Q).
      { split.
        - apply Qle_shift_div_l; [exact Hb0 | lra].
        - apply Qle_shift_div_r; [exact Hb0 | lra]. }
      right.
      destruct (round64_bounded (Qred (a / b)) 1) as (r & Hr & Hr0 & Hr1);
        [rewrite Qred_correct; tauto | rewrite Qred_correct; tauto
        | reflexivity |].
      rewrite Hr. unfold num_mul.
      destruct (round64_bounded (Qred (r * 95)) 95) as (w & Hw & Hw0 & Hw1);
        [rewrite Qred_correct; lra | rewrite Qred_correct; lra
        | reflexivity |].
      rewrite Hw. simpl. split; assumption.
Qed.

Lemma places_in_frame (l : list Number) (v : Number) :
  Forall finite l -> In v l ->
  let place :=
    num_mul (num_div (num_sub v (math_min l))
                     (num_sub (JS.max l) (math_min l)))
            (lit "95") in
  place = NaN \/ within 0 95 place.
Proof.
  intros Hl Hv.
  assert (Hne : l <> []) by (intro E; subst l; contradiction).
  destruct (min_finite l Hne Hl) as (lo & Elo & Hlo & _).
  destruct (max_finite l Hne Hl) as (hi & Ehi & Hhi & _).
  rewrite Forall_forall in Hlo, Hhi.
  specialize (Hlo v Hv). specialize (Hhi v Hv).
  destruct v as [| | | q]; try contradiction.
  rewrite Elo, Ehi. apply place_in_frame. simpl in *. split; assumption.
Qed.

(** X21: every dot of the scatter plot, for points with finite coordinates,
    sits inside the frame: each offset is from 0 to 95 per cent, or NaN, as
    it is when all points share the coordinate or the spread overflows. *)
Theorem scatter_dots_stay_in_the_frame :
  forall points : list ScatterPoint.t,
    Forall (fun p => finite (ScatterPoint.x p) /\ finite (ScatterPoint.y p))
           points ->
    Forall (fun dot =>
              (dot_left dot = NaN \/ within 0 95 (dot_left dot))
              /\ (dot_bottom dot = NaN \/ within 0 95 (dot_bottom dot)))
           (scatterDots points).
Proof.
  intros points H.
  assert (Hx : Forall finite (map ScatterPoint.x points)).
  { apply Forall_map. eapply Forall_impl; [| exact H]. simpl. tauto. }
  assert (Hy : Forall finite (map ScatterPoint.y points)).
  { apply Forall_map. eapply Forall_impl; [| exact H]. simpl. tauto. }
  apply Forall_forall. intros dot Hdot.
  apply in_map_iff in Hdot as (p & <- & Hp). cbn [dot_left dot_bottom]. split.
  - apply places_in_frame; [exact Hx | apply in_map; exact Hp].
  - apply places_in_frame; [exact Hy | apply in_map; exact Hp].
Qed.

(** X21 at work: two points, the second to the right of the first. *)
Lemma scatter_dots_stay_in_the_frame_witness :
  Forall (fun dot =>
            (dot_left dot = NaN \/ within 0 95 (dot_left dot))
            /\ (dot_bottom dot = NaN \/ within 0 95 (dot_bottom dot)))
         (scatterDots sample_points).
Proof.
  apply (scatter_dots_stay_in_the_frame sample_points).
  repeat (constructor; [vm_compute; split; exact I |]). constructor.
Defined.

Example sample_dots :
  map (fun dot => (dot_left dot, dot_bottom dot)) (scatterDots sample_points)
  = [(Fin 0, NaN); (Fin 95, NaN)].
Proof. vm_compute. reflexivity. Qed.

(** ** The bars keep the order of the counts *)

(** [c / whole * 100] grows with [c]. *)
Lemma percent_grows (a b M : Q) :
  (0 <= a <= b)%Q -> (b <= M)%Q -> (0 < M)%Q ->
  ge (num_mul (num_div (Fin b) (Fin M)) (lit "100"))
     (num_mul (num_div (Fin a) (Fin M)) (lit "100")) = true.
Proof.
  intros [Ha Hab] HbM HM. rewrite lit_100. unfold num_div.
  assert (HM0 : Qeq_bool M 0 = false).
  { destruct (Qeq_bool M 0) eqn:E; [| reflexivity].
    apply Qeq_bool_iff in E. lra. }
  rewrite HM0.
  assert (Hqa : (0 <= a / M)%Q) by (apply Qle_shift_div_l; [exact HM | lra]).
  assert (Hqb : (b / M <= 1)%Q) by (apply Qle_shift_div_r; [exact HM | lra]).
  assert (Hqab : (a / M <= b / M)%Q).
  { unfold Qdiv. apply Qmult_le_compat_r; [exact Hab |].
    apply Qinv_le_0_compat. lra. }
  destruct (round64_mono (Qred (a / M)) (Qred (b / M))) as (Hge & _ & _);
    [rewrite Qred_correct; exact Hqa | rewrite !Qred_correct; exact Hqab |].
  destruct (round64_bounded (Qred (a / M)) 1) as (ra & Era & Hra0 & Hra1);
    [rewrite Qred_correct; lra | rewrite Qred_correct; lra | reflexivity |].
  destruct (round64_bounded (Qred (b / M)) 1) as (rb & Erb & Hrb0 & Hrb1);
    [rewrite Qred_correct; lra | rewrite Qred_correct; lra | reflexivity |].
  rewrite Era, Erb in *. cbn [ge] in Hge. apply Qle_bool_iff in Hge.
  unfold num_mul.
  destruct (round64_mono (Qred (ra * 100)) (Qred (rb * 100))) as (H & _ & _);
    [rewrite Qred_correct; lra | rewrite !Qred_correct; lra | exact H].
Qed.

(** X22: the distribution bars keep the order of the counts: with counts
    that are not negative and one of them above 0, a class with at least as
    many rows as another has a bar at least as wide. *)
Theorem distribution_bars_keep_the_order :
  forall d : Distributions.t,
    let counts := map snd (Distributions.data d) in
    Forall nonnegative counts ->
    Exists above_zero counts ->
    Forall (fun smaller =>
              Forall (fun larger =>
                        ge (class_count larger) (class_count smaller) = true ->
                        ge (bar_width larger) (bar_width smaller) = true)
                     (distributionBars d))
           (distributionBars d).
Proof.
  intros d counts Hnn Hpos.
  destruct (max_finite counts) as (M & HM & Hall & Hin).
  { intro E. rewrite E in Hpos. inversion Hpos. }
  { apply Forall_impl with (2 := Hnn). apply nonnegative_finite. }
  assert (HMpos : (0 < M)%Q).
  { apply Exists_exists in Hpos as (x & Hx & Hxpos).
    rewrite Forall_forall in Hall. specialize (Hall x Hx).
    destruct x; try contradiction. simpl in *. lra. }
  unfold distributionBars. fold counts. rewrite HM.
  rewrite Forall_forall in Hall, Hnn.
  apply Forall_forall. intros smaller Hs.
  apply in_map_iff in Hs as (e1 & <- & He1).
  apply Forall_forall. intros larger Hl.
  apply in_map_iff in Hl as (e2 & <- & He2).
  cbn [class_count bar_width].
  assert (H1 : In (snd e1) counts) by (apply in_map; exact He1).
  assert (H2 : In (snd e2) counts) by (apply in_map; exact He2).
  pose proof (Hnn _ H1) as N1. pose proof (Hall _ H2) as A2.
  destruct (snd e1) as [| | | a]; try contradiction.
  destruct (snd e2) as [| | | b]; try contradiction.
  cbn [ge nonnegative at_most] in *. intro Hab.
  apply Qle_bool_iff in Hab.
  apply percent_grows; [split; assumption | exact A2 | exact HMpos].
Qed.

(** X22 at work: the three classes again. *)
Lemma distribution_bars_keep_the_order_witness :
  Forall (fun smaller =>
            Forall (fun larger =>
                      ge (class_count larger) (class_count smaller) = true ->
                      ge (bar_width larger) (bar_width smaller) = true)
                   (distributionBars sample_distribution))
         (distributionBars sample_distribution).
Proof.
  apply (distribution_bars_keep_the_order sample_distribution).
  - repeat (constructor; [vm_compute; discriminate |]). constructor.
  - constructor. vm_compute. reflexivity.
Defined.

Example sample_bars :
  map bar_width (distributionBars sample_distribution)
  = [Fin 100; Fin 60; Fin 0].
Proof. vm_compute. reflexivity. Qed.
